(** * Energy Web trigger node: the event-polling core

    A shallow embedding of [nodes/EnergyWeb/EnergyWebTrigger.node.ts]
    together with the helpers ([utils/helpers.ts]) and the transport
    wrappers ([transport/rpcClient.ts]) it calls, followed by the
    properties of the poll cursor, the scan window, the six event
    decoders and their address filter.

    Conventions of the embedding:
    - JavaScript strings are [string]s of bytes; [toLowerCase] acts on the
      ASCII letters, which is all that hex-encoded addresses contain.
    - A JavaScript number that holds a block height is a [jsnum]: an
      unbounded integer or [NaN] (what [parseInt] returns on a string
      without digits).  The rounding of doubles beyond 2^53 is left out.
    - A [bigint] is a [Z].
    - Remote services are oracles gathered in a [World]; an [await] on them
      either yields a reply or throws.
    - Exceptions are values of [exn]; code that can throw lives in the
      [result] monad, and [poll], which also writes the workflow static
      data, in the monad [M] whose state survives a throw, as an object
      mutated before a JavaScript exception does. *)

From Stdlib Require Import ZArith List String Ascii Bool Lia QArith.
From Stdlib Require Import DecimalString HexadecimalString DecimalZ DecimalPos.
From Stdlib Require Import HexadecimalZ HexadecimalPos.
From Equations Require Import Equations.
Import ListNotations.

#[local] Open Scope string_scope.
#[local] Open Scope Z_scope.

(** ** Strings *)

Module Str.

Definition isUpper (c : ascii) : bool :=
  let n := nat_of_ascii c in (Nat.leb 65 n && Nat.leb n 90)%bool.

Definition lowerChar (c : ascii) : ascii :=
  if isUpper c then ascii_of_nat (nat_of_ascii c + 32) else c.

(** [String.prototype.toLowerCase] *)
Fixpoint toLowerCase (s : string) : string :=
  match s with
  | EmptyString => EmptyString
  | String c r => String (lowerChar c) (toLowerCase r)
  end.

(** [s.slice(-n)]: the last [n] characters, the whole string when it is
    shorter. *)
Definition sliceLast (n : nat) (s : string) : string :=
  substring (String.length s - n) n s.

(** [s.slice(i, j)] for [0 <= i <= j]. *)
Definition slice (i j : nat) (s : string) : string :=
  substring i (j - i) s.

Fixpoint repeat (c : ascii) (n : nat) : string :=
  match n with
  | O => EmptyString
  | S k => String c (repeat c k)
  end.

(** [s.padEnd(n, c)] and [s.padStart(n, c)] with a one-character filler. *)
Definition padEnd (n : nat) (c : ascii) (s : string) : string :=
  s ++ repeat c (n - String.length s).

Definition padStart (n : nat) (c : ascii) (s : string) : string :=
  repeat c (n - String.length s) ++ s.

(** [s.replace(/0+$/, '')] *)
Fixpoint stripTrailingZeros (s : string) : string :=
  match s with
  | EmptyString => EmptyString
  | String c r =>
      match stripTrailingZeros r with
      | EmptyString => if Ascii.eqb c "0" then EmptyString else String c EmptyString
      | r' => String c r'
      end
  end.

(** Truthiness of a string: only [''] is falsy. *)
Definition truthy (s : string) : bool :=
  match s with EmptyString => false | _ => true end.

(** [a || b] on strings. *)
Definition orElse (a b : string) : string := if truthy a then a else b.

(** White space that [parseInt] and [BigInt] skip (the ASCII part of
    StrWhiteSpaceChar). *)
Definition isSpace (c : ascii) : bool :=
  let n := nat_of_ascii c in
  (Nat.eqb n 9 || Nat.eqb n 10 || Nat.eqb n 11 || Nat.eqb n 12 || Nat.eqb n 13
   || Nat.eqb n 32)%bool.

Fixpoint trimStart (s : string) : string :=
  match s with
  | EmptyString => EmptyString
  | String c r => if isSpace c then trimStart r else s
  end.

Fixpoint trimEnd (s : string) : string :=
  match s with
  | EmptyString => EmptyString
  | String c r =>
      match trimEnd r with
      | EmptyString => if isSpace c then EmptyString else String c EmptyString
      | r' => String c r'
      end
  end.

Definition trim (s : string) : string := trimEnd (trimStart s).

Fixpoint forallb (p : ascii -> bool) (s : string) : bool :=
  match s with
  | EmptyString => true
  | String c r => (p c && forallb p r)%bool
  end.

End Str.

(** ** Numbers *)

(** A number holding a block height or a parsed hex quantity. *)
Inductive jsnum : Type :=
| JInt (z : Z)
| JNaN.

Module Num.

Definition sub (a b : jsnum) : jsnum :=
  match a, b with JInt x, JInt y => JInt (x - y) | _, _ => JNaN end.

Definition add (a b : jsnum) : jsnum :=
  match a, b with JInt x, JInt y => JInt (x + y) | _, _ => JNaN end.

Definition mul (a b : jsnum) : jsnum :=
  match a, b with JInt x, JInt y => JInt (x * y) | _, _ => JNaN end.

(** [Math.max(a, b)]: [NaN] as soon as one argument is. *)
Definition max (a b : jsnum) : jsnum :=
  match a, b with JInt x, JInt y => JInt (Z.max x y) | _, _ => JNaN end.

(** [a > b] and [a <= b]: every comparison with [NaN] is false. *)
Definition gt (a b : jsnum) : bool :=
  match a, b with JInt x, JInt y => x >? y | _, _ => false end.

Definition le (a b : jsnum) : bool :=
  match a, b with JInt x, JInt y => x <=? y | _, _ => false end.

(** [a === 0] *)
Definition isZero (a : jsnum) : bool :=
  match a with JInt x => x =? 0 | JNaN => false end.

(** [a || b] on numbers: [0] and [NaN] are falsy. *)
Definition orElse (a b : jsnum) : jsnum :=
  match a with
  | JInt x => if x =? 0 then b else a
  | JNaN => b
  end.

End Num.

(** Value of a character as a digit, up to base 16, either case. *)
Definition digitValue (c : ascii) : option Z :=
  let n := nat_of_ascii c in
  if (Nat.leb 48 n && Nat.leb n 57)%bool then Some (Z.of_nat (n - 48))
  else if (Nat.leb 97 n && Nat.leb n 102)%bool then Some (Z.of_nat (n - 87))
  else if (Nat.leb 65 n && Nat.leb n 70)%bool then Some (Z.of_nat (n - 55))
  else None.

Definition isDigitOf (radix : Z) (c : ascii) : bool :=
  match digitValue c with
  | Some d => d <? radix
  | None => false
  end.

(** [/[a-fA-F0-9]/] *)
Definition isHexDigit (c : ascii) : bool := isDigitOf 16 c.

(** The longest prefix of digits of the radix, read left to right:
    the accumulated value and whether a digit was seen. *)
Fixpoint readDigits (radix : Z) (s : string) (acc : Z) (seen : bool)
  : Z * bool * string :=
  match s with
  | EmptyString => (acc, seen, s)
  | String c r =>
      match digitValue c with
      | Some d =>
          if d <? radix then readDigits radix r (acc * radix + d) true
          else (acc, seen, s)
      | None => (acc, seen, s)
      end
  end.

Definition stripHexPrefix (s : string) : string :=
  match s with
  | String "0" (String "x" r) => r
  | String "0" (String "X" r) => r
  | _ => s
  end.

(** [parseInt(s, 16)]: leading white space, a sign, an optional [0x], then
    as many hex digits as there are; [NaN] without a digit.  The value is
    the exact integer: it is the double that [parseInt] returns up to
    [2^53], and the rounding beyond is left out. *)
Definition parseInt16 (s : string) : jsnum :=
  let s1 := Str.trimStart s in
  let '(neg, s2) :=
    match s1 with
    | String "-" r => (true, r)
    | String "+" r => (false, r)
    | _ => (false, s1)
    end in
  let '(v, seen, _) := readDigits 16 (stripHexPrefix s2) 0 false in
  if seen then JInt (if neg then - v else v) else JNaN.

(** [helpers.ts]: [hexToNumber] *)
Definition hexToNumber (hex : string) : jsnum := parseInt16 hex.

(** [num.toString(16)] *)
Definition toString16 (n : jsnum) : string :=
  match n with
  | JInt z => HexadecimalString.NilZero.string_of_int (Z.to_hex_int z)
  | JNaN => "NaN"
  end.

(** [helpers.ts]: [numberToHex] *)
Definition numberToHex (num : jsnum) : string := "0x" ++ toString16 num.

(** [bigint.toString()] *)
Definition bigintToString (z : Z) : string :=
  DecimalString.NilZero.string_of_int (Z.to_int z).

(** [helpers.ts]: [isValidAddress], the test of [/^0x[a-fA-F0-9]{40}$/]. *)
Definition isValidAddress (address : string) : bool :=
  match address with
  | String "0" (String "x" r) =>
      (Nat.eqb (String.length r) 40 && Str.forallb isHexDigit r)%bool
  | _ => false
  end.

(** [helpers.ts]: [isValidTxHash], the test of [/^0x[a-fA-F0-9]{64}$/]:
    the shape of a 32-byte hash, which is also that of a log topic. *)
Definition isValidTxHash (txHash : string) : bool :=
  match txHash with
  | String "0" (String "x" r) =>
      (Nat.eqb (String.length r) 64 && Str.forallb isHexDigit r)%bool
  | _ => false
  end.

(** ** Exceptions and fallible code *)

Inductive exn : Type :=
| NodeApiError (message : string) (code : option Z)
| NodeOperationError (message : string)
| RangeError (message : string)
| SyntaxError (message : string)
| TypeError (message : string).

(** [error.message] *)
Definition message_of (e : exn) : string :=
  match e with
  | NodeApiError m _ => m
  | NodeOperationError m => m
  | RangeError m => m
  | SyntaxError m => m
  | TypeError m => m
  end.

Inductive result (A : Type) : Type :=
| Ok (a : A)
| Throw (e : exn).

Arguments Ok {A} a.
Arguments Throw {A} e.

Definition rbind {A B : Type} (r : result A) (k : A -> result B) : result B :=
  match r with
  | Ok a => k a
  | Throw e => Throw e
  end.

Declare Scope result_scope.
Delimit Scope result_scope with result.
Notation "'let?' x ':=' r 'in' k" := (rbind r (fun x => k))
  (at level 10, x pattern, r at level 100, k at level 200) : result_scope.
#[local] Open Scope result_scope.

(** [try { body } catch { handler }] *)
Definition tryCatch {A : Type} (body : result A) (handler : exn -> result A)
  : result A :=
  match body with
  | Ok a => Ok a
  | Throw e => handler e
  end.

Definition isThrow {A : Type} (r : result A) : bool :=
  match r with Ok _ => false | Throw _ => true end.

(** ** BigInt *)

(** A literal made of digits of the radix only, and of at least one. *)
Definition readAllDigits (radix : Z) (s : string) : result Z :=
  match readDigits radix s 0 false with
  | (v, true, EmptyString) => Ok v
  | _ => Throw (SyntaxError ("Cannot convert " ++ s ++ " to a BigInt"))
  end.

(** [BigInt(s)] for a string: white space around is dropped, [''] is [0n],
    [0x], [0o] and [0b] introduce an unsigned literal, anything else is a
    decimal literal with an optional sign; a [SyntaxError] otherwise. *)
Definition BigInt_of_string (s : string) : result Z :=
  match Str.trim s with
  | EmptyString => Ok 0
  | String "0" (String "x" r) | String "0" (String "X" r) => readAllDigits 16 r
  | String "0" (String "o" r) | String "0" (String "O" r) => readAllDigits 8 r
  | String "0" (String "b" r) | String "0" (String "B" r) => readAllDigits 2 r
  | String "-" r => let? v := readAllDigits 10 r in Ok (- v)
  | String "+" r => readAllDigits 10 r
  | t => readAllDigits 10 t
  end.

(** A finite number is kept as the rational it denotes; it is an integer
    when its denominator divides its numerator. *)
Definition isInteger (x : Q) : bool := Qnum x mod Zpos (Qden x) =? 0.

(** [BigInt(x)] for a number: a [RangeError] unless [x] is an integer. *)
Definition BigInt_of_number (x : Q) : result Z :=
  if isInteger x then Ok (Qnum x / Zpos (Qden x))
  else Throw (RangeError "The number cannot be converted to a BigInt").

(** [10 ** 18], which a double holds exactly. *)
Definition ten_pow_18 : Q := inject_Z (10 ^ 18).

(** ** Unit conversion ([helpers.ts]) *)

Module WEI_UNITS.
Definition gwei : string := "1000000000".
Definition ewt : string := "1000000000000000000".
End WEI_UNITS.

Record IUnitConversion : Type := {
  uc_wei : string;
  uc_gwei : string;
  uc_ewt : string
}.

(** [formatEwt]; [/] and [%] on bigints truncate towards zero. *)
Definition formatEwt (wei divisor : Z) : string :=
  let whole := Z.quot wei divisor in
  let remainder := Z.rem wei divisor in
  if remainder =? 0 then bigintToString whole
  else
    let decimals :=
      Str.stripTrailingZeros (Str.padStart 18 "0" (bigintToString remainder)) in
    bigintToString whole ++ "." ++ decimals.

(** [weiToUnits] *)
Definition weiToUnits (weiValue : string) : result IUnitConversion :=
  let? wei := BigInt_of_string weiValue in
  let? gweiDivisor := BigInt_of_string WEI_UNITS.gwei in
  let? ewtDivisor := BigInt_of_string WEI_UNITS.ewt in
  Ok {| uc_wei := bigintToString wei;
        uc_gwei := bigintToString (Z.quot wei gweiDivisor);
        uc_ewt := formatEwt wei ewtDivisor |}.

(** ** Constants ([constants/constants.ts]) and credentials ([utils/types.ts]) *)

Inductive NetworkType : Type := mainnet | volta | custom.

Record NetworkConfig : Type := {
  name : string;
  chainId : Z;
  rpcUrl : string;
  explorerUrl : string
}.

Module NETWORKS.
Definition mainnet : NetworkConfig :=
  {| name := "Energy Web Chain"; chainId := 246;
     rpcUrl := "https://rpc.energyweb.org";
     explorerUrl := "https://explorer.energyweb.org" |}.
Definition volta : NetworkConfig :=
  {| name := "Volta Testnet"; chainId := 73799;
     rpcUrl := "https://volta-rpc.energyweb.org";
     explorerUrl := "https://volta-explorer.energyweb.org" |}.
End NETWORKS.

Module DEFAULT_CONTRACTS.
Definition didRegistry : string := "0xc15d5a57a8eb0e1dcbe5d88b8f9a82017e5cc4af".
End DEFAULT_CONTRACTS.

Module ERROR_MESSAGES.
Definition RPC_ERROR : string := "RPC request failed".
End ERROR_MESSAGES.

(** An optional string field is kept as a [string], absent when empty: the
    code only ever tests such a field for truthiness. *)
Record IEnergyWebCredentials : Type := {
  network : option NetworkType;
  customRpcEndpoint : string;
  ewScanApiKey : string;
  didRegistryAddress : string
}.

(** [credentials.network || 'mainnet'] *)
Definition networkOf (credentials : IEnergyWebCredentials) : NetworkType :=
  match network credentials with
  | Some n => n
  | None => mainnet
  end.

(** [getNetworkConfig] *)
Definition getNetworkConfig (n : NetworkType) : NetworkConfig :=
  match n with
  | mainnet => NETWORKS.mainnet
  | volta => NETWORKS.volta
  | custom => NETWORKS.mainnet
  end.

(** [getContractAddress(network, 'didRegistry')]: both networks list the
    same registry. *)
Definition getContractAddress_didRegistry (n : NetworkType) : string :=
  match n with
  | mainnet | volta => DEFAULT_CONTRACTS.didRegistry
  | custom => DEFAULT_CONTRACTS.didRegistry
  end.

(** ** Records exchanged with the remote services *)

(** The filter object of [eth_getLogs]. *)
Record LogFilter : Type := {
  lf_fromBlock : string;
  lf_toBlock : string;
  lf_address : option string;
  lf_topics : list string
}.

Record Log : Type := {
  log_address : string;
  log_topics : list string;
  log_data : string;
  log_blockNumber : string;
  log_transactionHash : string;
  log_logIndex : string
}.

Record Transaction : Type := {
  tx_hash : string;
  tx_from : string;
  tx_to : option string;
  tx_value : string
}.

Record Block : Type := {
  block_number : string;
  block_timestamp : string;
  block_transactions : option (list Transaction)
}.

(** An item of the explorer's [/v1/logs] reply. *)
Record ScanLog : Type := {
  sl_address : string;
  sl_topics : list string;
  sl_data : string;
  sl_block_number : Z;
  sl_transaction_hash : string;
  sl_log_index : Z
}.

Record ScanReply : Type := { items : option (list ScanLog) }.

(** The request [executeEwScanRequest] hands to [httpRequest]. *)
Record ScanRequest : Type := {
  sr_url : string;
  sr_apiKey : option string;
  sr_from_block : jsnum;
  sr_to_block : jsnum;
  sr_topic : string
}.

(** ** Transport ([transport/rpcClient.ts]) *)

(** What [this.helpers.httpRequest] does: it throws (an [Error] with a
    message, or some other value), or returns the parsed body. *)
Inductive http (A : Type) : Type :=
| HttpThrows (message : option string)
| HttpBody (body : A).

Arguments HttpThrows {A} message.
Arguments HttpBody {A} body.

(** A JSON-RPC response: an [error] member, or a [result]. *)
Inductive rpcResponse (A : Type) : Type :=
| RpcError (message : string) (code : option Z)
| RpcResult (result : A).

Arguments RpcError {A} message code.
Arguments RpcResult {A} result.

(** The remote services, as seen during one poll.  Each oracle receives
    the endpoint and the parameters of the request. *)
Record World : Type := {
  dateNow : Z;
  eth_blockNumber : string -> http (rpcResponse string);
  eth_getLogs : string -> LogFilter -> http (rpcResponse (list Log));
  eth_getBlockByNumber : string -> string -> bool -> http (rpcResponse (option Block));
  ewScan : ScanRequest -> http ScanReply
}.

(** [getRpcEndpoint] *)
Definition getRpcEndpoint (credentials : IEnergyWebCredentials) : string :=
  match network credentials with
  | Some custom =>
      if Str.truthy (customRpcEndpoint credentials)
      then customRpcEndpoint credentials
      else rpcUrl NETWORKS.mainnet
  | Some mainnet => rpcUrl NETWORKS.mainnet
  | Some volta => rpcUrl NETWORKS.volta
  | None => rpcUrl NETWORKS.mainnet
  end.

(** [executeRpcRequest], given the outcome of its [httpRequest]: an [error]
    member and a transport failure both surface as a [NodeApiError].  Its
    message is the one that the function hands to the constructor, which
    belongs to n8n and may reword it. *)
Definition executeRpcRequest {A : Type} (reply : http (rpcResponse A)) : result A :=
  match reply with
  | HttpBody (RpcError m c) => Throw (NodeApiError m c)
  | HttpBody (RpcResult r) => Ok r
  | HttpThrows (Some m) => Throw (NodeApiError m None)
  | HttpThrows None => Throw (NodeApiError ERROR_MESSAGES.RPC_ERROR None)
  end.

(** [executeEwScanRequest] for the [/v1/logs] query of the trigger. *)
Definition executeEwScanRequest (w : World) (credentials : IEnergyWebCredentials)
    (endpoint : string) (from_block to_block : jsnum) (topic : string)
  : result ScanReply :=
  let baseUrl :=
    match networkOf credentials with
    | volta => "https://volta-explorer.energyweb.org/api"
    | _ => "https://explorer.energyweb.org/api"
    end in
  let request :=
    {| sr_url := baseUrl ++ endpoint;
       sr_apiKey := if Str.truthy (ewScanApiKey credentials)
                    then Some (ewScanApiKey credentials) else None;
       sr_from_block := from_block;
       sr_to_block := to_block;
       sr_topic := topic |} in
  match ewScan w request with
  | HttpBody body => Ok body
  | HttpThrows (Some m) => Throw (NodeApiError m None)
  | HttpThrows None => Throw (NodeApiError "EW Scan API request failed" None)
  end.

(** ** Node parameters and events *)

(** [TriggerType]; a value outside the six options reaches the [default]
    branch of the dispatch. *)
Inductive TriggerType : Type :=
| certificateIssued
| certificateTransferred
| didCreated
| didUpdated
| assetRegistered
| largeTransfer
| otherTrigger (value : string).

(** What [this.getNodeParameter] returns for the parameters of the node. *)
Record NodeParameters : Type := {
  triggerType : TriggerType;
  filterAddress : string;
  transferThreshold : Q;
  lookbackBlocks : Z;
  certificateContract : string
}.

Definition withFilterAddress (p : NodeParameters) (a : string) : NodeParameters :=
  {| triggerType := triggerType p;
     filterAddress := a;
     transferThreshold := transferThreshold p;
     lookbackBlocks := lookbackBlocks p;
     certificateContract := certificateContract p |}.

(** The parameters with no filter address. *)
Definition unfiltered (p : NodeParameters) : NodeParameters :=
  withFilterAddress p EmptyString.

(** The [json] member of an emitted item, one constructor per [eventType]. *)
Inductive Event : Type :=
| CertificateIssued (certificateId to contractAddress : string)
    (blockNumber : jsnum) (transactionHash : string) (logIndex : jsnum)
    (network : string) (timestamp : Z)
| CertificateTransferred (from to contractAddress : string)
    (blockNumber : jsnum) (transactionHash : string) (logIndex : jsnum)
    (network : string) (timestamp : Z)
| DidCreated (did identity owner : string)
    (blockNumber : jsnum) (transactionHash : string) (logIndex : jsnum)
    (network : string) (timestamp : Z)
| DidUpdated (did identity : string)
    (blockNumber : jsnum) (transactionHash : string) (logIndex : jsnum)
    (network : string) (timestamp : Z)
| AssetRegistered (owner contractAddress : string)
    (blockNumber : Z) (transactionHash : string) (logIndex : Z)
    (network : string) (timestamp : Z)
| LargeTransfer (from : string) (to : option string) (value valueEwt : string)
    (threshold : Q) (blockNumber : jsnum) (transactionHash : string)
    (network : string) (timestamp : jsnum).

(** [(event.json as IDataObject).transactionHash] *)
Definition transactionHash (e : Event) : string :=
  match e with
  | CertificateIssued _ _ _ _ h _ _ _ => h
  | CertificateTransferred _ _ _ _ h _ _ _ => h
  | DidCreated _ _ _ _ h _ _ _ => h
  | DidUpdated _ _ _ h _ _ _ => h
  | AssetRegistered _ _ _ h _ _ _ => h
  | LargeTransfer _ _ _ _ _ _ h _ _ => h
  end.

(** [n.toString()] for a number (the exponent form of large doubles is
    left out). *)
Definition numberToString (n : jsnum) : string :=
  match n with
  | JInt z => bigintToString z
  | JNaN => "NaN"
  end.

(** ** Event decoders *)

(** The loop [for (const x of xs) { ...; continue; ...; events.push(e) }]:
    the body either skips [x] or pushes one event. *)
Fixpoint collect {A B : Type} (body : A -> option B) (xs : list A) : list B :=
  match xs with
  | [] => []
  | x :: r =>
      match body x with
      | Some e => e :: collect body r
      | None => collect body r
      end
  end.

(** [topics[i] ? '0x' + topics[i].slice(-40) : 'unknown'] *)
Definition topicAddress (topics : list string) (i : nat) : string :=
  match nth_error topics i with
  | Some t => if Str.truthy t then "0x" ++ Str.sliceLast 40 t else "unknown"
  | None => "unknown"
  end.

(** The guard [filterAddress && isValidAddress(filterAddress)] *)
Definition filterActive (filterAddress : string) : bool :=
  (Str.truthy filterAddress && isValidAddress filterAddress)%bool.

(** [a.toLowerCase() !== b.toLowerCase()] *)
Definition differsIgnoringCase (a b : string) : bool :=
  negb (String.eqb (Str.toLowerCase a) (Str.toLowerCase b)).

(** [certificateContract || undefined] *)
Definition contractScope (certificateContract : string) : option string :=
  if Str.truthy certificateContract then Some certificateContract else None.

Section Decoders.

Variable w : World.
Variable credentials : IEnergyWebCredentials.
Variable params : NodeParameters.

(** *** certificateIssued *)

Definition certificateIssuedTopic : string :=
  "0x" ++ Str.slice 0 64 (Str.padEnd 64 "0" "CertificateIssued").

(** The filter object handed to [eth_getLogs]. *)
Definition certificateIssuedFilter (fromBlock toBlock : jsnum) : LogFilter :=
  {| lf_fromBlock := numberToHex fromBlock;
     lf_toBlock := numberToHex toBlock;
     lf_address := contractScope (certificateContract params);
     lf_topics := [certificateIssuedTopic] |}.

Definition certificateIssuedOfLog (log : Log) : option Event :=
  let certificateId :=
    match nth_error (log_topics log) 1 with
    | Some t => if Str.truthy t then numberToString (hexToNumber t) else "unknown"
    | None => "unknown"
    end in
  let toAddress := topicAddress (log_topics log) 2 in
  if (filterActive (filterAddress params)
      && differsIgnoringCase toAddress (filterAddress params))%bool
  then None
  else Some (CertificateIssued certificateId toAddress (log_address log)
               (hexToNumber (log_blockNumber log)) (log_transactionHash log)
               (hexToNumber (log_logIndex log))
               (name (getNetworkConfig (networkOf credentials))) (dateNow w)).

Definition pollCertificateIssued (fromBlock toBlock : jsnum) : result (list Event) :=
  let? logs := executeRpcRequest
                 (eth_getLogs w (getRpcEndpoint credentials)
                    (certificateIssuedFilter fromBlock toBlock)) in
  Ok (collect certificateIssuedOfLog logs).

(** *** certificateTransferred *)

Definition certificateTransferredTopic : string :=
  "0xc3d58168c5ae7397731d063d5bbf3d657854427343f4c083240f7aacaa2d0f62".

Definition certificateTransferredFilter (fromBlock toBlock : jsnum) : LogFilter :=
  {| lf_fromBlock := numberToHex fromBlock;
     lf_toBlock := numberToHex toBlock;
     lf_address := contractScope (certificateContract params);
     lf_topics := [certificateTransferredTopic] |}.

Definition certificateTransferredOfLog (log : Log) : option Event :=
  let from := topicAddress (log_topics log) 2 in
  let to := topicAddress (log_topics log) 3 in
  if (filterActive (filterAddress params)
      && (differsIgnoringCase from (filterAddress params)
          && differsIgnoringCase to (filterAddress params)))%bool
  then None
  else Some (CertificateTransferred from to (log_address log)
               (hexToNumber (log_blockNumber log)) (log_transactionHash log)
               (hexToNumber (log_logIndex log))
               (name (getNetworkConfig (networkOf credentials))) (dateNow w)).

Definition pollCertificateTransferred (fromBlock toBlock : jsnum)
  : result (list Event) :=
  let? logs := executeRpcRequest
                 (eth_getLogs w (getRpcEndpoint credentials)
                    (certificateTransferredFilter fromBlock toBlock)) in
  Ok (collect certificateTransferredOfLog logs).

(** *** didCreated and didUpdated *)

(** [credentials.didRegistryAddress || getContractAddress(network, 'didRegistry')] *)
Definition didRegistry : string :=
  Str.orElse (didRegistryAddress credentials)
    (getContractAddress_didRegistry (networkOf credentials)).

(** [`did:ethr:${network === 'volta' ? 'volta' : 'ewc'}:${identity}`] *)
Definition didOf (identity : string) : string :=
  "did:ethr:" ++
  match networkOf credentials with volta => "volta" | _ => "ewc" end
  ++ ":" ++ identity.

Definition didCreatedTopic : string :=
  "0x38a5a6e68f30ed1ab45860a4afb34bcb2fc00f22ca462d249b8a8d40cda6f7a3".

Definition didCreatedFilter (fromBlock toBlock : jsnum) : LogFilter :=
  {| lf_fromBlock := numberToHex fromBlock;
     lf_toBlock := numberToHex toBlock;
     lf_address := Some didRegistry;
     lf_topics := [didCreatedTopic] |}.

Definition didCreatedOfLog (log : Log) : option Event :=
  let identity := topicAddress (log_topics log) 1 in
  let owner :=
    if Str.truthy (log_data log) then "0x" ++ Str.slice 26 66 (log_data log)
    else "unknown" in
  if differsIgnoringCase identity owner then None
  else if (filterActive (filterAddress params)
           && differsIgnoringCase identity (filterAddress params))%bool
  then None
  else Some (DidCreated (didOf identity) identity owner
               (hexToNumber (log_blockNumber log)) (log_transactionHash log)
               (hexToNumber (log_logIndex log))
               (name (getNetworkConfig (networkOf credentials))) (dateNow w)).

Definition pollDIDCreated (fromBlock toBlock : jsnum) : result (list Event) :=
  let? logs := executeRpcRequest
                 (eth_getLogs w (getRpcEndpoint credentials)
                    (didCreatedFilter fromBlock toBlock)) in
  Ok (collect didCreatedOfLog logs).

Definition didUpdatedTopic : string :=
  "0x18ab6b2ae3d64571f0c9f8c5e2b72f3a23bfa3773b1c3c4e5d3e2fd0e3e1c4b2".

Definition didUpdatedFilter (fromBlock toBlock : jsnum) : LogFilter :=
  {| lf_fromBlock := numberToHex fromBlock;
     lf_toBlock := numberToHex toBlock;
     lf_address := Some didRegistry;
     lf_topics := [didUpdatedTopic] |}.

Definition didUpdatedOfLog (log : Log) : option Event :=
  let identity := topicAddress (log_topics log) 1 in
  if (filterActive (filterAddress params)
      && differsIgnoringCase identity (filterAddress params))%bool
  then None
  else Some (DidUpdated (didOf identity) identity
               (hexToNumber (log_blockNumber log)) (log_transactionHash log)
               (hexToNumber (log_logIndex log))
               (name (getNetworkConfig (networkOf credentials))) (dateNow w)).

Definition pollDIDUpdated (fromBlock toBlock : jsnum) : result (list Event) :=
  let? logs := executeRpcRequest
                 (eth_getLogs w (getRpcEndpoint credentials)
                    (didUpdatedFilter fromBlock toBlock)) in
  Ok (collect didUpdatedOfLog logs).

(** *** assetRegistered *)

Definition assetRegisteredOfLog (log : ScanLog) : option Event :=
  let owner := topicAddress (sl_topics log) 1 in
  if (filterActive (filterAddress params)
      && differsIgnoringCase owner (filterAddress params))%bool
  then None
  else Some (AssetRegistered owner (sl_address log) (sl_block_number log)
               (sl_transaction_hash log) (sl_log_index log)
               (name (getNetworkConfig (networkOf credentials))) (dateNow w)).

(** The whole body sits in a [try] whose [catch] returns [[]]. *)
Definition pollAssetRegistered (fromBlock toBlock : jsnum) : result (list Event) :=
  tryCatch
    (let? response := executeEwScanRequest w credentials "/v1/logs"
                        fromBlock toBlock "AssetRegistered" in
     let logs := match items response with Some l => l | None => [] end in
     Ok (collect assetRegisteredOfLog logs))
    (fun _ => Ok []).

End Decoders.

(** ** State that survives an exception

    [M S A]: a computation over a mutable object of type [S] (the [events]
    array of a decoder, the workflow static data of the node) that returns
    an [A] or throws, and leaves the object as it was at that moment. *)

Definition M (S A : Type) : Type := S -> result A * S.

Definition mret {S A : Type} (a : A) : M S A := fun s => (Ok a, s).

Definition mbind {S A B : Type} (m : M S A) (k : A -> M S B) : M S B :=
  fun s =>
    match m s with
    | (Ok a, s') => k a s'
    | (Throw e, s') => (Throw e, s')
    end.

Definition mthrow {S A : Type} (e : exn) : M S A := fun s => (Throw e, s).

Definition lift {S A : Type} (r : result A) : M S A := fun s => (r, s).

Definition mget {S : Type} : M S S := fun s => (Ok s, s).

Definition mmodify {S : Type} (f : S -> S) : M S unit := fun s => (Ok tt, f s).

(** [try { body } catch (error) { handler(error) }] *)
Definition mtry {S A : Type} (body : M S A) (handler : exn -> M S A) : M S A :=
  fun s =>
    match body s with
    | (Ok a, s') => (Ok a, s')
    | (Throw e, s') => handler e s'
    end.

Declare Scope m_scope.
Delimit Scope m_scope with M.
Notation "'do' x '<-' m ';' k" := (mbind m (fun x => k))
  (at level 10, x pattern, m at level 100, k at level 200) : m_scope.
Notation "m ';;' k" := (mbind m (fun _ => k))
  (at level 61, right associativity) : m_scope.

(** [for (const x of xs) body(x)] *)
Fixpoint forOf {S A : Type} (xs : list A) (body : A -> M S unit) : M S unit :=
  match xs with
  | [] => mret tt
  | x :: r => (body x ;; forOf r body)%M
  end.

(** [for (let i = lo; i <= hi; i += step) body(i)] on integers. *)
Equations? forUpTo {S : Type} (step : positive) (hi : Z) (body : Z -> M S unit)
    (i : Z) (s : S) : result unit * S by wf (Z.to_nat (hi + 1 - i)) lt :=
  forUpTo step hi body i s with Z_le_dec i hi := {
    | left _ =>
        match body i s with
        | (Ok _, s') => forUpTo step hi body (i + Zpos step) s'
        | (Throw e, s') => (Throw e, s')
        end
    | right _ => (Ok tt, s) }.
Proof. lia. Qed.

(** *** largeTransfer *)

Section LargeTransfer.

Variable w : World.
Variable credentials : IEnergyWebCredentials.
Variable params : NodeParameters.

Definition batchSize : positive := 10%positive.

(** [BigInt(threshold) * BigInt(10 ** 18)] *)
Definition thresholdWeiOf (threshold : Q) : result Z :=
  let? t := BigInt_of_number threshold in
  let? scale := BigInt_of_number ten_pow_18 in
  Ok (t * scale).

(** [tx.to?.toLowerCase() || ''] *)
Definition toLowerOrEmpty (to : option string) : string :=
  match to with
  | Some t => Str.toLowerCase t
  | None => EmptyString
  end.

(** The body of [for (const tx of blockData.transactions)]. *)
Definition largeTransferOfTx (thresholdWei : Z) (blockData : Block)
    (tx : Transaction) : M (list Event) unit :=
  (do value <- lift (BigInt_of_string (Str.orElse (tx_value tx) "0"));
   if value <? thresholdWei then mret tt
   else if (filterActive (filterAddress params)
            && (differsIgnoringCase (tx_from tx) (filterAddress params)
                && negb (String.eqb (toLowerOrEmpty (tx_to tx))
                           (Str.toLowerCase (filterAddress params)))))%bool
   then mret tt
   else
     do valueUnits <- lift (weiToUnits (bigintToString value));
     mmodify (fun events =>
       events ++ [LargeTransfer (tx_from tx) (tx_to tx) (bigintToString value)
                    (uc_ewt valueUnits) (transferThreshold params)
                    (hexToNumber (block_number blockData)) (tx_hash tx)
                    (name (getNetworkConfig (networkOf credentials)))
                    (Num.mul (hexToNumber (block_timestamp blockData)) (JInt 1000))])%list)%M.

(** The body of [for (let b = block; b <= endBlock; b++)]: whatever is
    thrown while block [b] is processed is swallowed, the events pushed
    before that stay. *)
Definition largeTransferOfBlock (thresholdWei : Z) (b : Z) : M (list Event) unit :=
  mtry
    (do blockData <- lift (executeRpcRequest
                             (eth_getBlockByNumber w (getRpcEndpoint credentials)
                                (numberToHex (JInt b)) true));
     match blockData with
     | None => mret tt
     | Some blockData =>
         match block_transactions blockData with
         | None => mret tt
         | Some txs => forOf txs (largeTransferOfTx thresholdWei blockData)
         end
     end)%M
    (fun _ => mret tt).

Definition pollLargeTransfer (fromBlock toBlock : jsnum) : result (list Event) :=
  let? thresholdWei := thresholdWeiOf (transferThreshold params) in
  let scan : M (list Event) unit :=
    match fromBlock, toBlock with
    | JInt lo, JInt hi =>
        forUpTo batchSize hi
          (fun block =>
             let endBlock := Z.min (block + Zpos batchSize - 1) hi in
             forUpTo 1%positive endBlock (largeTransferOfBlock thresholdWei) block)
          lo
    | _, _ => mret tt
    end in
  match scan [] with
  | (Ok _, events) => Ok events
  | (Throw e, _) => Throw e
  end.

End LargeTransfer.

(** ** The poll cursor and the orchestrator *)

(** The workflow static data of the node: an object on which the three
    members of the cursor may be missing. *)
Record IDataObject : Type := {
  sd_lastBlockNumber : option jsnum;
  sd_lastTimestamp : option Z;
  sd_processedTxHashes : option (list string)
}.

Record IPollState : Type := {
  lastBlockNumber : jsnum;
  lastTimestamp : Z;
  processedTxHashes : list string
}.

(** The object a trigger starts from. *)
Definition emptyStaticData : IDataObject :=
  {| sd_lastBlockNumber := None;
     sd_lastTimestamp := None;
     sd_processedTxHashes := None |}.

(** "Get poll state": each member read with its [|| 0] or [|| []]. *)
Definition pollStateOf (workflowStaticData : IDataObject) : IPollState :=
  {| lastBlockNumber :=
       match sd_lastBlockNumber workflowStaticData with
       | Some n => Num.orElse n (JInt 0)
       | None => JInt 0
       end;
     lastTimestamp :=
       match sd_lastTimestamp workflowStaticData with
       | Some t => t
       | None => 0
       end;
     processedTxHashes :=
       match sd_processedTxHashes workflowStaticData with
       | Some l => l
       | None => []
       end |}.

Definition set_lastBlockNumber (n : jsnum) (d : IDataObject) : IDataObject :=
  {| sd_lastBlockNumber := Some n;
     sd_lastTimestamp := sd_lastTimestamp d;
     sd_processedTxHashes := sd_processedTxHashes d |}.

Definition set_lastTimestamp (t : Z) (d : IDataObject) : IDataObject :=
  {| sd_lastBlockNumber := sd_lastBlockNumber d;
     sd_lastTimestamp := Some t;
     sd_processedTxHashes := sd_processedTxHashes d |}.

Definition set_processedTxHashes (l : list string) (d : IDataObject) : IDataObject :=
  {| sd_lastBlockNumber := sd_lastBlockNumber d;
     sd_lastTimestamp := sd_lastTimestamp d;
     sd_processedTxHashes := Some l |}.

(** [xs.includes(x)] on strings *)
Definition includes (xs : list string) (x : string) : bool :=
  existsb (String.eqb x) xs.

(** [xs.slice(-n)] *)
Definition sliceLast {A : Type} (n : nat) (xs : list A) : list A :=
  skipn (List.length xs - n) xs.

Section Poll.

Variable w : World.
Variable credentials : IEnergyWebCredentials.
Variable params : NodeParameters.

(** "Calculate from block" *)
Definition fromBlockOf (pollState : IPollState) (currentBlock : jsnum) : jsnum :=
  if Num.isZero (lastBlockNumber pollState)
  then Num.max (JInt 0) (Num.sub currentBlock (JInt (lookbackBlocks params)))
  else Num.add (lastBlockNumber pollState) (JInt 1).

(** "Execute the appropriate poll function based on trigger type" *)
Definition dispatch (fromBlock currentBlock : jsnum) : result (list Event) :=
  match triggerType params with
  | certificateIssued => pollCertificateIssued w credentials params fromBlock currentBlock
  | certificateTransferred =>
      pollCertificateTransferred w credentials params fromBlock currentBlock
  | didCreated => pollDIDCreated w credentials params fromBlock currentBlock
  | didUpdated => pollDIDUpdated w credentials params fromBlock currentBlock
  | assetRegistered => pollAssetRegistered w credentials params fromBlock currentBlock
  | largeTransfer => pollLargeTransfer w credentials params fromBlock currentBlock
  | otherTrigger v => Throw (NodeOperationError ("Unknown trigger type: " ++ v))
  end.

(** The filter object that the decoder of the requested kind hands to
    [eth_getLogs]; the explorer-based and the block-scanning decoders
    query no logs. *)
Definition logFilterOf (fromBlock currentBlock : jsnum) : option LogFilter :=
  match triggerType params with
  | certificateIssued => Some (certificateIssuedFilter params fromBlock currentBlock)
  | certificateTransferred =>
      Some (certificateTransferredFilter params fromBlock currentBlock)
  | didCreated => Some (didCreatedFilter credentials fromBlock currentBlock)
  | didUpdated => Some (didUpdatedFilter credentials fromBlock currentBlock)
  | assetRegistered | largeTransfer | otherTrigger _ => None
  end.

(** "Filter out already processed events" *)
Definition dropProcessed (pollState : IPollState) (events : list Event) : list Event :=
  filter (fun event => negb (includes (processedTxHashes pollState) (transactionHash event)))
    events.

(** The hashes stored by "Update poll state". *)
Definition hashesToKeep (newEvents : list Event) : list string :=
  sliceLast 1000 (filter Str.truthy (map transactionHash newEvents)).

(** What follows the decoder: deduplication, the three writes to the static
    data, and the value returned. *)
Definition commit (pollState : IPollState) (currentBlock : jsnum)
    (events : list Event) : M IDataObject (option (list (list Event))) :=
  (let newEvents := dropProcessed pollState events in
   mmodify (set_lastBlockNumber currentBlock) ;;
   mmodify (set_lastTimestamp (dateNow w)) ;;
   mmodify (set_processedTxHashes (hashesToKeep newEvents)) ;;
   if Nat.eqb (List.length newEvents) 0 then mret None
   else mret (Some [newEvents]))%M.

(** The error thrown by the [catch] of [poll]. *)
Definition abortOf (error : exn) : exn :=
  NodeOperationError ("Poll failed: " ++ message_of error).

(** [EnergyWebTrigger.poll].  The licensing notice logged on the first
    call, and the reading of the credentials and of the parameters, which
    are arguments here, come before the [try]. *)
Definition poll : M IDataObject (option (list (list Event))) :=
  (do workflowStaticData <- mget;
   let pollState := pollStateOf workflowStaticData in
   mtry
     (do currentBlockHex <- lift (executeRpcRequest
                                    (eth_blockNumber w (getRpcEndpoint credentials)));
      let currentBlock := hexToNumber currentBlockHex in
      let fromBlock := fromBlockOf pollState currentBlock in
      if Num.gt fromBlock currentBlock then mret None
      else
        do events <- lift (dispatch fromBlock currentBlock);
        commit pollState currentBlock events)
     (fun error => mthrow (abortOf error)))%M.

End Poll.

(** ** The other helpers of [helpers.ts] *)

(** [s.split(c)] for a one-character separator: never empty, [['']] for
    the empty string. *)
Fixpoint splitOn (sep : ascii) (s : string) : list string :=
  match s with
  | EmptyString => [EmptyString]
  | String c r =>
      if Ascii.eqb c sep then EmptyString :: splitOn sep r
      else
        match splitOn sep r with
        | h :: t => String c h :: t
        | [] => [String c EmptyString]
        end
  end.

(** What follows [p] in [s] when [s.startsWith(p)]. *)
Fixpoint afterPrefix (p s : string) : option string :=
  match p, s with
  | EmptyString, _ => Some s
  | String a p', String b s' => if Ascii.eqb a b then afterPrefix p' s' else None
  | String _ _, EmptyString => None
  end.

(** [s.startsWith(p)] *)
Definition startsWith (p s : string) : bool :=
  match afterPrefix p s with Some _ => true | None => false end.

(** [s.slice(n)] for [n >= 0] *)
Definition sliceFrom (n : nat) (s : string) : string :=
  substring n (String.length s - n) s.

(** [isValidDID], the test of [/^did:ethr:(ewc|volta):0x[a-fA-F0-9]{40}$/]. *)
Definition isValidDID (did : string) : bool :=
  match afterPrefix "did:ethr:ewc:" did with
  | Some address => isValidAddress address
  | None =>
      match afterPrefix "did:ethr:volta:" did with
      | Some address => isValidAddress address
      | None => false
      end
  end.

Module DID.
Definition DID_METHOD : string := "did:ethr:ewc".
Definition DID_METHOD_VOLTA : string := "did:ethr:volta".
Definition INVALID_ADDRESS : string := "Invalid Ethereum address format".
Definition INVALID_DID_FORMAT : string := "Invalid DID format".
End DID.

(** A helper that throws does so with a plain [Error]. *)
Inductive outcome (A : Type) : Type :=
| Done (a : A)
| Raised (message : string).

Arguments Done {A} a.
Arguments Raised {A} message.

Record IEncodedDID : Type := {
  did : string;
  method : string;
  identifier : string
}.

(** [encodeDID] *)
Definition encodeDID (address : string) (net : NetworkType) : outcome IEncodedDID :=
  if negb (isValidAddress address) then Raised DID.INVALID_ADDRESS
  else
    let method := match net with volta => DID.DID_METHOD_VOLTA | _ => DID.DID_METHOD end in
    let did := method ++ ":" ++ Str.toLowerCase address in
    Done {| did := did;
            method := String.concat ":" (firstn 2 (splitOn ":" method));
            identifier := Str.toLowerCase address |}.

(** The object returned by [decodeDID]: [parts[2]] and [parts[3]]. *)
Record DecodedDID : Type := {
  dd_network : option string;
  dd_address : option string
}.

(** [decodeDID] *)
Definition decodeDID (did : string) : outcome DecodedDID :=
  if negb (isValidDID did) then Raised DID.INVALID_DID_FORMAT
  else
    let parts := splitOn ":" did in
    Done {| dd_network := nth_error parts 2; dd_address := nth_error parts 3 |}.

(** [formatAddress] *)
Definition formatAddress (address : string) : string :=
  if negb (isValidAddress address) then address else Str.toLowerCase address.

(** [ewtToWei] *)
Definition ewtToWei (ewt : string) : result string :=
  let parts := splitOn "." ewt in
  let whole :=
    match nth_error parts 0 with Some x => Str.orElse x "0" | None => "0" end in
  let decimals :=
    match nth_error parts 1 with Some x => x | None => EmptyString end in
  let decimals := Str.slice 0 18 (Str.padEnd 18 "0" decimals) in
  let? w := BigInt_of_string whole in
  let? unit := BigInt_of_string WEI_UNITS.ewt in
  let? d := BigInt_of_string decimals in
  Ok (bigintToString (w * unit + d)).

(** [gweiToWei] *)
Definition gweiToWei (gwei : string) : result string :=
  let parts := splitOn "." gwei in
  let whole :=
    match nth_error parts 0 with Some x => Str.orElse x "0" | None => "0" end in
  let decimals :=
    match nth_error parts 1 with Some x => x | None => EmptyString end in
  let decimals := Str.slice 0 9 (Str.padEnd 9 "0" decimals) in
  let? w := BigInt_of_string whole in
  let? unit := BigInt_of_string WEI_UNITS.gwei in
  let? d := BigInt_of_string decimals in
  Ok (bigintToString (w * unit + d)).

(** The units of [unitsToWei]. *)
Inductive Unit : Type := unit_wei | unit_gwei | unit_ewt.

(** [unitsToWei]: an amount in wei is returned as it is. *)
Definition unitsToWei (amount : string) (unit : Unit) : result string :=
  match unit with
  | unit_wei => Ok amount
  | unit_gwei => gweiToWei amount
  | unit_ewt => ewtToWei amount
  end.

(** [hexToBigInt] and [bigIntToHex] *)
Definition hexToBigInt (hex : string) : result Z := BigInt_of_string hex.

Definition bigIntToHex (num : Z) : string := "0x" ++ toString16 (JInt num).

(** [padHex] *)
Definition padHex (hex : string) (length : Z) : string :=
  let cleanHex := if startsWith "0x" hex then sliceFrom 2 hex else hex in
  "0x" ++ Str.padStart (Z.to_nat (length * 2)) "0" cleanHex.

(** ** Batches of requests ([transport/rpcClient.ts]) *)

(** One entry of the body of a batch. *)
Record IJsonRpcRequest (P : Type) : Type := {
  rq_method : string;
  rq_params : P;
  rq_id : Z
}.

Arguments rq_method {P} _.
Arguments rq_params {P} _.
Arguments rq_id {P} _.

(** [requests.map((req) => ({ ..., id: rpcRequestId++ }))] over the
    module-level counter [rpcRequestId]. *)
Fixpoint batchBody {P : Type} (requests : list (string * P))
  : M Z (list (IJsonRpcRequest P)) :=
  match requests with
  | [] => mret []
  | (m, ps) :: r =>
      (do id <- mget;
       mmodify (fun n => n + 1) ;;
       do rest <- batchBody r;
       mret ({| rq_method := m; rq_params := ps; rq_id := id |} :: rest))%M
  end.

(** [responses.map((response, index) => ...)] of [executeBatchRpcRequest]:
    the first response with an [error] member throws. *)
Fixpoint batchResults {A : Type} (index : Z) (responses : list (rpcResponse A))
  : result (list A) :=
  match responses with
  | [] => Ok []
  | RpcError m _ :: _ =>
      Throw (NodeApiError
               ("Batch request " ++ numberToString (JInt index) ++ " failed: " ++ m)
               None)
  | RpcResult r :: rest =>
      let? rs := batchResults (index + 1) rest in Ok (r :: rs)
  end.

(** [executeBatchRpcRequest], given the outcome of its [httpRequest]. *)
Definition executeBatchRpcRequest {A : Type} (reply : http (list (rpcResponse A)))
  : result (list A) :=
  match reply with
  | HttpBody responses => batchResults 0 responses
  | HttpThrows (Some m) => Throw (NodeApiError m None)
  | HttpThrows None => Throw (NodeApiError ERROR_MESSAGES.RPC_ERROR None)
  end.

(** ** [retry] *)

(** How a call of [retry] ends: with the value of an attempt, or by
    throwing [lastError], which is still [undefined] when no attempt was
    made. *)
Inductive settled (A : Type) : Type :=
| Resolved (a : A)
| Rejected (lastError : option exn).

Arguments Resolved {A} a.
Arguments Rejected {A} lastError.

(** The loop of [retry] from iteration [i] on, [n] iterations being left;
    [fn] acts on a state of its own and [sleep] takes its time there. *)
Fixpoint retryLoop {S A : Type} (fn : M S A) (sleep : Z -> S -> S)
    (maxRetries delayMs : Z) (n : nat) (i : Z) (lastError : option exn) (s : S)
  : settled A * S :=
  match n with
  | O => (Rejected lastError, s)
  | Datatypes.S n' =>
      match fn s with
      | (Ok a, s') => (Resolved a, s')
      | (Throw e, s') =>
          let s'' :=
            if i <? maxRetries - 1 then sleep (delayMs * (i + 1)) s' else s' in
          retryLoop fn sleep maxRetries delayMs n' (i + 1) (Some e) s''
      end
  end.

(** [retry] *)
Definition retry {S A : Type} (fn : M S A) (sleep : Z -> S -> S)
    (maxRetries delayMs : Z) (s : S) : settled A * S :=
  retryLoop fn sleep maxRetries delayMs (Z.to_nat maxRetries) 0 None s.

(** ** Auxiliary notions for the properties *)

(** Value of a decimal numeral read left to right from an accumulator. *)
Fixpoint decimalValue (d : Decimal.uint) (acc : Z) : Z :=
  match d with
  | Decimal.Nil => acc
  | Decimal.D0 l => decimalValue l (acc * 10)
  | Decimal.D1 l => decimalValue l (acc * 10 + 1)
  | Decimal.D2 l => decimalValue l (acc * 10 + 2)
  | Decimal.D3 l => decimalValue l (acc * 10 + 3)
  | Decimal.D4 l => decimalValue l (acc * 10 + 4)
  | Decimal.D5 l => decimalValue l (acc * 10 + 5)
  | Decimal.D6 l => decimalValue l (acc * 10 + 6)
  | Decimal.D7 l => decimalValue l (acc * 10 + 7)
  | Decimal.D8 l => decimalValue l (acc * 10 + 8)
  | Decimal.D9 l => decimalValue l (acc * 10 + 9)
  end.

Definition isNil (d : Decimal.uint) : bool :=
  match d with Decimal.Nil => true | _ => false end.

Definition isDecimalDigit (c : ascii) : bool := isDigitOf 10 c.

Definition notSpace (c : ascii) : bool := negb (Str.isSpace c).

(** The [n] consecutive integers from [lo] on, and the integers from [lo]
    to [hi]. *)
Fixpoint zrangeFrom (lo : Z) (n : nat) : list Z :=
  match n with
  | O => []
  | S k => lo :: zrangeFrom (lo + 1) k
  end.

Definition zrange (lo hi : Z) : list Z := zrangeFrom lo (Z.to_nat (hi + 1 - lo)).

(** [a.toLowerCase() === b.toLowerCase()] as a proposition. *)
Definition sameIgnoringCase (a b : string) : Prop :=
  Str.toLowerCase a = Str.toLowerCase b.

(** The item pushed for a transaction of value [v] found in [blockData]. *)
Definition largeTransferEvent (credentials : IEnergyWebCredentials)
    (params : NodeParameters) (blockData : Block) (tx : Transaction) (v : Z)
  : Event :=
  LargeTransfer (tx_from tx) (tx_to tx) (bigintToString v) (formatEwt v (10 ^ 18))
    (transferThreshold params) (hexToNumber (block_number blockData)) (tx_hash tx)
    (name (getNetworkConfig (networkOf credentials)))
    (Num.mul (hexToNumber (block_timestamp blockData)) (JInt 1000)).

(** A transaction passes the address filter of the block scan: there is no
    active filter, or its sender or its recipient is the filter address up
    to case. *)
Definition passesTransferFilter (filterAddress : string) (tx : Transaction) : Prop :=
  filterActive filterAddress = false \/
  sameIgnoringCase (tx_from tx) filterAddress \/
  toLowerOrEmpty (tx_to tx) = Str.toLowerCase filterAddress.

(** A large-transfer item whose [value] member renders an integer that is
    at least [cutoff]. *)
Definition transfersAtLeast (cutoff : Z) (e : Event) : Prop :=
  match e with
  | LargeTransfer _ _ value _ _ _ _ _ _ =>
      exists v, value = bigintToString v /\ cutoff <= v
  | _ => False
  end.

(** [BigInt(tx.value || '0')] does not throw. *)
Definition valueParses (tx : Transaction) : Prop :=
  isThrow (BigInt_of_string (Str.orElse (tx_value tx) "0")) = false.

(** [l1] is [l2] with some elements left out, the others in their order. *)
Inductive Subseq {A : Type} : list A -> list A -> Prop :=
| Subseq_nil : Subseq [] []
| Subseq_skip x l1 l2 : Subseq l1 l2 -> Subseq l1 (x :: l2)
| Subseq_take x l1 l2 : Subseq l1 l2 -> Subseq (x :: l1) (x :: l2).

(** The items that the scan of block [b] pushes onto an empty array. *)
Definition blockTransfers (w : World) (credentials : IEnergyWebCredentials)
    (params : NodeParameters) (thresholdWei : Z) (b : Z) : list Event :=
  snd (largeTransferOfBlock w credentials params thresholdWei b []).

(** The identity and the owner that [pollDIDCreated] reads in a log are
    equal up to case: the log is taken for the creation of an identity. *)
Definition selfOwned (log : Log) : bool :=
  negb (differsIgnoringCase
          (topicAddress (log_topics log) 1)
          (if Str.truthy (log_data log) then "0x" ++ Str.slice 26 66 (log_data log)
           else "unknown")).

(** The logs of an explorer reply: [response.items || []]. *)
Definition itemsOf (response : ScanReply) : list ScanLog :=
  match items response with Some l => l | None => [] end.

(** Value of a hexadecimal numeral read left to right from an accumulator. *)
Fixpoint hexValue (d : Hexadecimal.uint) (acc : Z) : Z :=
  match d with
  | Hexadecimal.Nil => acc
  | Hexadecimal.D0 l => hexValue l (acc * 16)
  | Hexadecimal.D1 l => hexValue l (acc * 16 + 1)
  | Hexadecimal.D2 l => hexValue l (acc * 16 + 2)
  | Hexadecimal.D3 l => hexValue l (acc * 16 + 3)
  | Hexadecimal.D4 l => hexValue l (acc * 16 + 4)
  | Hexadecimal.D5 l => hexValue l (acc * 16 + 5)
  | Hexadecimal.D6 l => hexValue l (acc * 16 + 6)
  | Hexadecimal.D7 l => hexValue l (acc * 16 + 7)
  | Hexadecimal.D8 l => hexValue l (acc * 16 + 8)
  | Hexadecimal.D9 l => hexValue l (acc * 16 + 9)
  | Hexadecimal.Da l => hexValue l (acc * 16 + 10)
  | Hexadecimal.Db l => hexValue l (acc * 16 + 11)
  | Hexadecimal.Dc l => hexValue l (acc * 16 + 12)
  | Hexadecimal.Dd l => hexValue l (acc * 16 + 13)
  | Hexadecimal.De l => hexValue l (acc * 16 + 14)
  | Hexadecimal.Df l => hexValue l (acc * 16 + 15)
  end.

Definition isHexNil (d : Hexadecimal.uint) : bool :=
  match d with Hexadecimal.Nil => true | _ => false end.

(** Value of a string of decimal digits read left to right from an
    accumulator; [digitsValue s 0] is the number that [s] writes. *)
Fixpoint digitsValue (s : string) (acc : Z) : Z :=
  match s with
  | EmptyString => acc
  | String c r =>
      digitsValue r (acc * 10 + match digitValue c with Some d => d | None => 0 end)
  end.

(** An operation observed from outside: the number of times it was called
    and the delays slept in between; its [k]-th call ends as [attempt k]. *)
Record Observed : Type := {
  ob_calls : nat;
  ob_sleeps : list Z
}.

Definition observedFn {A : Type} (attempt : nat -> result A) : M Observed A :=
  fun s => (attempt (ob_calls s),
            {| ob_calls := Datatypes.S (ob_calls s); ob_sleeps := ob_sleeps s |}).

Definition observedSleep (ms : Z) (s : Observed) : Observed :=
  {| ob_calls := ob_calls s; ob_sleeps := (ob_sleeps s ++ [ms])%list |}.

Definition unobserved : Observed := {| ob_calls := 0; ob_sleeps := [] |}.

(** The delays [delayMs * 1, ..., delayMs * k]. *)
Definition delays (delayMs : Z) (from k : nat) : list Z :=
  map (fun j => delayMs * (Z.of_nat j + 1)) (seq from k).

(** ** Concrete scenarios

    Small worlds on which the development is run: a chain at a given
    height that serves a fixed list of logs, blocks or explorer items. *)

Module Scenario.

Definition credentials : IEnergyWebCredentials :=
  {| network := Some volta;
     customRpcEndpoint := EmptyString;
     ewScanApiKey := EmptyString;
     didRegistryAddress := EmptyString |}.

Definition parameters (kind : TriggerType) (filter : string) : NodeParameters :=
  {| triggerType := kind;
     filterAddress := filter;
     transferThreshold := inject_Z 100;
     lookbackBlocks := 100;
     certificateContract := EmptyString |}.

Definition addressAA : string := "0xAAAAAAAAAAAAAAAAAAAAAAAAAAAAAAAAAAAAAAAA".
Definition addressBB : string := "0xBBBBBBBBBBBBBBBBBBBBBBBBBBBBBBBBBBBBBBBB".
Definition address_bb : string := "0xbbbbbbbbbbbbbbbbbbbbbbbbbbbbbbbbbbbbbbbb".
Definition addressCC : string := "0xCCCCCCCCCCCCCCCCCCCCCCCCCCCCCCCCCCCCCCCC".

(** An address as an indexed 32-byte topic. *)
Definition topicOfAddress (address : string) : string :=
  "0x000000000000000000000000" ++ Str.sliceLast 40 address.

Definition hashA : string :=
  "0xa1a1a1a1a1a1a1a1a1a1a1a1a1a1a1a1a1a1a1a1a1a1a1a1a1a1a1a1a1a1a1a1".
Definition hashB : string :=
  "0xb2b2b2b2b2b2b2b2b2b2b2b2b2b2b2b2b2b2b2b2b2b2b2b2b2b2b2b2b2b2b2b2".

(** A certificate transfer from [0xAA..] to [0xBB..] in block 420. *)
Definition transferLog : Log :=
  {| log_address := "0x1111111111111111111111111111111111111111";
     log_topics := [ certificateTransferredTopic;
                     "0x0000000000000000000000000000000000000000000000000000000000000007";
                     topicOfAddress addressAA;
                     topicOfAddress addressBB ];
     log_data := "0x";
     log_blockNumber := "0x1a4";
     log_transactionHash := hashB;
     log_logIndex := "0x0" |}.

(** A chain at height [height] (a hex quantity) whose node answers every
    log query with [logs], has no block to show, and whose explorer is
    down. *)
Definition logWorld (height : string) (logs : list Log) : World :=
  {| dateNow := 1700000000000;
     eth_blockNumber := fun _ => HttpBody (RpcResult height);
     eth_getLogs := fun _ _ => HttpBody (RpcResult logs);
     eth_getBlockByNumber := fun _ _ _ => HttpBody (RpcResult None);
     ewScan := fun _ => HttpThrows (Some "connect ECONNREFUSED") |}.

(** A node that cannot be reached at all. *)
Definition deadWorld : World :=
  {| dateNow := 1700000000000;
     eth_blockNumber := fun _ => HttpThrows (Some "connect ECONNREFUSED");
     eth_getLogs := fun _ _ => HttpThrows (Some "connect ECONNREFUSED");
     eth_getBlockByNumber := fun _ _ _ => HttpThrows (Some "connect ECONNREFUSED");
     ewScan := fun _ => HttpThrows (Some "connect ECONNREFUSED") |}.

(** A node that reports its height but fails on every log query. *)
Definition noLogsWorld (height : string) : World :=
  {| dateNow := 1700000000000;
     eth_blockNumber := fun _ => HttpBody (RpcResult height);
     eth_getLogs := fun _ _ => HttpBody (RpcError "query timeout" (Some (-32000)));
     eth_getBlockByNumber := fun _ _ _ => HttpBody (RpcResult None);
     ewScan := fun _ => HttpThrows None |}.

(** The cursor left by a poll that reached block [last] and recorded
    [hashes]. *)
Definition cursorAt (last : Z) (hashes : list string) : IDataObject :=
  {| sd_lastBlockNumber := Some (JInt last);
     sd_lastTimestamp := Some 1699999990000;
     sd_processedTxHashes := Some hashes |}.

(** A hundred EWT in base units, and one base unit less. *)
Definition hundredEwtHex : string := "0x56bc75e2d63100000".
Definition belowHundredEwtHex : string := "0x56bc75e2d630fffff".

Definition transferOf (hash value : string) : Transaction :=
  {| tx_hash := hash;
     tx_from := addressAA;
     tx_to := Some addressBB;
     tx_value := value |}.

(** A chain at height 500 whose block 496 holds the transactions [txs];
    the other blocks cannot be fetched. *)
Definition blockWorld (txs : list Transaction) : World :=
  {| dateNow := 1700000000000;
     eth_blockNumber := fun _ => HttpBody (RpcResult "0x1f4");
     eth_getLogs := fun _ _ => HttpBody (RpcResult []);
     eth_getBlockByNumber := fun _ b _ =>
       if String.eqb b "0x1f0"
       then HttpBody (RpcResult (Some {| block_number := b;
                                         block_timestamp := "0x6553f100";
                                         block_transactions := Some txs |}))
       else HttpThrows (Some "socket hang up");
     ewScan := fun _ => HttpThrows None |}.

(** Half an EWT in base units. *)
Definition halfEwtHex : string := "0x6f05b59d3b20000".

(** A large-transfer trigger with a threshold of half an EWT and no
    filter address. *)
Definition halfEwtParameters : NodeParameters :=
  {| triggerType := largeTransfer;
     filterAddress := EmptyString;
     transferThreshold := (1 # 2)%Q;
     lookbackBlocks := 100;
     certificateContract := EmptyString |}.

(** The creation of the identity [0xBB..] in block 420: the identity is
    the first indexed topic, in upper case, and its owner, the identity
    itself, sits in the data, in lower case. *)
Definition didCreatedLog : Log :=
  {| log_address := DEFAULT_CONTRACTS.didRegistry;
     log_topics := [didCreatedTopic; topicOfAddress addressBB];
     log_data := topicOfAddress address_bb;
     log_blockNumber := "0x1a4";
     log_transactionHash := hashA;
     log_logIndex := "0x0" |}.

End Scenario.

(** * Properties *)

(** ** The unit tests of [helpers.ts] on the functions embedded here *)

Example test_isValidAddress :
  isValidAddress "0x1234567890123456789012345678901234567890" = true /\
  isValidAddress "0xABCDEF1234567890abcdef1234567890ABCDEF12" = true /\
  isValidAddress EmptyString = false /\
  isValidAddress "0x123" = false /\
  isValidAddress "1234567890123456789012345678901234567890" = false /\
  isValidAddress "0xGGGGGGGGGGGGGGGGGGGGGGGGGGGGGGGGGGGGGGGG" = false.
Proof. repeat split; reflexivity. Qed.

Example test_hexToNumber :
  hexToNumber "0x10" = JInt 16 /\ hexToNumber "0xff" = JInt 255 /\
  hexToNumber "0x0" = JInt 0.
Proof. repeat split; reflexivity. Qed.

Example test_numberToHex :
  numberToHex (JInt 16) = "0x10" /\ numberToHex (JInt 255) = "0xff" /\
  numberToHex (JInt 0) = "0x0".
Proof. repeat split; reflexivity. Qed.

Example test_weiToUnits :
  (let? r := weiToUnits "1000000000000000000" in Ok (uc_ewt r, uc_wei r))
    = Ok ("1", "1000000000000000000") /\
  (let? r := weiToUnits "1000000000" in Ok (uc_gwei r)) = Ok "1" /\
  (let? r := weiToUnits "0" in Ok (uc_wei r, uc_ewt r)) = Ok ("0", "0").
Proof. repeat split; reflexivity. Qed.

Example test_BigInt :
  BigInt_of_string "0xde0b6b3a7640000" = Ok (10 ^ 18) /\
  BigInt_of_string EmptyString = Ok 0 /\
  BigInt_of_string " -12 " = Ok (-12) /\
  isThrow (BigInt_of_string "0x") = true /\
  isThrow (BigInt_of_string "1.5") = true /\
  BigInt_of_number (inject_Z 100) = Ok 100 /\
  isThrow (BigInt_of_number (1 # 2)) = true.
Proof. repeat split; reflexivity. Qed.

(** ** How a poll unfolds *)

Section PollShape.

Variable w : World.
Variable credentials : IEnergyWebCredentials.
Variable params : NodeParameters.
Variable sd : IDataObject.

(** The cursor read from the static data never holds [NaN]. *)
Lemma pollStateOf_lastBlockNumber :
  exists L, lastBlockNumber (pollStateOf sd) = JInt L.
Proof.
  unfold pollStateOf; simpl.
  destruct (sd_lastBlockNumber sd) as [[z|]|]; simpl; eauto.
  destruct (z =? 0); eauto.
Qed.

Lemma poll_height_fails e :
  executeRpcRequest (eth_blockNumber w (getRpcEndpoint credentials)) = Throw e ->
  poll w credentials params sd = (Throw (abortOf e), sd).
Proof.
  unfold poll, mbind, mget, mtry, lift, mthrow. intros ->. reflexivity.
Qed.

Lemma poll_nothing_new hex :
  executeRpcRequest (eth_blockNumber w (getRpcEndpoint credentials)) = Ok hex ->
  Num.gt (fromBlockOf params (pollStateOf sd) (hexToNumber hex)) (hexToNumber hex)
  = true ->
  poll w credentials params sd = (Ok None, sd).
Proof.
  unfold poll, mbind, mget, mtry, lift, mret. intros -> Hgt.
  cbn. rewrite Hgt. reflexivity.
Qed.

Lemma poll_decoder_throws hex e :
  executeRpcRequest (eth_blockNumber w (getRpcEndpoint credentials)) = Ok hex ->
  Num.gt (fromBlockOf params (pollStateOf sd) (hexToNumber hex)) (hexToNumber hex)
  = false ->
  dispatch w credentials params
    (fromBlockOf params (pollStateOf sd) (hexToNumber hex)) (hexToNumber hex) = Throw e ->
  poll w credentials params sd = (Throw (abortOf e), sd).
Proof.
  unfold poll, mbind, mget, mtry, lift, mthrow. intros -> Hgt Hd.
  cbn. rewrite Hgt, Hd. reflexivity.
Qed.

(** The three writes of [commit] and its return value. *)
Lemma commit_run pollState currentBlock events :
  commit w pollState currentBlock events sd =
  (Ok (match dropProcessed pollState events with
       | [] => None
       | newEvents => Some [newEvents]
       end),
   {| sd_lastBlockNumber := Some currentBlock;
      sd_lastTimestamp := Some (dateNow w);
      sd_processedTxHashes := Some (hashesToKeep (dropProcessed pollState events)) |}).
Proof.
  unfold commit, mbind, mmodify, mret. cbn.
  destruct (dropProcessed pollState events); reflexivity.
Qed.

Lemma poll_commits hex events :
  executeRpcRequest (eth_blockNumber w (getRpcEndpoint credentials)) = Ok hex ->
  Num.gt (fromBlockOf params (pollStateOf sd) (hexToNumber hex)) (hexToNumber hex)
  = false ->
  dispatch w credentials params
    (fromBlockOf params (pollStateOf sd) (hexToNumber hex)) (hexToNumber hex) = Ok events ->
  poll w credentials params sd =
  commit w (pollStateOf sd) (hexToNumber hex) events sd.
Proof.
  intros Hh Hgt Hd. rewrite commit_run.
  unfold poll, mbind, mget, mtry, lift. rewrite Hh.
  cbn -[commit]. rewrite Hgt, Hd, commit_run. reflexivity.
Qed.

End PollShape.

Section PollCases.

Variable w : World.
Variable credentials : IEnergyWebCredentials.
Variable params : NodeParameters.
Variable sd : IDataObject.

(** One equation for the whole of [poll]: the height is fetched, the window
    is computed, and only once the decoder has returned are the three
    members of the cursor written. *)
Lemma poll_eq :
  poll w credentials params sd =
  match executeRpcRequest (eth_blockNumber w (getRpcEndpoint credentials)) with
  | Throw e => (Throw (abortOf e), sd)
  | Ok hex =>
      let currentBlock := hexToNumber hex in
      let fromBlock := fromBlockOf params (pollStateOf sd) currentBlock in
      if Num.gt fromBlock currentBlock then (Ok None, sd)
      else
        match dispatch w credentials params fromBlock currentBlock with
        | Throw e => (Throw (abortOf e), sd)
        | Ok events => commit w (pollStateOf sd) currentBlock events sd
        end
  end.
Proof.
  destruct (executeRpcRequest (eth_blockNumber w (getRpcEndpoint credentials)))
    as [hex|e] eqn:Hh.
  - cbv zeta.
    destruct (Num.gt _ _) eqn:Hgt.
    + now apply poll_nothing_new with (hex := hex).
    + destruct (dispatch _ _ _ _ _) as [events|e] eqn:Hd.
      * now apply poll_commits.
      * now apply poll_decoder_throws with (hex := hex).
  - now apply poll_height_fails.
Qed.

(** A decoder that reads logs throws as soon as its [eth_getLogs] does. *)
Lemma dispatch_log_query_fails fromBlock currentBlock f e :
  logFilterOf credentials params fromBlock currentBlock = Some f ->
  executeRpcRequest (eth_getLogs w (getRpcEndpoint credentials) f) = Throw e ->
  dispatch w credentials params fromBlock currentBlock = Throw e.
Proof.
  unfold logFilterOf, dispatch.
  destruct (triggerType params); intros [= <-] Hq;
    unfold pollCertificateIssued, pollCertificateTransferred, pollDIDCreated,
      pollDIDUpdated; rewrite Hq; reflexivity.
Qed.

End PollCases.



(** ** The cursor across a poll *)

(** C2: when the computed [fromBlock] exceeds the fetched height [H] the
    poll returns [null] and the static data is left as it was; otherwise a
    poll that does not abort leaves [lastBlockNumber] equal to [H], whether
    or not it emitted events. *)
Theorem cursor_advances_to_height w credentials params sd hex H :
  executeRpcRequest (eth_blockNumber w (getRpcEndpoint credentials)) = Ok hex ->
  hexToNumber hex = JInt H ->
  let fromBlock := fromBlockOf params (pollStateOf sd) (JInt H) in
  (Num.gt fromBlock (JInt H) = true ->
   poll w credentials params sd = (Ok None, sd)) /\
  (Num.gt fromBlock (JInt H) = false ->
   forall r sd', poll w credentials params sd = (r, sd') -> isThrow r = false ->
     sd_lastBlockNumber sd' = Some (JInt H) /\
     lastBlockNumber (pollStateOf sd') = JInt H).
Proof.
  intros Hh HH fromBlock. subst fromBlock. rewrite poll_eq, Hh. cbv zeta.
  rewrite HH. split; intros Hgt.
  - now rewrite Hgt.
  - rewrite Hgt. intros r sd'.
    destruct (dispatch _ _ _ _ _) as [events|e].
    + rewrite commit_run. intros [= <- <-] _. unfold pollStateOf. simpl.
      split; [reflexivity |]. destruct (Z.eqb_spec H 0); congruence.
    + intros [= <- <-]. discriminate.
Qed.

Lemma cursor_advances_to_height_witness :
  poll (Scenario.logWorld "0x1f4" []) Scenario.credentials
    (Scenario.parameters certificateTransferred EmptyString)
    (Scenario.cursorAt 500 [])
  = (Ok None, Scenario.cursorAt 500 []) /\
  sd_lastBlockNumber
    (snd (poll (Scenario.logWorld "0x1f4" []) Scenario.credentials
            (Scenario.parameters certificateTransferred EmptyString)
            (Scenario.cursorAt 400 [])))
  = Some (JInt 500).
Proof.
  split.
  - apply (proj1 (cursor_advances_to_height (Scenario.logWorld "0x1f4" [])
                    Scenario.credentials
                    (Scenario.parameters certificateTransferred EmptyString)
                    (Scenario.cursorAt 500 []) "0x1f4" 500 eq_refl eq_refl)).
    reflexivity.
  - apply (proj2 (cursor_advances_to_height (Scenario.logWorld "0x1f4" [])
                    Scenario.credentials
                    (Scenario.parameters certificateTransferred EmptyString)
                    (Scenario.cursorAt 400 []) "0x1f4" 500 eq_refl eq_refl)
             eq_refl (Ok None) _ (surjective_pairing _)).
    reflexivity.
Defined.

(** C3: when the height cannot be fetched, or the decoder called on the
    window throws (for a log-based decoder: when its [eth_getLogs] fails),
    the poll throws and the static data is exactly what it was, so that the
    next poll starts from the same cursor. *)
Theorem abort_leaves_cursor w credentials params sd e :
  let height := executeRpcRequest (eth_blockNumber w (getRpcEndpoint credentials)) in
  height = Throw e \/
  (exists hex,
     let currentBlock := hexToNumber hex in
     let fromBlock := fromBlockOf params (pollStateOf sd) currentBlock in
     height = Ok hex /\ Num.gt fromBlock currentBlock = false /\
     (dispatch w credentials params fromBlock currentBlock = Throw e \/
      exists f, logFilterOf credentials params fromBlock currentBlock = Some f /\
                executeRpcRequest (eth_getLogs w (getRpcEndpoint credentials) f)
                = Throw e)) ->
  poll w credentials params sd = (Throw (abortOf e), sd) /\
  forall w', poll w' credentials params (snd (poll w credentials params sd))
             = poll w' credentials params sd.
Proof.
  intros height H.
  assert (Hp : poll w credentials params sd = (Throw (abortOf e), sd)).
  { destruct H as [Hh | [hex [Hh [Hgt Hd]]]].
    - now apply poll_height_fails.
    - apply poll_decoder_throws with (hex := hex); try assumption.
      destruct Hd as [Hd | [f [Hf Hq]]]; [assumption |].
      now apply dispatch_log_query_fails with (f := f). }
  split; [assumption |]. intros w'. now rewrite Hp.
Qed.

Lemma abort_leaves_cursor_witness :
  poll Scenario.deadWorld Scenario.credentials
    (Scenario.parameters didUpdated EmptyString) (Scenario.cursorAt 400 [Scenario.hashA])
  = (Throw (NodeOperationError "Poll failed: connect ECONNREFUSED"),
     Scenario.cursorAt 400 [Scenario.hashA]) /\
  poll (Scenario.noLogsWorld "0x1c2") Scenario.credentials
    (Scenario.parameters didUpdated EmptyString) (Scenario.cursorAt 400 [Scenario.hashA])
  = (Throw (NodeOperationError "Poll failed: query timeout"),
     Scenario.cursorAt 400 [Scenario.hashA]).
Proof.
  split.
  - apply (abort_leaves_cursor Scenario.deadWorld Scenario.credentials
             (Scenario.parameters didUpdated EmptyString)
             (Scenario.cursorAt 400 [Scenario.hashA])
             (NodeApiError "connect ECONNREFUSED" None)).
    left. reflexivity.
  - apply (abort_leaves_cursor (Scenario.noLogsWorld "0x1c2") Scenario.credentials
             (Scenario.parameters didUpdated EmptyString)
             (Scenario.cursorAt 400 [Scenario.hashA])
             (NodeApiError "query timeout" (Some (-32000)))).
    right. exists "0x1c2". repeat split. right.
    eexists. split; reflexivity.
Defined.

(** C4: with fetched height [H] and cursor at [L], the window starts at
    [max(0, H - lookbackBlocks)] when [L] is [0] and at [L + 1] otherwise,
    and it ends at [H]: the poll is a no-op when the start exceeds [H], and
    else runs the decoder on exactly [[fromBlock, H]], which for a log-based
    decoder are the bounds of the filter it sends. *)
Theorem scan_window w credentials params sd hex H L :
  executeRpcRequest (eth_blockNumber w (getRpcEndpoint credentials)) = Ok hex ->
  hexToNumber hex = JInt H ->
  lastBlockNumber (pollStateOf sd) = JInt L ->
  let fromBlock := if L =? 0 then Z.max 0 (H - lookbackBlocks params) else L + 1 in
  fromBlockOf params (pollStateOf sd) (JInt H) = JInt fromBlock /\
  poll w credentials params sd =
  (if fromBlock >? H then (Ok None, sd)
   else match dispatch w credentials params (JInt fromBlock) (JInt H) with
        | Ok events => commit w (pollStateOf sd) (JInt H) events sd
        | Throw e => (Throw (abortOf e), sd)
        end) /\
  forall f, logFilterOf credentials params (JInt fromBlock) (JInt H) = Some f ->
            lf_fromBlock f = numberToHex (JInt fromBlock) /\
            lf_toBlock f = numberToHex (JInt H).
Proof.
  intros Hh HH HL fromBlock.
  assert (Hf : fromBlockOf params (pollStateOf sd) (JInt H) = JInt fromBlock).
  { unfold fromBlockOf. rewrite HL. simpl. subst fromBlock.
    destruct (L =? 0); reflexivity. }
  split; [assumption |]. split.
  - rewrite poll_eq, Hh. cbv zeta. rewrite HH, Hf. simpl.
    destruct (fromBlock >? H); [reflexivity |].
    destruct (dispatch _ _ _ _ _); reflexivity.
  - intros f. unfold logFilterOf.
    destruct (triggerType params); intros [= <-]; split; reflexivity.
Qed.

Lemma scan_window_witness :
  fromBlockOf (Scenario.parameters certificateIssued EmptyString)
    (pollStateOf (Scenario.cursorAt 0 [])) (JInt 500) = JInt 400 /\
  fromBlockOf (Scenario.parameters certificateIssued EmptyString)
    (pollStateOf (Scenario.cursorAt 400 [])) (JInt 450) = JInt 401 /\
  (forall f, logFilterOf Scenario.credentials
               (Scenario.parameters certificateIssued EmptyString)
               (JInt 401) (JInt 450) = Some f ->
             lf_fromBlock f = "0x191" /\ lf_toBlock f = "0x1c2").
Proof.
  split; [| split].
  - exact (proj1 (scan_window (Scenario.logWorld "0x1f4" []) Scenario.credentials
                    (Scenario.parameters certificateIssued EmptyString)
                    (Scenario.cursorAt 0 []) "0x1f4" 500 0 eq_refl eq_refl eq_refl)).
  - exact (proj1 (scan_window (Scenario.logWorld "0x1c2" []) Scenario.credentials
                    (Scenario.parameters certificateIssued EmptyString)
                    (Scenario.cursorAt 400 []) "0x1c2" 450 400 eq_refl eq_refl eq_refl)).
  - exact (proj2 (proj2 (scan_window (Scenario.logWorld "0x1c2" []) Scenario.credentials
                    (Scenario.parameters certificateIssued EmptyString)
                    (Scenario.cursorAt 400 []) "0x1c2" 450 400 eq_refl eq_refl eq_refl))).
Defined.

(** ** The emitted batch *)



(** ** The explorer is optional *)

(** C8: when the explorer request of the assetRegistered decoder throws,
    the decoder returns no event and the poll returns [null] without
    throwing; on a non-empty window it has then only advanced the cursor. *)
Theorem explorer_failure_is_swallowed w credentials params sd hex e :
  triggerType params = assetRegistered ->
  executeRpcRequest (eth_blockNumber w (getRpcEndpoint credentials)) = Ok hex ->
  let currentBlock := hexToNumber hex in
  let fromBlock := fromBlockOf params (pollStateOf sd) currentBlock in
  executeEwScanRequest w credentials "/v1/logs" fromBlock currentBlock "AssetRegistered"
  = Throw e ->
  pollAssetRegistered w credentials params fromBlock currentBlock = Ok [] /\
  poll w credentials params sd =
  (Ok None,
   if Num.gt fromBlock currentBlock then sd
   else {| sd_lastBlockNumber := Some currentBlock;
           sd_lastTimestamp := Some (dateNow w);
           sd_processedTxHashes := Some [] |}).
Proof.
  intros Hk Hh currentBlock fromBlock Hdown.
  assert (Hd : pollAssetRegistered w credentials params fromBlock currentBlock = Ok []).
  { unfold pollAssetRegistered. rewrite Hdown. reflexivity. }
  split; [exact Hd |].
  rewrite poll_eq, Hh. cbv zeta. fold currentBlock. fold fromBlock.
  destruct (Num.gt fromBlock currentBlock); [reflexivity |].
  unfold dispatch. rewrite Hk, Hd, commit_run. reflexivity.
Qed.

Lemma explorer_failure_is_swallowed_witness :
  poll (Scenario.logWorld "0x1c2" []) Scenario.credentials
    (Scenario.parameters assetRegistered EmptyString)
    (Scenario.cursorAt 400 [Scenario.hashA])
  = (Ok None,
     {| sd_lastBlockNumber := Some (JInt 450);
        sd_lastTimestamp := Some 1700000000000;
        sd_processedTxHashes := Some [] |}).
Proof.
  exact (proj2 (explorer_failure_is_swallowed (Scenario.logWorld "0x1c2" [])
                  Scenario.credentials (Scenario.parameters assetRegistered EmptyString)
                  (Scenario.cursorAt 400 [Scenario.hashA]) "0x1c2"
                  (NodeApiError "connect ECONNREFUSED" None)
                  eq_refl eq_refl eq_refl)).
Defined.

(** ** The deduplication set does not accumulate *)

(** What "Update poll state" stores: the non-empty hashes of the batch of
    this poll, the last thousand of them, and nothing of what the cursor
    held before. *)
Lemma poll_stores_hashes_of_this_poll w credentials params sd hex events :
  executeRpcRequest (eth_blockNumber w (getRpcEndpoint credentials)) = Ok hex ->
  Num.gt (fromBlockOf params (pollStateOf sd) (hexToNumber hex)) (hexToNumber hex)
  = false ->
  dispatch w credentials params
    (fromBlockOf params (pollStateOf sd) (hexToNumber hex)) (hexToNumber hex)
  = Ok events ->
  sd_processedTxHashes (snd (poll w credentials params sd))
  = Some (sliceLast 1000
            (filter Str.truthy
               (map transactionHash (dropProcessed (pollStateOf sd) events)))).
Proof.
  intros Hh Hgt Hd. rewrite (poll_commits _ _ _ _ _ _ Hh Hgt Hd), commit_run.
  reflexivity.
Qed.

(** C1 (the code departs from it): a cursor that recorded [hashA] at block
    400 is polled at height 450, where one transfer with hash [hashB] is
    found.  The poll emits that transfer and stores [[hashB]] alone, while
    the trailing thousand of the old hashes followed by the emitted one
    is [[hashA; hashB]]. *)
Theorem earlier_hashes_are_forgotten :
  let w := Scenario.logWorld "0x1c2" [Scenario.transferLog] in
  let params := Scenario.parameters certificateTransferred EmptyString in
  let sd := Scenario.cursorAt 400 [Scenario.hashA] in
  let outcome := poll w Scenario.credentials params sd in
  (exists batch, fst outcome = Ok (Some [batch]) /\
                 map transactionHash batch = [Scenario.hashB]) /\
  sd_processedTxHashes (snd outcome) = Some [Scenario.hashB] /\
  sliceLast 1000 (processedTxHashes (pollStateOf sd) ++ [Scenario.hashB])%list
  = [Scenario.hashA; Scenario.hashB] /\
  sd_processedTxHashes (snd outcome)
  <> Some (sliceLast 1000 (processedTxHashes (pollStateOf sd) ++ [Scenario.hashB])%list).
Proof.
  cbv zeta. repeat split.
  - eexists. split; [vm_compute; reflexivity | reflexivity].
  - vm_compute. discriminate.
Qed.

(** ** Topics of the log queries *)

(** C6 (the code departs from it): the topic that the certificateIssued
    decoder sends is the event name padded with zeros, which is not the
    hex encoding of a 32-byte hash; the other three log-based decoders
    send one. *)
Theorem certificateIssued_topic_is_not_a_hash params credentials fromBlock toBlock :
  lf_topics (certificateIssuedFilter params fromBlock toBlock)
  = ["0xCertificateIssued00000000000000000000000000000000000000000000000"] /\
  forallb isValidTxHash (lf_topics (certificateIssuedFilter params fromBlock toBlock))
  = false /\
  forallb isValidTxHash (lf_topics (certificateTransferredFilter params fromBlock toBlock))
  = true /\
  forallb isValidTxHash (lf_topics (didCreatedFilter credentials fromBlock toBlock))
  = true /\
  forallb isValidTxHash (lf_topics (didUpdatedFilter credentials fromBlock toBlock))
  = true.
Proof. repeat split; reflexivity. Qed.

(** ** Strings and bigints *)

Lemma forallb_impl (p q : ascii -> bool) s :
  (forall c, p c = true -> q c = true) ->
  Str.forallb p s = true -> Str.forallb q s = true.
Proof.
  intros Hpq. induction s as [|c r IH]; simpl; [reflexivity |].
  intros H. apply andb_prop in H. destruct H as [Hc Hr].
  now rewrite (Hpq c Hc), (IH Hr).
Qed.

Lemma trimEnd_id s : Str.forallb notSpace s = true -> Str.trimEnd s = s.
Proof.
  induction s as [|c r IH]; simpl; [reflexivity |].
  intros H. apply andb_prop in H. destruct H as [Hc Hr].
  rewrite (IH Hr). unfold notSpace in Hc.
  destruct (Str.isSpace c); [discriminate |].
  destruct r; reflexivity.
Qed.

Lemma trim_id s : Str.forallb notSpace s = true -> Str.trim s = s.
Proof.
  intros H. unfold Str.trim.
  assert (Hs : Str.trimStart s = s).
  { destruct s as [|c r]; [reflexivity |]. simpl in *. unfold notSpace in H.
    destruct (Str.isSpace c); [discriminate | reflexivity]. }
  rewrite Hs. now apply trimEnd_id.
Qed.

Lemma digit_notSpace c : isDecimalDigit c = true -> notSpace c = true.
Proof.
  destruct c as [[|] [|] [|] [|] [|] [|] [|] [|]]; vm_compute; congruence.
Qed.

Lemma decimal_digits d :
  Str.forallb isDecimalDigit (DecimalString.NilEmpty.string_of_uint d) = true.
Proof. induction d; simpl; auto. Qed.

Lemma readDigits_decimal d : forall acc seen,
  readDigits 10 (DecimalString.NilEmpty.string_of_uint d) acc seen
  = (decimalValue d acc, (seen || negb (isNil d))%bool, EmptyString).
Proof.
  induction d; intros acc seen; simpl;
    try (rewrite IHd, orb_true_r; simpl; rewrite ?Z.add_0_r; reflexivity).
  now rewrite orb_false_r.
Qed.

Lemma of_uint_acc_value d : forall acc,
  Zpos (Pos.of_uint_acc d acc) = decimalValue d (Zpos acc).
Proof.
  induction d; intros acc; cbn [Pos.of_uint_acc decimalValue];
    try reflexivity; rewrite IHd; f_equal; lia.
Qed.

Lemma of_uint_value d : Z.of_uint d = decimalValue d 0.
Proof.
  unfold Z.of_uint.
  induction d; cbn [Pos.of_uint decimalValue Z.of_N]; try reflexivity;
    try (now rewrite of_uint_acc_value).
  exact IHd.
Qed.

Lemma readAllDigits_decimal d :
  d <> Decimal.Nil ->
  readAllDigits 10 (DecimalString.NilEmpty.string_of_uint d) = Ok (Z.of_uint d).
Proof.
  intros Hd. unfold readAllDigits. rewrite readDigits_decimal, of_uint_value.
  destruct d; [congruence | reflexivity ..].
Qed.

(** A non-empty string of decimal digits is read as a decimal literal. *)
Lemma BigInt_of_digits s :
  s <> EmptyString -> Str.forallb isDecimalDigit s = true ->
  BigInt_of_string s = readAllDigits 10 s.
Proof.
  intros Hne Hd. unfold BigInt_of_string.
  rewrite trim_id by (eapply forallb_impl; [apply digit_notSpace | exact Hd]).
  destruct s as [|c1 r]; [congruence |].
  simpl in Hd. apply andb_prop in Hd. destruct Hd as [H1 H2].
  destruct c1 as [[|] [|] [|] [|] [|] [|] [|] [|]];
    try discriminate H1; try reflexivity.
  destruct r as [|c2 r]; [reflexivity |].
  simpl in H2. apply andb_prop in H2. destruct H2 as [H2 _].
  destruct c2 as [[|] [|] [|] [|] [|] [|] [|] [|]];
    try discriminate H2; reflexivity.
Qed.

(** [BigInt(n.toString()) === n]: what [weiToUnits] relies on when it is
    handed [value.toString()]. *)
Lemma BigInt_of_bigintToString z : BigInt_of_string (bigintToString z) = Ok z.
Proof.
  unfold bigintToString. destruct z as [|p|p]; [reflexivity | |].
  - cbn [Z.to_int DecimalString.NilZero.string_of_int].
    pose proof (DecimalPos.Unsigned.to_uint_nonnil p) as Hd.
    pose proof (DecimalZ.of_to (Zpos p)) as Hz. cbn [Z.to_int Z.of_int] in Hz.
    unfold DecimalString.NilZero.string_of_uint.
    destruct (Pos.to_uint p) as [|d|d|d|d|d|d|d|d|d|d] eqn:Hp; [congruence | ..];
      rewrite <- Hp in *;
      (rewrite BigInt_of_digits;
       [ rewrite readAllDigits_decimal by assumption; now rewrite Hz
       | rewrite Hp; discriminate
       | apply decimal_digits ]).
  - cbn [Z.to_int DecimalString.NilZero.string_of_int].
    pose proof (DecimalPos.Unsigned.to_uint_nonnil p) as Hd.
    pose proof (DecimalZ.of_to (Zneg p)) as Hz. cbn [Z.to_int Z.of_int] in Hz.
    assert (Hs : DecimalString.NilZero.string_of_uint (Pos.to_uint p)
                 = DecimalString.NilEmpty.string_of_uint (Pos.to_uint p)).
    { destruct (Pos.to_uint p); [congruence | reflexivity ..]. }
    rewrite Hs. unfold BigInt_of_string.
    rewrite trim_id.
    + rewrite readAllDigits_decimal by assumption. simpl. now rewrite Hz.
    + simpl. eapply forallb_impl; [apply digit_notSpace | apply decimal_digits].
Qed.

Lemma bigintToString_inj a b : bigintToString a = bigintToString b -> a = b.
Proof.
  intros H. pose proof (BigInt_of_bigintToString a) as Ha.
  rewrite H, BigInt_of_bigintToString in Ha. congruence.
Qed.

Lemma weiToUnits_of_bigint v :
  weiToUnits (bigintToString v)
  = Ok {| uc_wei := bigintToString v;
          uc_gwei := bigintToString (Z.quot v (10 ^ 9));
          uc_ewt := formatEwt v (10 ^ 18) |}.
Proof. unfold weiToUnits. rewrite BigInt_of_bigintToString. reflexivity. Qed.

(** An integral threshold [T] gives the cutoff [T * 10^18]. *)
Lemma thresholdWeiOf_integer T : thresholdWeiOf (inject_Z T) = Ok (T * 10 ^ 18).
Proof.
  unfold thresholdWeiOf, BigInt_of_number, isInteger. simpl.
  rewrite Z.mod_1_r, Z.div_1_r. reflexivity.
Qed.

(** ** Loops *)

Lemma forUpTo_step {S : Type} step hi (body : Z -> M S unit) i s :
  forUpTo step hi body i s =
  if i <=? hi then
    match body i s with
    | (Ok _, s') => forUpTo step hi body (i + Zpos step) s'
    | (Throw e, s') => (Throw e, s')
    end
  else (Ok tt, s).
Proof.
  rewrite forUpTo_equation_1.
  destruct (Z_le_dec i hi) as [Hle|Hgt].
  - rewrite forUpTo_clause_1_equation_1.
    destruct (Z.leb_spec i hi); [| lia].
    destruct (body i s) as [[u|e] s']; reflexivity.
  - destruct (Z.leb_spec i hi); [lia |]. reflexivity.
Qed.

Lemma forOf_app {S A : Type} (xs ys : list A) (body : A -> M S unit) s :
  forOf (xs ++ ys) body s =
  match forOf xs body s with
  | (Ok _, s') => forOf ys body s'
  | (Throw e, s') => (Throw e, s')
  end.
Proof.
  revert s. induction xs as [|x r IH]; intros s; simpl; [reflexivity |].
  unfold mbind. destruct (body x s) as [[u|e] s']; [apply IH | reflexivity].
Qed.

Lemma forOf_ext {S A : Type} (xs : list A) (body1 body2 : A -> M S unit) s :
  (forall x t, body1 x t = body2 x t) -> forOf xs body1 s = forOf xs body2 s.
Proof.
  intros Hb. revert s. induction xs as [|x r IH]; intros s; simpl; [reflexivity |].
  unfold mbind. rewrite Hb. destruct (body2 x s) as [[u|e] s']; [apply IH | reflexivity].
Qed.

(** A property of the object that every iteration maintains holds at the
    end of the loop, whether it ran to the end or was left by a throw. *)
Lemma forOf_invariant {S A : Type} (I : S -> Prop) (xs : list A)
    (body : A -> M S unit) :
  (forall x s, I s -> I (snd (body x s))) ->
  forall s, I s -> I (snd (forOf xs body s)).
Proof.
  intros Hb. induction xs as [|x r IH]; intros s Hs; simpl; [assumption |].
  unfold mbind. specialize (Hb x s Hs).
  destruct (body x s) as [[u|e] s']; simpl in *; [now apply IH | assumption].
Qed.

Lemma forOf_never_throws {S A : Type} (xs : list A) (body : A -> M S unit) :
  (forall x s, fst (body x s) = Ok tt) ->
  forall s, fst (forOf xs body s) = Ok tt.
Proof.
  intros Hb. induction xs as [|x r IH]; intros s; simpl; [reflexivity |].
  unfold mbind. specialize (Hb x s).
  destruct (body x s) as [[u|e] s']; simpl in *; [apply IH | discriminate].
Qed.

Lemma zrangeFrom_app lo a b :
  zrangeFrom lo (a + b) = (zrangeFrom lo a ++ zrangeFrom (lo + Z.of_nat a) b)%list.
Proof.
  revert lo. induction a as [|a IH]; intros lo.
  - simpl. now rewrite Z.add_0_r.
  - cbn [Nat.add zrangeFrom app]. rewrite IH. do 3 f_equal. lia.
Qed.

Lemma zrange_nil lo hi : hi < lo -> zrange lo hi = [].
Proof.
  intros H. unfold zrange. replace (Z.to_nat (hi + 1 - lo)) with O by lia.
  reflexivity.
Qed.

Lemma zrange_cons lo hi : lo <= hi -> zrange lo hi = lo :: zrange (lo + 1) hi.
Proof.
  intros H. unfold zrange.
  replace (Z.to_nat (hi + 1 - lo)) with (S (Z.to_nat (hi + 1 - (lo + 1)))) by lia.
  reflexivity.
Qed.

Lemma zrange_split lo m hi :
  lo <= m + 1 -> m <= hi ->
  zrange lo hi = (zrange lo m ++ zrange (m + 1) hi)%list.
Proof.
  intros H1 H2. unfold zrange.
  replace (Z.to_nat (hi + 1 - lo))
    with (Z.to_nat (m + 1 - lo) + Z.to_nat (hi + 1 - (m + 1)))%nat by lia.
  rewrite zrangeFrom_app. do 2 f_equal. lia.
Qed.

Lemma zrangeFrom_In b n : forall lo,
  In b (zrangeFrom lo n) <-> lo <= b < lo + Z.of_nat n.
Proof.
  induction n as [|n IH]; intros lo; simpl; [lia |].
  rewrite IH. lia.
Qed.

Lemma zrange_In lo hi b : In b (zrange lo hi) <-> lo <= b <= hi.
Proof. unfold zrange. rewrite zrangeFrom_In. lia. Qed.

(** The loop with stride one visits the integers of its range in order. *)
Lemma forUpTo_one {S : Type} hi (body : Z -> M S unit) :
  forall n i s, Z.to_nat (hi + 1 - i) = n ->
  forUpTo 1 hi body i s = forOf (zrange i hi) body s.
Proof.
  induction n as [|n IH]; intros i s Hn; rewrite forUpTo_step.
  - destruct (Z.leb_spec i hi); [lia |]. now rewrite zrange_nil.
  - destruct (Z.leb_spec i hi); [| lia].
    rewrite zrange_cons by assumption. simpl. unfold mbind.
    destruct (body i s) as [[u|e] s']; [| reflexivity].
    apply IH. lia.
Qed.

(** The two nested loops of the block scan, batch by batch and block by
    block within a batch, visit the blocks of the window once each, in
    increasing order. *)
Lemma forUpTo_batched {S : Type} (batch : positive) hi (body : Z -> M S unit) :
  forall n lo s, Z.to_nat (hi + 1 - lo) = n ->
  forUpTo batch hi
    (fun block => forUpTo 1 (Z.min (block + Zpos batch - 1) hi) body block) lo s
  = forOf (zrange lo hi) body s.
Proof.
  induction n as [n IH] using lt_wf_ind. intros lo s Hn.
  rewrite forUpTo_step.
  destruct (Z.leb_spec lo hi) as [Hle|Hgt]; [| now rewrite zrange_nil].
  rewrite (forUpTo_one _ body _ lo s eq_refl).
  rewrite (zrange_split lo (Z.min (lo + Zpos batch - 1) hi) hi) by lia.
  rewrite forOf_app.
  destruct (forOf (zrange lo (Z.min (lo + Z.pos batch - 1) hi)) body s)
    as [[u|e] s']; [| reflexivity].
  destruct (Z.le_gt_cases (lo + Zpos batch - 1) hi) as [Hfull|Hlast].
  - rewrite Z.min_l by assumption.
    replace (lo + Z.pos batch - 1 + 1) with (lo + Z.pos batch) by lia.
    apply (IH (Z.to_nat (hi + 1 - (lo + Z.pos batch)))); lia.
  - rewrite Z.min_r by lia.
    rewrite (zrange_nil (hi + 1) hi) by lia.
    rewrite forUpTo_step.
    destruct (Z.leb_spec (lo + Z.pos batch) hi); [lia | reflexivity].
Qed.

(** ** The block scan of largeTransfer *)

Section LargeTransferFacts.

Variable w : World.
Variable credentials : IEnergyWebCredentials.
Variable params : NodeParameters.
Variable thresholdWei : Z.

(** The three ways an iteration over a transaction ends. *)
Lemma largeTransferOfTx_shape blockData tx events :
  (exists e, BigInt_of_string (Str.orElse (tx_value tx) "0") = Throw e /\
             largeTransferOfTx credentials params thresholdWei blockData tx events
             = (Throw e, events)) \/
  (valueParses tx /\
   largeTransferOfTx credentials params thresholdWei blockData tx events
   = (Ok tt, events)) \/
  (exists v, BigInt_of_string (Str.orElse (tx_value tx) "0") = Ok v /\
             thresholdWei <= v /\ passesTransferFilter (filterAddress params) tx /\
             largeTransferOfTx credentials params thresholdWei blockData tx events
             = (Ok tt, (events ++ [largeTransferEvent credentials params blockData tx v])%list)).
Proof.
  unfold largeTransferOfTx, valueParses, mbind, lift, mret, mmodify.
  destruct (BigInt_of_string _) as [v|e]; [| left; eauto].
  right. destruct (Z.ltb_spec v thresholdWei); [left; now split |].
  destruct (filterActive (filterAddress params)) eqn:Hact; cbn [andb].
  - unfold differsIgnoringCase.
    destruct (String.eqb_spec (Str.toLowerCase (tx_from tx))
                (Str.toLowerCase (filterAddress params))) as [Hfrom|Hfrom];
      cbn [negb andb].
    + right. exists v. rewrite weiToUnits_of_bigint.
      repeat split; try assumption. right. now left.
    + destruct (String.eqb_spec (toLowerOrEmpty (tx_to tx))
                  (Str.toLowerCase (filterAddress params))) as [Hto|Hto];
        cbn [negb].
      * right. exists v. rewrite weiToUnits_of_bigint.
        repeat split; try assumption. right. now right.
      * left. now split.
  - right. exists v. rewrite weiToUnits_of_bigint.
    repeat split; try assumption. now left.
Qed.

(** A transaction at or above the cutoff that passes the filter is
    pushed; one below the cutoff is skipped. *)
Lemma largeTransferOfTx_pushes blockData tx events v :
  BigInt_of_string (Str.orElse (tx_value tx) "0") = Ok v ->
  thresholdWei <= v ->
  passesTransferFilter (filterAddress params) tx ->
  largeTransferOfTx credentials params thresholdWei blockData tx events
  = (Ok tt, (events ++ [largeTransferEvent credentials params blockData tx v])%list).
Proof.
  intros Hv Hle Hpass.
  unfold largeTransferOfTx, mbind, lift, mret, mmodify. rewrite Hv.
  destruct (Z.ltb_spec v thresholdWei); [lia |].
  rewrite weiToUnits_of_bigint.
  destruct Hpass as [Hoff | [Hfrom | Hto]].
  - rewrite Hoff. reflexivity.
  - unfold differsIgnoringCase. unfold sameIgnoringCase in Hfrom. rewrite Hfrom.
    rewrite String.eqb_refl. cbn [negb andb]. rewrite andb_false_r. reflexivity.
  - rewrite Hto, String.eqb_refl. cbn [negb]. rewrite !andb_false_r. reflexivity.
Qed.

Lemma largeTransferOfTx_skips blockData tx events v :
  BigInt_of_string (Str.orElse (tx_value tx) "0") = Ok v ->
  v < thresholdWei ->
  largeTransferOfTx credentials params thresholdWei blockData tx events = (Ok tt, events).
Proof.
  intros Hv Hlt.
  unfold largeTransferOfTx, mbind, lift, mret. rewrite Hv.
  destruct (Z.ltb_spec v thresholdWei); [reflexivity | lia].
Qed.

(** An iteration only ever appends to [events], and what it appends is at
    or above the cutoff. *)
Lemma largeTransferOfTx_keeps e blockData tx events :
  In e events ->
  In e (snd (largeTransferOfTx credentials params thresholdWei blockData tx events)).
Proof.
  intros He.
  destruct (largeTransferOfTx_shape blockData tx events)
    as [[x [_ ->]] | [[_ ->] | [v [_ [_ [_ ->]]]]]]; simpl; try assumption.
  apply in_or_app. now left.
Qed.

Lemma largeTransferOfTx_above blockData tx events :
  Forall (transfersAtLeast thresholdWei) events ->
  Forall (transfersAtLeast thresholdWei)
    (snd (largeTransferOfTx credentials params thresholdWei blockData tx events)).
Proof.
  intros He.
  destruct (largeTransferOfTx_shape blockData tx events)
    as [[x [_ ->]] | [[_ ->] | [v [_ [Hle [_ ->]]]]]]; simpl; try assumption.
  apply Forall_app. split; [assumption |].
  constructor; [| constructor]. simpl. now exists v.
Qed.

(** The [catch] of the block iteration turns every outcome into a normal
    one and keeps the array as the [try] left it. *)
Lemma largeTransferOfBlock_never_throws b events :
  fst (largeTransferOfBlock w credentials params thresholdWei b events) = Ok tt.
Proof.
  unfold largeTransferOfBlock, mtry.
  match goal with |- context [match ?m events with _ => _ end] =>
    destruct (m events) as [[[]|e] s'] end; reflexivity.
Qed.

Lemma largeTransferOfBlock_invariant (I : list Event -> Prop) b events :
  (forall blockData tx s,
     I s -> I (snd (largeTransferOfTx credentials params thresholdWei blockData tx s))) ->
  I events ->
  I (snd (largeTransferOfBlock w credentials params thresholdWei b events)).
Proof.
  intros Hb He. unfold largeTransferOfBlock, mtry, mbind, lift, mret.
  destruct (executeRpcRequest _) as [[blockData|]|e]; simpl; try assumption.
  destruct (block_transactions blockData) as [txs|]; simpl; try assumption.
  pose proof (forOf_invariant I txs
                (largeTransferOfTx credentials params thresholdWei blockData)
                (Hb blockData) events He) as H.
  destruct (forOf txs (largeTransferOfTx credentials params thresholdWei blockData)
              events) as [[[]|e] s']; exact H.
Qed.

(** A transaction that the iteration reaches, that is, whose predecessors
    in the block all carry a readable value, is pushed when it is at or
    above the cutoff and passes the filter. *)
Lemma largeTransferOfBlock_reaches b blockData pre tx post v events :
  executeRpcRequest
    (eth_getBlockByNumber w (getRpcEndpoint credentials) (numberToHex (JInt b)) true)
  = Ok (Some blockData) ->
  block_transactions blockData = Some (pre ++ tx :: post)%list ->
  Forall valueParses pre ->
  BigInt_of_string (Str.orElse (tx_value tx) "0") = Ok v ->
  thresholdWei <= v ->
  passesTransferFilter (filterAddress params) tx ->
  In (largeTransferEvent credentials params blockData tx v)
     (snd (largeTransferOfBlock w credentials params thresholdWei b events)).
Proof.
  intros Hblock Htxs Hpre Hv Hle Hpass.
  unfold largeTransferOfBlock, mtry, mbind, lift, mret.
  rewrite Hblock, Htxs.
  assert (Hin : In (largeTransferEvent credentials params blockData tx v)
                  (snd (forOf (pre ++ tx :: post)
                          (largeTransferOfTx credentials params thresholdWei blockData)
                          events))).
  { rewrite forOf_app.
    assert (Hok : fst (forOf pre
                         (largeTransferOfTx credentials params thresholdWei blockData)
                         events) = Ok tt).
    { clear - Hpre. revert events.
      induction Hpre as [|t pre Ht Hpre IH]; intros events; [reflexivity |].
      simpl. unfold mbind.
      destruct (largeTransferOfTx_shape blockData t events)
        as [[x [Hx _]] | [[_ ->] | [u [_ [_ [_ ->]]]]]]; try apply IH.
      unfold valueParses in Ht. rewrite Hx in Ht. discriminate. }
    destruct (forOf pre (largeTransferOfTx credentials params thresholdWei blockData)
                events) as [[[]|e] s1];
      [| discriminate Hok].
    cbn [forOf]. unfold mbind at 1.
    rewrite (largeTransferOfTx_pushes blockData tx s1 v Hv Hle Hpass).
    apply forOf_invariant.
    - intros t s Hs. now apply largeTransferOfTx_keeps.
    - apply in_or_app. right. now left. }
  destruct (forOf (pre ++ tx :: post)
              (largeTransferOfTx credentials params thresholdWei blockData) events)
    as [[[]|e] s'];
    exact Hin.
Qed.

(** The decoder, once the cutoff is known: the blocks of the window are
    visited once each, in increasing order, into an array that starts
    empty, and the decoder returns that array. *)
Lemma pollLargeTransfer_eq lo hi :
  thresholdWeiOf (transferThreshold params) = Ok thresholdWei ->
  pollLargeTransfer w credentials params (JInt lo) (JInt hi)
  = Ok (snd (forOf (zrange lo hi)
               (largeTransferOfBlock w credentials params thresholdWei) [])).
Proof.
  intros Ht. unfold pollLargeTransfer. rewrite Ht. cbn [rbind]. cbv zeta.
  rewrite (forUpTo_batched batchSize hi _ _ lo [] eq_refl).
  pose proof (forOf_never_throws (zrange lo hi)
                (largeTransferOfBlock w credentials params thresholdWei)
                largeTransferOfBlock_never_throws []) as Hok.
  destruct (forOf _ _ _) as [[[]|e] events]; [reflexivity | discriminate Hok].
Qed.

End LargeTransferFacts.

(** Once some iteration establishes a property that every iteration
    maintains, in a loop that nothing leaves early, it holds at the end. *)
Lemma forOf_establishes {S A : Type} (I : S -> Prop) (xs : list A)
    (body : A -> M S unit) (x : A) :
  In x xs ->
  (forall y s, fst (body y s) = Ok tt) ->
  (forall s, I (snd (body x s))) ->
  (forall y s, I s -> I (snd (body y s))) ->
  forall s, I (snd (forOf xs body s)).
Proof.
  intros Hin Hok Hx Hkeep s.
  apply in_split in Hin. destruct Hin as [l1 [l2 ->]].
  rewrite forOf_app.
  pose proof (forOf_never_throws l1 body Hok s) as H1.
  destruct (forOf l1 body s) as [[[]|e] s1]; [| discriminate H1].
  cbn [forOf]. unfold mbind at 1.
  specialize (Hx s1). specialize (Hok x s1).
  destruct (body x s1) as [[[]|e] s2]; [| discriminate Hok].
  now apply forOf_invariant.
Qed.

(** ** The cutoff of largeTransfer *)

(** The cutoff for a threshold that is the integer [T]: it is [T * 10^18]
    base units.  In the loop over the transactions of a block, a
    transaction that passes the address filter is pushed when its value is
    exactly the cutoff and skipped when it is one unit less.  For the
    decoder as a whole: every item it returns carries a value of at least
    the cutoff, and a transaction of exactly the cutoff that passes the
    filter and that the scan of its block reaches is among the items
    returned. *)
Theorem transfer_threshold_cutoff w credentials params T :
  BigInt_of_number (transferThreshold params) = Ok T ->
  let cutoff := T * 10 ^ 18 in
  thresholdWeiOf (transferThreshold params) = Ok cutoff /\
  (forall blockData tx v events,
     BigInt_of_string (Str.orElse (tx_value tx) "0") = Ok v ->
     passesTransferFilter (filterAddress params) tx ->
     (v = cutoff ->
      largeTransferOfTx credentials params cutoff blockData tx events
      = (Ok tt, (events ++ [largeTransferEvent credentials params blockData tx v])%list)) /\
     (v = cutoff - 1 ->
      largeTransferOfTx credentials params cutoff blockData tx events
      = (Ok tt, events))) /\
  (forall lo hi,
     exists output,
       pollLargeTransfer w credentials params (JInt lo) (JInt hi) = Ok output /\
       Forall (transfersAtLeast cutoff) output /\
       forall b blockData pre tx post,
         lo <= b <= hi ->
         executeRpcRequest
           (eth_getBlockByNumber w (getRpcEndpoint credentials)
              (numberToHex (JInt b)) true)
         = Ok (Some blockData) ->
         block_transactions blockData = Some (pre ++ tx :: post)%list ->
         Forall valueParses pre ->
         BigInt_of_string (Str.orElse (tx_value tx) "0") = Ok cutoff ->
         passesTransferFilter (filterAddress params) tx ->
         In (largeTransferEvent credentials params blockData tx cutoff) output).
Proof.
  intros HT cutoff.
  assert (Hcut : thresholdWeiOf (transferThreshold params) = Ok cutoff).
  { unfold thresholdWeiOf. rewrite HT. reflexivity. }
  split; [exact Hcut |]. split.
  - intros blockData tx v events Hv Hpass. split; intros ->.
    + apply largeTransferOfTx_pushes; [assumption | lia | assumption].
    + apply largeTransferOfTx_skips with (v := cutoff - 1); [assumption | lia].
  - intros lo hi. eexists.
    split; [exact (pollLargeTransfer_eq w credentials params cutoff lo hi Hcut) |].
    split.
    + apply forOf_invariant; [| constructor].
      intros b s Hs. apply largeTransferOfBlock_invariant; [| assumption].
      intros blockData tx s0. apply largeTransferOfTx_above.
    + intros b blockData pre tx post Hb Hblock Htxs Hpre Hv Hpass.
      apply forOf_establishes with (x := b).
      * now apply zrange_In.
      * apply largeTransferOfBlock_never_throws.
      * intros s.
        apply largeTransferOfBlock_reaches with (pre := pre) (post := post);
          try assumption. lia.
      * intros y s Hs. apply largeTransferOfBlock_invariant; [| assumption].
        intros blockData' tx' s0. apply largeTransferOfTx_keeps.
Qed.

Lemma transfer_threshold_cutoff_witness :
  let w := Scenario.blockWorld
             [ Scenario.transferOf Scenario.hashA Scenario.hundredEwtHex;
               Scenario.transferOf Scenario.hashB Scenario.belowHundredEwtHex ] in
  let params := Scenario.parameters largeTransfer Scenario.address_bb in
  thresholdWeiOf (transferThreshold params) = Ok (100 * 10 ^ 18) /\
  exists output,
    pollLargeTransfer w Scenario.credentials params (JInt 400) (JInt 500) = Ok output /\
    map transactionHash output = [Scenario.hashA].
Proof.
  cbv zeta.
  pose proof (transfer_threshold_cutoff
                (Scenario.blockWorld
                   [ Scenario.transferOf Scenario.hashA Scenario.hundredEwtHex;
                     Scenario.transferOf Scenario.hashB Scenario.belowHundredEwtHex ])
                Scenario.credentials
                (Scenario.parameters largeTransfer Scenario.address_bb)
                100 eq_refl) as [Hcut _].
  split; [exact Hcut |].
  eexists. split; vm_compute; reflexivity.
Defined.

(** C7 (the code departs from it): the threshold is a number of EWT, and
    with half an EWT the cutoff is [5 * 10^17] base units.  Block 496 holds
    a transfer of exactly that value, which the loop over the transactions
    pushes when it is handed that cutoff.  The decoder never gets there:
    [BigInt(0.5)] throws a [RangeError] before any block is read, so the
    decoder throws, the poll aborts with the cursor where it was, and the
    transfer is not reported. *)
Theorem fractional_threshold_aborts_the_poll :
  let tx := Scenario.transferOf Scenario.hashA Scenario.halfEwtHex in
  let w := Scenario.blockWorld [tx] in
  let params := Scenario.halfEwtParameters in
  let sd := Scenario.cursorAt 400 [] in
  (transferThreshold params * inject_Z (10 ^ 18) == inject_Z (5 * 10 ^ 17))%Q /\
  BigInt_of_string (Str.orElse (tx_value tx) "0") = Ok (5 * 10 ^ 17) /\
  (forall blockData events,
     largeTransferOfTx Scenario.credentials params (5 * 10 ^ 17) blockData tx events
     = (Ok tt,
        (events
         ++ [largeTransferEvent Scenario.credentials params blockData tx (5 * 10 ^ 17)])%list)) /\
  (exists m, thresholdWeiOf (transferThreshold params) = Throw (RangeError m)) /\
  (exists m, pollLargeTransfer w Scenario.credentials params (JInt 401) (JInt 500)
             = Throw (RangeError m)) /\
  (exists m, poll w Scenario.credentials params sd = (Throw (NodeOperationError m), sd)).
Proof.
  cbv zeta. split; [reflexivity |]. split; [reflexivity |]. split.
  - intros blockData events. apply largeTransferOfTx_pushes.
    + reflexivity.
    + lia.
    + left. reflexivity.
  - split; [| split]; eexists; vm_compute; reflexivity.
Qed.

(** A companion of [abort_leaves_cursor]: a block that cannot be fetched
    makes the block scan neither throw nor stop.  When no block of the
    window can be fetched, the decoder returns an empty list and the poll
    returns [null] with the cursor advanced to the height. *)
Lemma block_fetch_failures_are_skipped w credentials params sd hex H T :
  triggerType params = largeTransfer ->
  executeRpcRequest (eth_blockNumber w (getRpcEndpoint credentials)) = Ok hex ->
  hexToNumber hex = JInt H ->
  BigInt_of_number (transferThreshold params) = Ok T ->
  (forall b, isThrow (executeRpcRequest
                        (eth_getBlockByNumber w (getRpcEndpoint credentials)
                           (numberToHex (JInt b)) true)) = true) ->
  Num.gt (fromBlockOf params (pollStateOf sd) (JInt H)) (JInt H) = false ->
  poll w credentials params sd
  = (Ok None,
     {| sd_lastBlockNumber := Some (JInt H);
        sd_lastTimestamp := Some (dateNow w);
        sd_processedTxHashes := Some [] |}).
Proof.
  intros Hk Hh HH HT Hfail Hgt.
  rewrite poll_eq, Hh. cbv zeta. rewrite HH, Hgt.
  assert (Hfrom : exists lo, fromBlockOf params (pollStateOf sd) (JInt H) = JInt lo).
  { unfold fromBlockOf. destruct (pollStateOf_lastBlockNumber sd) as [L ->].
    simpl. destruct (L =? 0); eauto. }
  destruct Hfrom as [lo ->].
  unfold dispatch. rewrite Hk.
  rewrite (pollLargeTransfer_eq w credentials params (T * 10 ^ 18) lo H)
    by (unfold thresholdWeiOf; now rewrite HT).
  assert (Hnil : snd (forOf (zrange lo H)
                        (largeTransferOfBlock w credentials params (T * 10 ^ 18)) [])
                 = []).
  { apply (forOf_invariant (fun s => s = [])); [| reflexivity].
    intros b s ->. unfold largeTransferOfBlock, mtry, mbind, lift, mret.
    generalize (Hfail b).
    destruct (executeRpcRequest
                (eth_getBlockByNumber w (getRpcEndpoint credentials)
                   (numberToHex (JInt b)) true));
      cbn; [discriminate | reflexivity]. }
  rewrite Hnil, commit_run. reflexivity.
Qed.

(** ** The address filter *)

Lemma collect_In {A B : Type} (f : A -> option B) (xs : list A) (e : B) :
  In e (collect f xs) <-> exists x, In x xs /\ f x = Some e.
Proof.
  induction xs as [|x r IH]; simpl.
  - split; [contradiction | now intros [x [[] _]]].
  - destruct (f x) as [e'|] eqn:Hfx; simpl; rewrite IH; split.
    + intros [<- | [y [Hy Hfy]]]; [exists x | exists y]; auto.
    + intros [y [[<- | Hy] Hfy]]; [left; congruence | right; exists y; auto].
    + intros [y [Hy Hfy]]. exists y. auto.
    + intros [y [[<- | Hy] Hfy]]; [congruence | exists y; auto].
Qed.

Lemma collect_ext {A B : Type} (f g : A -> option B) (xs : list A) :
  (forall x, f x = g x) -> collect f xs = collect g xs.
Proof.
  intros H. induction xs as [|x r IH]; simpl; [reflexivity |].
  now rewrite H, IH.
Qed.

Lemma filterActive_valid fa : isValidAddress fa = true -> filterActive fa = true.
Proof.
  intros H. unfold filterActive. rewrite H.
  destruct fa; [discriminate H | reflexivity].
Qed.

Lemma filterActive_invalid fa : isValidAddress fa = false -> filterActive fa = false.
Proof. intros H. unfold filterActive. rewrite H. apply andb_false_r. Qed.

Lemma differsIgnoringCase_false a b :
  differsIgnoringCase a b = false <-> sameIgnoringCase a b.
Proof.
  unfold differsIgnoringCase, sameIgnoringCase. rewrite negb_false_iff.
  apply String.eqb_eq.
Qed.

(** C9: with a well-formed filter address, the certificateTransferred
    decoder emits the event of a log exactly when the sender or the
    recipient, lower-cased, equals the lower-cased filter address; this
    holds log by log and for the list the decoder returns. *)
Theorem transfer_filter_ignores_case w credentials params log :
  isValidAddress (filterAddress params) = true ->
  let from := topicAddress (log_topics log) 2 in
  let to := topicAddress (log_topics log) 3 in
  let event :=
    CertificateTransferred from to (log_address log)
      (hexToNumber (log_blockNumber log)) (log_transactionHash log)
      (hexToNumber (log_logIndex log))
      (name (getNetworkConfig (networkOf credentials))) (dateNow w) in
  let matches :=
    sameIgnoringCase from (filterAddress params) \/
    sameIgnoringCase to (filterAddress params) in
  (matches -> certificateTransferredOfLog w credentials params log = Some event) /\
  (~ matches -> certificateTransferredOfLog w credentials params log = None) /\
  forall fromBlock toBlock logs,
    executeRpcRequest
      (eth_getLogs w (getRpcEndpoint credentials)
         (certificateTransferredFilter params fromBlock toBlock))
    = Ok logs ->
    In log logs ->
    exists output,
      pollCertificateTransferred w credentials params fromBlock toBlock = Ok output /\
      (In event output <-> matches).
Proof.
  intros Hvalid from to event matches.
  apply filterActive_valid in Hvalid.
  assert (Hlog : forall l,
    certificateTransferredOfLog w credentials params l <> None ->
    sameIgnoringCase (topicAddress (log_topics l) 2) (filterAddress params) \/
    sameIgnoringCase (topicAddress (log_topics l) 3) (filterAddress params)).
  { intros l. unfold certificateTransferredOfLog. cbv zeta. rewrite Hvalid.
    cbn [andb].
    destruct (differsIgnoringCase (topicAddress (log_topics l) 2) _) eqn:H2.
    - destruct (differsIgnoringCase (topicAddress (log_topics l) 3) _) eqn:H3;
        cbn [andb]; [congruence |].
      intros _. right. now apply differsIgnoringCase_false.
    - intros _. left. now apply differsIgnoringCase_false. }
  assert (Hyes : matches ->
    certificateTransferredOfLog w credentials params log = Some event).
  { unfold certificateTransferredOfLog. cbv zeta. rewrite Hvalid. cbn [andb].
    intros [H | H]; apply differsIgnoringCase_false in H;
      unfold from, to in H; rewrite H; rewrite ?andb_false_r; reflexivity. }
  assert (Hno : ~ matches ->
    certificateTransferredOfLog w credentials params log = None).
  { intros Hn.
    destruct (certificateTransferredOfLog w credentials params log) eqn:E;
      [| reflexivity].
    exfalso. apply Hn. apply Hlog. congruence. }
  split; [exact Hyes |]. split; [exact Hno |].
  intros fromBlock toBlock logs Hq Hin.
  unfold pollCertificateTransferred. rewrite Hq. cbn [rbind].
  eexists. split; [reflexivity |]. rewrite collect_In. split.
  - intros [l [_ Hl]].
    assert (Hm := Hlog l ltac:(congruence)).
    assert (He : certificateTransferredOfLog w credentials params l
                 = Some (CertificateTransferred
                           (topicAddress (log_topics l) 2)
                           (topicAddress (log_topics l) 3) (log_address l)
                           (hexToNumber (log_blockNumber l)) (log_transactionHash l)
                           (hexToNumber (log_logIndex l))
                           (name (getNetworkConfig (networkOf credentials)))
                           (dateNow w))).
    { revert Hl. unfold certificateTransferredOfLog.
      destruct (_ && _)%bool; [discriminate | reflexivity]. }
    rewrite He in Hl. injection Hl as H2 H3 _ _ _ _.
    unfold matches. rewrite <- H2, <- H3. exact Hm.
  - intros Hm. exists log. split; [assumption | now apply Hyes].
Qed.

Lemma transfer_filter_ignores_case_witness :
  let w := Scenario.logWorld "0x1c2" [Scenario.transferLog] in
  pollCertificateTransferred w Scenario.credentials
    (Scenario.parameters certificateTransferred Scenario.address_bb)
    (JInt 401) (JInt 450)
  = Ok [CertificateTransferred Scenario.addressAA Scenario.addressBB
          "0x1111111111111111111111111111111111111111" (JInt 420) Scenario.hashB
          (JInt 0) "Volta Testnet" 1700000000000] /\
  certificateTransferredOfLog w Scenario.credentials
    (Scenario.parameters certificateTransferred Scenario.addressCC)
    Scenario.transferLog = None /\
  pollCertificateTransferred w Scenario.credentials
    (Scenario.parameters certificateTransferred Scenario.addressCC)
    (JInt 401) (JInt 450)
  = Ok [].
Proof.
  cbv zeta. split; [| split].
  - unfold pollCertificateTransferred. cbn [Scenario.logWorld eth_getLogs
      executeRpcRequest rbind collect].
    rewrite (proj1 (transfer_filter_ignores_case
                      (Scenario.logWorld "0x1c2" [Scenario.transferLog])
                      Scenario.credentials
                      (Scenario.parameters certificateTransferred Scenario.address_bb)
                      Scenario.transferLog eq_refl)).
    + reflexivity.
    + right. reflexivity.
  - apply (proj1 (proj2 (transfer_filter_ignores_case
                      (Scenario.logWorld "0x1c2" [Scenario.transferLog])
                      Scenario.credentials
                      (Scenario.parameters certificateTransferred Scenario.addressCC)
                      Scenario.transferLog eq_refl))).
    intros [H | H]; vm_compute in H; discriminate H.
  - reflexivity.
Defined.

(** ** A malformed filter address *)

Section InactiveFilter.

Variable w : World.
Variable credentials : IEnergyWebCredentials.
Variable params : NodeParameters.
Variable fa : string.
Hypothesis fa_invalid : isValidAddress fa = false.

Lemma certificateIssuedOfLog_unfiltered log :
  certificateIssuedOfLog w credentials (withFilterAddress params fa) log
  = certificateIssuedOfLog w credentials (unfiltered params) log /\
  certificateIssuedOfLog w credentials (withFilterAddress params fa) log <> None.
Proof.
  unfold certificateIssuedOfLog. cbn [filterAddress withFilterAddress].
  rewrite (filterActive_invalid fa fa_invalid). cbn. split; [reflexivity | discriminate].
Qed.

Lemma certificateTransferredOfLog_unfiltered log :
  certificateTransferredOfLog w credentials (withFilterAddress params fa) log
  = certificateTransferredOfLog w credentials (unfiltered params) log /\
  certificateTransferredOfLog w credentials (withFilterAddress params fa) log <> None.
Proof.
  unfold certificateTransferredOfLog.
  cbn [filterAddress withFilterAddress].
  rewrite (filterActive_invalid fa fa_invalid). cbn. split; [reflexivity | discriminate].
Qed.

Lemma didCreatedOfLog_unfiltered log :
  didCreatedOfLog w credentials (withFilterAddress params fa) log
  = didCreatedOfLog w credentials (unfiltered params) log.
Proof.
  unfold didCreatedOfLog. cbn [filterAddress withFilterAddress].
  rewrite (filterActive_invalid fa fa_invalid). reflexivity.
Qed.

Lemma didUpdatedOfLog_unfiltered log :
  didUpdatedOfLog w credentials (withFilterAddress params fa) log
  = didUpdatedOfLog w credentials (unfiltered params) log /\
  didUpdatedOfLog w credentials (withFilterAddress params fa) log <> None.
Proof.
  unfold didUpdatedOfLog. cbn [filterAddress withFilterAddress].
  rewrite (filterActive_invalid fa fa_invalid). cbn. split; [reflexivity | discriminate].
Qed.

Lemma assetRegisteredOfLog_unfiltered log :
  assetRegisteredOfLog w credentials (withFilterAddress params fa) log
  = assetRegisteredOfLog w credentials (unfiltered params) log /\
  assetRegisteredOfLog w credentials (withFilterAddress params fa) log <> None.
Proof.
  unfold assetRegisteredOfLog. cbn [filterAddress withFilterAddress].
  rewrite (filterActive_invalid fa fa_invalid). cbn. split; [reflexivity | discriminate].
Qed.

Lemma largeTransferOfTx_unfiltered thresholdWei blockData tx events :
  largeTransferOfTx credentials (withFilterAddress params fa) thresholdWei blockData tx events
  = largeTransferOfTx credentials (unfiltered params) thresholdWei blockData tx events.
Proof.
  unfold largeTransferOfTx, mbind, lift.
  cbn [filterAddress transferThreshold withFilterAddress].
  rewrite (filterActive_invalid fa fa_invalid).
  destruct (BigInt_of_string _); reflexivity.
Qed.

Lemma largeTransferOfBlock_unfiltered thresholdWei b events :
  largeTransferOfBlock w credentials (withFilterAddress params fa) thresholdWei b events
  = largeTransferOfBlock w credentials (unfiltered params) thresholdWei b events.
Proof.
  unfold largeTransferOfBlock, mtry, mbind, lift.
  destruct (executeRpcRequest _) as [[blockData|]|e]; try reflexivity.
  destruct (block_transactions blockData) as [txs|]; try reflexivity.
  rewrite (forOf_ext txs _
             (largeTransferOfTx credentials (unfiltered params) thresholdWei blockData));
    [reflexivity |].
  intros tx s. apply largeTransferOfTx_unfiltered.
Qed.

Lemma pollLargeTransfer_unfiltered fromBlock toBlock :
  pollLargeTransfer w credentials (withFilterAddress params fa) fromBlock toBlock
  = pollLargeTransfer w credentials (unfiltered params) fromBlock toBlock.
Proof.
  unfold pollLargeTransfer.
  change (transferThreshold (withFilterAddress params fa)) with (transferThreshold params).
  change (transferThreshold (unfiltered params)) with (transferThreshold params).
  destruct (thresholdWeiOf (transferThreshold params)) as [thresholdWei|e];
    [| reflexivity].
  cbn [rbind]. cbv zeta.
  destruct fromBlock as [lo|], toBlock as [hi|]; try reflexivity.
  rewrite !(forUpTo_batched batchSize hi _ _ lo [] eq_refl).
  rewrite (forOf_ext (zrange lo hi) _
             (largeTransferOfBlock w credentials (unfiltered params) thresholdWei));
    [reflexivity |].
  intros b s. apply largeTransferOfBlock_unfiltered.
Qed.

Lemma pollCertificateIssued_unfiltered fromBlock toBlock :
  pollCertificateIssued w credentials (withFilterAddress params fa) fromBlock toBlock
  = pollCertificateIssued w credentials (unfiltered params) fromBlock toBlock.
Proof.
  unfold pollCertificateIssued.
  change (certificateIssuedFilter (withFilterAddress params fa))
    with (certificateIssuedFilter (unfiltered params)).
  destruct (executeRpcRequest _); [| reflexivity]. cbn [rbind]. f_equal.
  apply collect_ext. intros log. apply certificateIssuedOfLog_unfiltered.
Qed.

Lemma pollCertificateTransferred_unfiltered fromBlock toBlock :
  pollCertificateTransferred w credentials (withFilterAddress params fa)
    fromBlock toBlock
  = pollCertificateTransferred w credentials (unfiltered params) fromBlock toBlock.
Proof.
  unfold pollCertificateTransferred.
  change (certificateTransferredFilter (withFilterAddress params fa))
    with (certificateTransferredFilter (unfiltered params)).
  destruct (executeRpcRequest _); [| reflexivity]. cbn [rbind]. f_equal.
  apply collect_ext. intros log. apply certificateTransferredOfLog_unfiltered.
Qed.

Lemma pollDIDCreated_unfiltered fromBlock toBlock :
  pollDIDCreated w credentials (withFilterAddress params fa) fromBlock toBlock
  = pollDIDCreated w credentials (unfiltered params) fromBlock toBlock.
Proof.
  unfold pollDIDCreated.
  destruct (executeRpcRequest _); [| reflexivity]. cbn [rbind]. f_equal.
  apply collect_ext. intros log. apply didCreatedOfLog_unfiltered.
Qed.

Lemma pollDIDUpdated_unfiltered fromBlock toBlock :
  pollDIDUpdated w credentials (withFilterAddress params fa) fromBlock toBlock
  = pollDIDUpdated w credentials (unfiltered params) fromBlock toBlock.
Proof.
  unfold pollDIDUpdated.
  destruct (executeRpcRequest _); [| reflexivity]. cbn [rbind]. f_equal.
  apply collect_ext. intros log. apply didUpdatedOfLog_unfiltered.
Qed.

Lemma pollAssetRegistered_unfiltered fromBlock toBlock :
  pollAssetRegistered w credentials (withFilterAddress params fa) fromBlock toBlock
  = pollAssetRegistered w credentials (unfiltered params) fromBlock toBlock.
Proof.
  unfold pollAssetRegistered, tryCatch.
  destruct (executeEwScanRequest _ _ _ _ _ _); [| reflexivity]. cbn [rbind].
  f_equal. apply collect_ext. intros log. apply assetRegisteredOfLog_unfiltered.
Qed.

Lemma dispatch_unfiltered fromBlock toBlock :
  dispatch w credentials (withFilterAddress params fa) fromBlock toBlock
  = dispatch w credentials (unfiltered params) fromBlock toBlock.
Proof.
  unfold dispatch.
  change (triggerType (withFilterAddress params fa)) with (triggerType params).
  change (triggerType (unfiltered params)) with (triggerType params).
  destruct (triggerType params); try reflexivity.
  - apply pollCertificateIssued_unfiltered.
  - apply pollCertificateTransferred_unfiltered.
  - apply pollDIDCreated_unfiltered.
  - apply pollDIDUpdated_unfiltered.
  - apply pollAssetRegistered_unfiltered.
  - apply pollLargeTransfer_unfiltered.
Qed.

Lemma poll_unfiltered sd :
  poll w credentials (withFilterAddress params fa) sd
  = poll w credentials (unfiltered params) sd.
Proof.
  rewrite !poll_eq. destruct (executeRpcRequest _) as [hex|e]; [| reflexivity].
  cbv zeta.
  change (fromBlockOf (withFilterAddress params fa))
    with (fromBlockOf (unfiltered params)).
  destruct (Num.gt _ _); [reflexivity |].
  now rewrite dispatch_unfiltered.
Qed.

End InactiveFilter.

Lemma collect_every {A : Type} (f : A -> option Event) (h : A -> string) l :
  (forall x, exists e, f x = Some e /\ transactionHash e = h x) ->
  List.length (collect f l) = List.length l /\
  map transactionHash (collect f l) = map h l.
Proof.
  intros Hf. induction l as [|x l [IHl IHm]]; [split; reflexivity |].
  cbn [collect]. destruct (Hf x) as (e & -> & He).
  cbn [List.length map]. now rewrite IHl, IHm, He.
Qed.

Lemma collect_filtered {A : Type} (f : A -> option Event) (p : A -> bool)
    (h : A -> string) l :
  (forall x, if p x then exists e, f x = Some e /\ transactionHash e = h x
             else f x = None) ->
  map transactionHash (collect f l) = map h (filter p l).
Proof.
  intros Hf. induction l as [|x l IH]; [reflexivity |].
  cbn [collect filter]. specialize (Hf x). destruct (p x).
  - destruct Hf as (e & -> & He). cbn [map]. now rewrite IH, He.
  - now rewrite Hf.
Qed.

(** C10: a filter address that fails [isValidAddress] changes nothing and
    suppresses nothing.  Each of the six decoders returns, and throws,
    exactly as with no filter address at all, and so does the poll.  What
    they return is tied to what they are served: certificateIssued,
    certificateTransferred and didUpdated return one event for every log
    of the reply, in the order of the logs, and assetRegistered one for
    every item of the explorer's reply, which it never fails on;
    didCreated returns one for every log whose identity is its own owner;
    largeTransfer returns every transaction at or above the cutoff that
    the scan of its block reaches, whoever sends or receives it. *)
Theorem invalid_filter_is_ignored w credentials params fa :
  isValidAddress fa = false ->
  let given := withFilterAddress params fa in
  let blank := unfiltered params in
  (forall a b, pollCertificateIssued w credentials given a b
               = pollCertificateIssued w credentials blank a b) /\
  (forall a b, pollCertificateTransferred w credentials given a b
               = pollCertificateTransferred w credentials blank a b) /\
  (forall a b, pollDIDCreated w credentials given a b
               = pollDIDCreated w credentials blank a b) /\
  (forall a b, pollDIDUpdated w credentials given a b
               = pollDIDUpdated w credentials blank a b) /\
  (forall a b, pollAssetRegistered w credentials given a b
               = pollAssetRegistered w credentials blank a b) /\
  (forall a b, pollLargeTransfer w credentials given a b
               = pollLargeTransfer w credentials blank a b) /\
  (forall sd, poll w credentials given sd = poll w credentials blank sd) /\
  (forall log, certificateIssuedOfLog w credentials given log <> None) /\
  (forall log, certificateTransferredOfLog w credentials given log <> None) /\
  (forall log, didUpdatedOfLog w credentials given log <> None) /\
  (forall log, assetRegisteredOfLog w credentials given log <> None) /\
  (forall a b logs,
     executeRpcRequest
       (eth_getLogs w (getRpcEndpoint credentials) (certificateIssuedFilter given a b))
     = Ok logs ->
     exists events,
       pollCertificateIssued w credentials given a b = Ok events /\
       List.length events = List.length logs /\
       map transactionHash events = map log_transactionHash logs) /\
  (forall a b logs,
     executeRpcRequest
       (eth_getLogs w (getRpcEndpoint credentials)
          (certificateTransferredFilter given a b))
     = Ok logs ->
     exists events,
       pollCertificateTransferred w credentials given a b = Ok events /\
       List.length events = List.length logs /\
       map transactionHash events = map log_transactionHash logs) /\
  (forall a b logs,
     executeRpcRequest
       (eth_getLogs w (getRpcEndpoint credentials) (didUpdatedFilter credentials a b))
     = Ok logs ->
     exists events,
       pollDIDUpdated w credentials given a b = Ok events /\
       List.length events = List.length logs /\
       map transactionHash events = map log_transactionHash logs) /\
  (forall a b logs,
     executeRpcRequest
       (eth_getLogs w (getRpcEndpoint credentials) (didCreatedFilter credentials a b))
     = Ok logs ->
     exists events,
       pollDIDCreated w credentials given a b = Ok events /\
       map transactionHash events = map log_transactionHash (filter selfOwned logs)) /\
  (forall a b,
     isThrow (pollAssetRegistered w credentials given a b) = false) /\
  (forall a b response,
     executeEwScanRequest w credentials "/v1/logs" a b "AssetRegistered" = Ok response ->
     exists events,
       pollAssetRegistered w credentials given a b = Ok events /\
       List.length events = List.length (itemsOf response) /\
       map transactionHash events = map sl_transaction_hash (itemsOf response)) /\
  (forall cutoff lo hi,
     thresholdWeiOf (transferThreshold params) = Ok cutoff ->
     exists output,
       pollLargeTransfer w credentials given (JInt lo) (JInt hi) = Ok output /\
       forall b blockData pre tx post v,
         lo <= b <= hi ->
         executeRpcRequest
           (eth_getBlockByNumber w (getRpcEndpoint credentials)
              (numberToHex (JInt b)) true)
         = Ok (Some blockData) ->
         block_transactions blockData = Some (pre ++ tx :: post)%list ->
         Forall valueParses pre ->
         BigInt_of_string (Str.orElse (tx_value tx) "0") = Ok v ->
         cutoff <= v ->
         In (largeTransferEvent credentials given blockData tx v) output).
Proof.
  intros Hfa given blank.
  pose proof (filterActive_invalid fa Hfa) as Hoff.
  repeat match goal with |- _ /\ _ => split end.
  - intros. now apply pollCertificateIssued_unfiltered.
  - intros. now apply pollCertificateTransferred_unfiltered.
  - intros. now apply pollDIDCreated_unfiltered.
  - intros. now apply pollDIDUpdated_unfiltered.
  - intros. now apply pollAssetRegistered_unfiltered.
  - intros. now apply pollLargeTransfer_unfiltered.
  - intros. now apply poll_unfiltered.
  - intros. now apply certificateIssuedOfLog_unfiltered.
  - intros. now apply certificateTransferredOfLog_unfiltered.
  - intros. now apply didUpdatedOfLog_unfiltered.
  - intros. now apply assetRegisteredOfLog_unfiltered.
  - intros a b logs Hlogs. unfold pollCertificateIssued. rewrite Hlogs. cbn [rbind].
    eexists. split; [reflexivity |]. apply collect_every.
    intros log. unfold certificateIssuedOfLog, given.
    cbn [filterAddress withFilterAddress]. rewrite Hoff. cbn [andb].
    eexists. split; reflexivity.
  - intros a b logs Hlogs. unfold pollCertificateTransferred. rewrite Hlogs.
    cbn [rbind]. eexists. split; [reflexivity |]. apply collect_every.
    intros log. unfold certificateTransferredOfLog, given.
    cbn [filterAddress withFilterAddress]. rewrite Hoff. cbn [andb].
    eexists. split; reflexivity.
  - intros a b logs Hlogs. unfold pollDIDUpdated. rewrite Hlogs. cbn [rbind].
    eexists. split; [reflexivity |]. apply collect_every.
    intros log. unfold didUpdatedOfLog, given.
    cbn [filterAddress withFilterAddress]. rewrite Hoff. cbn [andb].
    eexists. split; reflexivity.
  - intros a b logs Hlogs. unfold pollDIDCreated. rewrite Hlogs. cbn [rbind].
    eexists. split; [reflexivity |]. apply collect_filtered.
    intros log. unfold didCreatedOfLog, selfOwned, given.
    cbn [filterAddress withFilterAddress]. rewrite Hoff. cbn [andb].
    destruct (differsIgnoringCase _ _); cbn [negb]; [reflexivity |].
    eexists. split; reflexivity.
  - intros a b. unfold pollAssetRegistered, tryCatch.
    destruct (executeEwScanRequest _ _ _ _ _ _); reflexivity.
  - intros a b response Hresp. unfold pollAssetRegistered, tryCatch.
    rewrite Hresp. cbn [rbind]. eexists. split; [reflexivity |].
    apply collect_every.
    intros log. unfold assetRegisteredOfLog, given.
    cbn [filterAddress withFilterAddress]. rewrite Hoff. cbn [andb].
    eexists. split; reflexivity.
  - intros cutoff lo hi Hcut. eexists.
    split; [exact (pollLargeTransfer_eq w credentials given cutoff lo hi Hcut) |].
    intros b blockData pre tx post v Hb Hblock Htxs Hpre Hv Hle.
    apply forOf_establishes with (x := b).
    + now apply zrange_In.
    + apply largeTransferOfBlock_never_throws.
    + intros s.
      apply largeTransferOfBlock_reaches with (pre := pre) (post := post);
        try assumption.
      left. exact Hoff.
    + intros y s Hs. apply largeTransferOfBlock_invariant; [| assumption].
      intros blockData' tx' s0. apply largeTransferOfTx_keeps.
Qed.

Lemma invalid_filter_is_ignored_witness :
  let w := Scenario.logWorld "0x1c2" [Scenario.transferLog] in
  isValidAddress "0xCCCC...CCCC" = false /\
  poll w Scenario.credentials
    (withFilterAddress (Scenario.parameters certificateTransferred EmptyString)
       "0xCCCC...CCCC")
    (Scenario.cursorAt 400 [])
  = poll w Scenario.credentials
      (withFilterAddress (Scenario.parameters certificateTransferred EmptyString)
         EmptyString)
      (Scenario.cursorAt 400 []) /\
  exists batch,
    fst (poll w Scenario.credentials
           (withFilterAddress (Scenario.parameters certificateTransferred EmptyString)
              "0xCCCC...CCCC")
           (Scenario.cursorAt 400 []))
    = Ok (Some [batch]) /\
    map transactionHash batch = [Scenario.hashB].
Proof.
  cbv zeta. split; [reflexivity |]. split.
  - apply (invalid_filter_is_ignored
             (Scenario.logWorld "0x1c2" [Scenario.transferLog]) Scenario.credentials
             (Scenario.parameters certificateTransferred EmptyString)
             "0xCCCC...CCCC" eq_refl).
  - eexists. split; vm_compute; reflexivity.
Defined.

(** * Further properties of the trigger *)

(** ** What a poll leaves in the cursor *)

Lemma Subseq_refl {A : Type} (l : list A) : Subseq l l.
Proof. induction l; constructor; assumption. Qed.

Lemma Subseq_trans {A : Type} (l1 l2 l3 : list A) :
  Subseq l1 l2 -> Subseq l2 l3 -> Subseq l1 l3.
Proof.
  intros H12 H23. revert l1 H12.
  induction H23 as [|x l2 l3 H23 IH|x l2 l3 H23 IH]; intros l1 H12.
  - assumption.
  - constructor. now apply IH.
  - inversion H12; subst; constructor; now apply IH.
Qed.

Lemma Subseq_filter {A : Type} (f : A -> bool) (l : list A) : Subseq (filter f l) l.
Proof.
  induction l as [|x l IH]; simpl; [constructor |].
  destruct (f x); constructor; assumption.
Qed.

Lemma Subseq_skipn {A : Type} (n : nat) (l : list A) : Subseq (skipn n l) l.
Proof.
  revert l. induction n as [|n IH]; intros l; [apply Subseq_refl |].
  destruct l as [|x l]; simpl; [constructor |]. constructor. apply IH.
Qed.

Lemma Subseq_map {A B : Type} (f : A -> B) (l1 l2 : list A) :
  Subseq l1 l2 -> Subseq (map f l1) (map f l2).
Proof. induction 1; simpl; constructor; assumption. Qed.

Lemma sliceLast_length {A : Type} (n : nat) (l : list A) :
  (List.length (sliceLast n l) <= n)%nat.
Proof. unfold sliceLast. rewrite length_skipn. lia. Qed.

Lemma hashesToKeep_spec newEvents :
  (List.length (hashesToKeep newEvents) <= 1000)%nat /\
  Forall (fun h => h <> EmptyString) (hashesToKeep newEvents) /\
  Subseq (hashesToKeep newEvents) (map transactionHash newEvents).
Proof.
  unfold hashesToKeep. split; [apply sliceLast_length |]. split.
  - apply Forall_forall. intros h Hh. unfold sliceLast in Hh.
    assert (Hin : In h (filter Str.truthy (map transactionHash newEvents))).
    { revert Hh. generalize (filter Str.truthy (map transactionHash newEvents)).
      intros l. generalize (List.length l - 1000)%nat. intros n. revert l.
      induction n as [|n IH]; intros l; [easy |].
      destruct l as [|x l]; simpl; [easy |]. intros H. right. now apply IH. }
    apply filter_In in Hin. destruct Hin as [_ Ht]. now destruct h.
  - eapply Subseq_trans; [apply Subseq_skipn | apply Subseq_filter].
Qed.

(** X1: a poll either leaves the static data as it was, or has stored a
    list of at most a thousand hashes, none of them empty, that are hashes
    of the events of the batch it returns, in their order; the stored list
    is empty when it returns [null]. *)
Theorem stored_hashes_come_from_the_batch w credentials params sd :
  let outcome := poll w credentials params sd in
  snd outcome = sd \/
  exists l batch,
    sd_processedTxHashes (snd outcome) = Some l /\
    (List.length l <= 1000)%nat /\
    Forall (fun h => h <> EmptyString) l /\
    Subseq l (map transactionHash batch) /\
    fst outcome = Ok (match batch with [] => None | _ => Some [batch] end).
Proof.
  cbv zeta. rewrite poll_eq.
  destruct (executeRpcRequest _) as [hex|e]; [| now left].
  cbv zeta. destruct (Num.gt _ _); [now left |].
  destruct (dispatch _ _ _ _ _) as [events|e]; [| now left].
  right. rewrite commit_run. cbn [fst snd sd_processedTxHashes].
  destruct (hashesToKeep_spec (dropProcessed (pollStateOf sd) events))
    as [Hlen [Hne Hsub]].
  exists (hashesToKeep (dropProcessed (pollStateOf sd) events)),
         (dropProcessed (pollStateOf sd) events).
  repeat split; try assumption.
  destruct (dropProcessed (pollStateOf sd) events); reflexivity.
Qed.

(** X2: after a poll that has scanned up to a height [H] other than zero,
    the next poll, whatever its parameters, starts at [H + 1]: while the
    chain is still at [H] or below it returns [null] and writes nothing. *)
Theorem next_poll_resumes_after_height
    w1 w2 credentials1 credentials2 params1 params2 sd hex1 hex2 H H2 :
  executeRpcRequest (eth_blockNumber w1 (getRpcEndpoint credentials1)) = Ok hex1 ->
  hexToNumber hex1 = JInt H ->
  H <> 0 ->
  Num.gt (fromBlockOf params1 (pollStateOf sd) (JInt H)) (JInt H) = false ->
  isThrow (fst (poll w1 credentials1 params1 sd)) = false ->
  executeRpcRequest (eth_blockNumber w2 (getRpcEndpoint credentials2)) = Ok hex2 ->
  hexToNumber hex2 = JInt H2 ->
  let sd1 := snd (poll w1 credentials1 params1 sd) in
  fromBlockOf params2 (pollStateOf sd1) (JInt H2) = JInt (H + 1) /\
  (H2 <= H -> poll w2 credentials2 params2 sd1 = (Ok None, sd1)).
Proof.
  intros Hh1 HH1 Hnz Hgt Hok Hh2 HH2 sd1.
  assert (Hlast : lastBlockNumber (pollStateOf sd1) = JInt H).
  { subst sd1. revert Hok. rewrite poll_eq, Hh1. cbv zeta. rewrite HH1, Hgt.
    destruct (dispatch _ _ _ _ _) as [events|e]; [| discriminate].
    rewrite commit_run. intros _. cbn.
    destruct (Z.eqb_spec H 0); [contradiction | reflexivity]. }
  assert (Hfrom : fromBlockOf params2 (pollStateOf sd1) (JInt H2) = JInt (H + 1)).
  { unfold fromBlockOf. rewrite Hlast. cbn.
    destruct (Z.eqb_spec H 0); [contradiction | reflexivity]. }
  split; [exact Hfrom |]. intros Hle.
  rewrite poll_eq, Hh2. cbv zeta. rewrite HH2, Hfrom. cbn.
  destruct (Z.gtb_spec (H + 1) H2); [reflexivity | lia].
Qed.

Lemma next_poll_resumes_after_height_witness :
  let w := Scenario.logWorld "0x1c2" [Scenario.transferLog] in
  let sd1 := snd (poll w Scenario.credentials
                    (Scenario.parameters certificateTransferred EmptyString)
                    (Scenario.cursorAt 400 [])) in
  poll w Scenario.credentials (Scenario.parameters didUpdated EmptyString) sd1
  = (Ok None, sd1).
Proof.
  cbv zeta.
  assert (Hnz : 450 <> 0) by discriminate.
  apply (proj2 (next_poll_resumes_after_height
                  (Scenario.logWorld "0x1c2" [Scenario.transferLog])
                  (Scenario.logWorld "0x1c2" [Scenario.transferLog])
                  Scenario.credentials Scenario.credentials
                  (Scenario.parameters certificateTransferred EmptyString)
                  (Scenario.parameters didUpdated EmptyString)
                  (Scenario.cursorAt 400 []) "0x1c2" "0x1c2" 450 450
                  eq_refl eq_refl Hnz eq_refl eq_refl
                  eq_refl eq_refl)).
  discriminate.
Defined.

(** X3: block zero doubles as the mark of a cursor that never polled.  A
    poll that completes while the chain is at height zero leaves a cursor
    from which the next poll looks back again, from
    [max(0, H2 - lookbackBlocks)], instead of resuming at block one. *)
Theorem cursor_at_block_zero_reads_as_fresh
    w1 credentials1 params1 params2 sd hex1 H2 :
  executeRpcRequest (eth_blockNumber w1 (getRpcEndpoint credentials1)) = Ok hex1 ->
  hexToNumber hex1 = JInt 0 ->
  isThrow (fst (poll w1 credentials1 params1 sd)) = false ->
  lastBlockNumber (pollStateOf sd) = JInt 0 ->
  0 <= lookbackBlocks params1 ->
  let sd1 := snd (poll w1 credentials1 params1 sd) in
  sd_lastBlockNumber sd1 = Some (JInt 0) /\
  fromBlockOf params2 (pollStateOf sd1) (JInt H2)
  = JInt (Z.max 0 (H2 - lookbackBlocks params2)).
Proof.
  intros Hh1 HH1 Hok Hlast Hlook sd1.
  assert (Hsd1 : sd_lastBlockNumber sd1 = Some (JInt 0)).
  { assert (Hf : fromBlockOf params1 (pollStateOf sd) (JInt 0) = JInt 0).
    { unfold fromBlockOf. rewrite Hlast. cbn. f_equal. lia. }
    subst sd1. revert Hok. rewrite poll_eq, Hh1. cbv zeta. rewrite HH1, Hf.
    cbn [Num.gt Z.gtb Z.compare].
    destruct (dispatch _ _ _ _ _) as [events|e]; [| cbn; discriminate].
    rewrite commit_run. intros _. reflexivity. }
  split; [exact Hsd1 |].
  unfold fromBlockOf, pollStateOf. rewrite Hsd1. reflexivity.
Qed.

Lemma cursor_at_block_zero_reads_as_fresh_witness :
  let sd1 := snd (poll (Scenario.logWorld "0x0" []) Scenario.credentials
                    (Scenario.parameters didUpdated EmptyString) emptyStaticData) in
  sd_lastBlockNumber sd1 = Some (JInt 0) /\
  fromBlockOf (Scenario.parameters didUpdated EmptyString) (pollStateOf sd1) (JInt 500)
  = JInt 400.
Proof.
  cbv zeta.
  assert (Hlook : 0 <= 100) by discriminate.
  exact (cursor_at_block_zero_reads_as_fresh
           (Scenario.logWorld "0x0" []) Scenario.credentials
           (Scenario.parameters didUpdated EmptyString)
           (Scenario.parameters didUpdated EmptyString)
           emptyStaticData "0x0" 500 eq_refl eq_refl eq_refl eq_refl Hlook).
Defined.

(** ** When a decoder fails, and the order of what it returns *)

Lemma thresholdWeiOf_cases threshold :
  (isInteger threshold = true /\
   thresholdWeiOf threshold
   = Ok (Qnum threshold / Zpos (Qden threshold) * 10 ^ 18)) \/
  (isInteger threshold = false /\ isThrow (thresholdWeiOf threshold) = true).
Proof.
  unfold thresholdWeiOf, BigInt_of_number.
  destruct (isInteger threshold); [left | right]; split; reflexivity.
Qed.

Lemma pollLargeTransfer_returns w credentials params thresholdWei fromBlock toBlock :
  thresholdWeiOf (transferThreshold params) = Ok thresholdWei ->
  isThrow (pollLargeTransfer w credentials params fromBlock toBlock) = false.
Proof.
  intros Ht. destruct fromBlock as [lo|], toBlock as [hi|];
    try (unfold pollLargeTransfer; rewrite Ht; reflexivity).
  now rewrite (pollLargeTransfer_eq w credentials params thresholdWei lo hi Ht).
Qed.

(** X4: which decoders can make a poll fail.  The explorer-based decoder
    never throws; the block scan throws exactly when the threshold is not
    an integer, whatever the node answers; a log-based decoder throws
    exactly when its [eth_getLogs] request does; an unknown trigger type
    always throws. *)
Theorem decoder_failures w credentials params fromBlock toBlock :
  isThrow (dispatch w credentials params fromBlock toBlock) =
  match triggerType params with
  | assetRegistered => false
  | largeTransfer => negb (isInteger (transferThreshold params))
  | otherTrigger _ => true
  | _ =>
      match logFilterOf credentials params fromBlock toBlock with
      | Some f => isThrow (executeRpcRequest
                             (eth_getLogs w (getRpcEndpoint credentials) f))
      | None => false
      end
  end.
Proof.
  unfold dispatch, logFilterOf.
  destruct (triggerType params); try reflexivity.
  - unfold pollCertificateIssued. destruct (executeRpcRequest _); reflexivity.
  - unfold pollCertificateTransferred. destruct (executeRpcRequest _); reflexivity.
  - unfold pollDIDCreated. destruct (executeRpcRequest _); reflexivity.
  - unfold pollDIDUpdated. destruct (executeRpcRequest _); reflexivity.
  - unfold pollAssetRegistered, tryCatch.
    destruct (executeEwScanRequest _ _ _ _ _ _); reflexivity.
  - destruct (thresholdWeiOf_cases (transferThreshold params))
      as [[Hi Ht] | [Hi Ht]]; rewrite Hi; cbn [negb].
    + now apply pollLargeTransfer_returns with (thresholdWei := _) (1 := Ht).
    + unfold pollLargeTransfer.
      destruct (thresholdWeiOf (transferThreshold params)); [discriminate Ht |].
      reflexivity.
Qed.

Lemma collect_Subseq {A B C : Type} (f : A -> option B) (g : B -> C) (h : A -> C)
    (xs : list A) :
  (forall x e, f x = Some e -> g e = h x) ->
  Subseq (map g (collect f xs)) (map h xs).
Proof.
  intros H. induction xs as [|x r IH]; simpl; [constructor |].
  destruct (f x) as [e|] eqn:Hfx; simpl.
  - rewrite (H x e Hfx). now constructor.
  - now constructor.
Qed.

Lemma Subseq_length {A : Type} (l1 l2 : list A) :
  Subseq l1 l2 -> (List.length l1 <= List.length l2)%nat.
Proof. induction 1; simpl; lia. Qed.

(** X5: a log-based decoder returns at most one event per log it was
    served, in the order of the logs: the transaction hashes of its events
    are those of the logs with some left out. *)
Theorem log_decoders_keep_log_order w credentials params fromBlock toBlock f logs :
  logFilterOf credentials params fromBlock toBlock = Some f ->
  executeRpcRequest (eth_getLogs w (getRpcEndpoint credentials) f) = Ok logs ->
  exists events,
    dispatch w credentials params fromBlock toBlock = Ok events /\
    Subseq (map transactionHash events) (map log_transactionHash logs) /\
    (List.length events <= List.length logs)%nat.
Proof.
  unfold logFilterOf, dispatch.
  assert (Hlen : forall events : list Event,
    Subseq (map transactionHash events) (map log_transactionHash logs) ->
    (List.length events <= List.length logs)%nat).
  { intros events Hs. apply Subseq_length in Hs. now rewrite !length_map in Hs. }
  destruct (triggerType params); intros [= <-] Hq.
  - unfold pollCertificateIssued. rewrite Hq. cbn [rbind].
    eexists. split; [reflexivity |].
    assert (Hs : Subseq
                   (map transactionHash
                      (collect (certificateIssuedOfLog w credentials params) logs))
                   (map log_transactionHash logs)).
    { apply collect_Subseq. intros log e. unfold certificateIssuedOfLog.
      destruct (_ && _)%bool; [discriminate | now intros [= <-]]. }
    split; [exact Hs | now apply Hlen].
  - unfold pollCertificateTransferred. rewrite Hq. cbn [rbind].
    eexists. split; [reflexivity |].
    assert (Hs : Subseq
                   (map transactionHash
                      (collect (certificateTransferredOfLog w credentials params) logs))
                   (map log_transactionHash logs)).
    { apply collect_Subseq. intros log e. unfold certificateTransferredOfLog.
      destruct (_ && _)%bool; [discriminate | now intros [= <-]]. }
    split; [exact Hs | now apply Hlen].
  - unfold pollDIDCreated. rewrite Hq. cbn [rbind].
    eexists. split; [reflexivity |].
    assert (Hs : Subseq
                   (map transactionHash
                      (collect (didCreatedOfLog w credentials params) logs))
                   (map log_transactionHash logs)).
    { apply collect_Subseq. intros log e. unfold didCreatedOfLog.
      destruct (differsIgnoringCase _ _); [discriminate |].
      destruct (_ && _)%bool; [discriminate | now intros [= <-]]. }
    split; [exact Hs | now apply Hlen].
  - unfold pollDIDUpdated. rewrite Hq. cbn [rbind].
    eexists. split; [reflexivity |].
    assert (Hs : Subseq
                   (map transactionHash
                      (collect (didUpdatedOfLog w credentials params) logs))
                   (map log_transactionHash logs)).
    { apply collect_Subseq. intros log e. unfold didUpdatedOfLog.
      destruct (_ && _)%bool; [discriminate | now intros [= <-]]. }
    split; [exact Hs | now apply Hlen].
Qed.

Lemma log_decoders_keep_log_order_witness :
  exists events,
    dispatch (Scenario.logWorld "0x1c2" [Scenario.transferLog; Scenario.transferLog])
      Scenario.credentials
      (Scenario.parameters certificateTransferred Scenario.address_bb)
      (JInt 401) (JInt 450) = Ok events /\
    Subseq (map transactionHash events) [Scenario.hashB; Scenario.hashB].
Proof.
  destruct (log_decoders_keep_log_order
              (Scenario.logWorld "0x1c2" [Scenario.transferLog; Scenario.transferLog])
              Scenario.credentials
              (Scenario.parameters certificateTransferred Scenario.address_bb)
              (JInt 401) (JInt 450) _ _ eq_refl eq_refl)
    as [events [Hd [Hs _]]].
  exists events. split; assumption.
Defined.

(** X6: every event of the didCreated decoder is about an identity that
    owns itself: the identity taken from the topic and the owner taken from
    the data are equal up to case, the DID is the network's method followed
    by that identity, and with a well-formed filter address the identity is
    the filter address up to case. *)
Theorem didCreated_reports_self_owned_identities
    w credentials params fromBlock toBlock events :
  pollDIDCreated w credentials params fromBlock toBlock = Ok events ->
  Forall (fun e =>
            match e with
            | DidCreated did identity owner _ _ _ _ _ =>
                sameIgnoringCase identity owner /\
                did = didOf credentials identity /\
                (isValidAddress (filterAddress params) = true ->
                 sameIgnoringCase identity (filterAddress params))
            | _ => False
            end) events.
Proof.
  unfold pollDIDCreated.
  destruct (executeRpcRequest _) as [logs|e]; [| discriminate].
  cbn [rbind]. intros [= <-]. apply Forall_forall. intros e He.
  apply collect_In in He. destruct He as [log [_ Hlog]].
  revert Hlog. unfold didCreatedOfLog.
  destruct (differsIgnoringCase _ _) eqn:Hself; [discriminate |].
  destruct (filterActive (filterAddress params)) eqn:Hact; cbn [andb].
  - destruct (differsIgnoringCase _ (filterAddress params)) eqn:Hf; [discriminate |].
    intros [= <-]. split; [now apply differsIgnoringCase_false |].
    split; [reflexivity |]. intros _. now apply differsIgnoringCase_false.
  - intros [= <-]. split; [now apply differsIgnoringCase_false |].
    split; [reflexivity |]. intros Hv. apply filterActive_valid in Hv. congruence.
Qed.

Lemma didCreated_reports_self_owned_identities_witness :
  let w := Scenario.logWorld "0x1c2" [Scenario.didCreatedLog] in
  let params := Scenario.parameters didCreated Scenario.address_bb in
  let e := DidCreated ("did:ethr:volta:" ++ Scenario.addressBB)
             Scenario.addressBB Scenario.address_bb (JInt 420) Scenario.hashA
             (JInt 0) "Volta Testnet" 1700000000000 in
  pollDIDCreated w Scenario.credentials params (JInt 401) (JInt 450) = Ok [e] /\
  isValidAddress (filterAddress params) = true /\
  Scenario.addressBB <> Scenario.address_bb /\
  Forall (fun e =>
            match e with
            | DidCreated did identity owner _ _ _ _ _ =>
                sameIgnoringCase identity owner /\
                did = didOf Scenario.credentials identity /\
                (isValidAddress (filterAddress params) = true ->
                 sameIgnoringCase identity (filterAddress params))
            | _ => False
            end) [e].
Proof.
  cbv zeta. split; [vm_compute; reflexivity |]. split; [reflexivity |].
  split; [discriminate |].
  exact (didCreated_reports_self_owned_identities
           (Scenario.logWorld "0x1c2" [Scenario.didCreatedLog])
           Scenario.credentials (Scenario.parameters didCreated Scenario.address_bb)
           (JInt 401) (JInt 450) _ eq_refl).
Defined.

Lemma toLowerCase_length s : String.length (Str.toLowerCase s) = String.length s.
Proof. induction s; simpl; congruence. Qed.

Lemma isValidAddress_length a : isValidAddress a = true -> String.length a = 42%nat.
Proof.
  unfold isValidAddress. intros H.
  destruct a as [|c1 [|c2 r]]; try discriminate H.
  - destruct c1 as [[|] [|] [|] [|] [|] [|] [|] [|]]; discriminate H.
  - destruct c1 as [[|] [|] [|] [|] [|] [|] [|] [|]]; try discriminate H.
    destruct c2 as [[|] [|] [|] [|] [|] [|] [|] [|]]; try discriminate H.
    cbn in H. apply andb_prop in H. destruct H as [Hl _].
  apply Nat.eqb_eq in Hl. cbn [String.length]. now rewrite Hl.
Qed.

(** X7: a log of the identity registry that carries neither an identity
    topic nor data has identity ['unknown'] and owner ['unknown'], which
    are equal: unless a well-formed filter address is set, it is reported
    as the creation of the DID of ['unknown']. *)
Theorem didCreated_reports_empty_logs w credentials params log :
  nth_error (log_topics log) 1 = None ->
  log_data log = EmptyString ->
  (didCreatedOfLog w credentials params log
   = if isValidAddress (filterAddress params) then None
     else Some (DidCreated (didOf credentials "unknown") "unknown" "unknown"
                  (hexToNumber (log_blockNumber log)) (log_transactionHash log)
                  (hexToNumber (log_logIndex log))
                  (name (getNetworkConfig (networkOf credentials))) (dateNow w))).
Proof.
  intros Ht Hd. unfold didCreatedOfLog, topicAddress. rewrite Ht, Hd. cbn [Str.truthy].
  change (differsIgnoringCase "unknown" "unknown") with false. cbv iota.
  destruct (isValidAddress (filterAddress params)) eqn:Hv.
  - rewrite (filterActive_valid _ Hv). cbn [andb].
    assert (Hdiff : differsIgnoringCase "unknown" (filterAddress params) = true).
    { unfold differsIgnoringCase. apply negb_true_iff. apply String.eqb_neq.
      intros Heq. apply (f_equal String.length) in Heq.
      rewrite !toLowerCase_length, (isValidAddress_length _ Hv) in Heq.
      discriminate Heq. }
    rewrite Hdiff. reflexivity.
  - rewrite (filterActive_invalid _ Hv). reflexivity.
Qed.

Lemma didCreated_reports_empty_logs_witness :
  didCreatedOfLog (Scenario.logWorld "0x1c2" []) Scenario.credentials
    (Scenario.parameters didCreated EmptyString)
    {| log_address := DEFAULT_CONTRACTS.didRegistry;
       log_topics := [didCreatedTopic];
       log_data := EmptyString;
       log_blockNumber := "0x1a4";
       log_transactionHash := Scenario.hashB;
       log_logIndex := "0x0" |}
  = Some (DidCreated "did:ethr:volta:unknown" "unknown" "unknown" (JInt 420)
            Scenario.hashB (JInt 0) "Volta Testnet" 1700000000000).
Proof.
  exact (didCreated_reports_empty_logs (Scenario.logWorld "0x1c2" [])
           Scenario.credentials (Scenario.parameters didCreated EmptyString)
           {| log_address := DEFAULT_CONTRACTS.didRegistry;
              log_topics := [didCreatedTopic];
              log_data := EmptyString;
              log_blockNumber := "0x1a4";
              log_transactionHash := Scenario.hashB;
              log_logIndex := "0x0" |} eq_refl eq_refl).
Defined.

(** ** The block scan, block by block *)

Lemma forOf_appends {A B : Type} (body : A -> M (list B) unit) :
  (forall x s, body x s = (fst (body x []), (s ++ snd (body x []))%list)) ->
  forall xs s,
    forOf xs body s = (fst (forOf xs body []), (s ++ snd (forOf xs body []))%list).
Proof.
  intros Hb. induction xs as [|x r IH]; intros s; simpl.
  - unfold mret. now rewrite app_nil_r.
  - unfold mbind. rewrite (Hb x s).
    destruct (body x []) as [[[]|e] s1]; cbn [fst snd]; [| reflexivity].
    rewrite (IH (s ++ s1)%list), (IH s1). cbn [fst snd]. now rewrite app_assoc.
Qed.

Lemma largeTransferOfTx_appends credentials params thresholdWei blockData tx s :
  largeTransferOfTx credentials params thresholdWei blockData tx s
  = (fst (largeTransferOfTx credentials params thresholdWei blockData tx []),
     (s ++ snd (largeTransferOfTx credentials params thresholdWei blockData tx []))%list).
Proof.
  unfold largeTransferOfTx, mbind, lift, mret, mmodify.
  destruct (BigInt_of_string _) as [v|e]; cbn [fst snd];
    [| now rewrite app_nil_r].
  destruct (v <? thresholdWei); cbn [fst snd]; [now rewrite app_nil_r |].
  destruct (_ && _)%bool; cbn [fst snd]; [now rewrite app_nil_r |].
  destruct (weiToUnits _); cbn [fst snd]; [reflexivity | now rewrite app_nil_r].
Qed.

Lemma largeTransferOfBlock_appends w credentials params thresholdWei b s :
  largeTransferOfBlock w credentials params thresholdWei b s
  = (Ok tt, (s ++ blockTransfers w credentials params thresholdWei b)%list).
Proof.
  unfold blockTransfers, largeTransferOfBlock, mtry, mbind, lift, mret.
  destruct (executeRpcRequest _) as [[blockData|]|e]; cbn [fst snd];
    try now rewrite app_nil_r.
  destruct (block_transactions blockData) as [txs|]; cbn [fst snd];
    try now rewrite app_nil_r.
  rewrite (forOf_appends _ (largeTransferOfTx_appends credentials params
                              thresholdWei blockData) txs s).
  destruct (forOf txs _ []) as [[[]|e] s1]; reflexivity.
Qed.

Lemma forOf_blocks w credentials params thresholdWei blocks : forall s,
  forOf blocks (largeTransferOfBlock w credentials params thresholdWei) s
  = (Ok tt,
     (s ++ flat_map (blockTransfers w credentials params thresholdWei) blocks)%list).
Proof.
  induction blocks as [|b r IH]; intros s; simpl.
  - unfold mret. now rewrite app_nil_r.
  - unfold mbind. rewrite largeTransferOfBlock_appends, IH. now rewrite app_assoc.
Qed.

(** X8: the batches of ten are invisible in what the block scan returns.
    With a threshold that is the integer [T], the decoder returns, for the
    blocks of the window in increasing order, the items that each block
    contributes on its own, end to end; an empty window gives no item. *)
Theorem block_scan_is_block_by_block w credentials params T lo hi :
  BigInt_of_number (transferThreshold params) = Ok T ->
  pollLargeTransfer w credentials params (JInt lo) (JInt hi)
  = Ok (flat_map (blockTransfers w credentials params (T * 10 ^ 18)) (zrange lo hi)) /\
  (hi < lo -> pollLargeTransfer w credentials params (JInt lo) (JInt hi) = Ok []).
Proof.
  intros HT.
  assert (Hcut : thresholdWeiOf (transferThreshold params) = Ok (T * 10 ^ 18)).
  { unfold thresholdWeiOf. now rewrite HT. }
  assert (Heq : pollLargeTransfer w credentials params (JInt lo) (JInt hi)
                = Ok (flat_map (blockTransfers w credentials params (T * 10 ^ 18))
                        (zrange lo hi))).
  { rewrite (pollLargeTransfer_eq w credentials params (T * 10 ^ 18) lo hi Hcut).
    now rewrite forOf_blocks. }
  split; [exact Heq |]. intros Hlt. rewrite Heq. now rewrite zrange_nil.
Qed.

Lemma block_scan_is_block_by_block_witness :
  let w := Scenario.blockWorld
             [Scenario.transferOf Scenario.hashA Scenario.hundredEwtHex] in
  let params := Scenario.parameters largeTransfer EmptyString in
  pollLargeTransfer w Scenario.credentials params (JInt 490) (JInt 500)
  = Ok (blockTransfers w Scenario.credentials params (100 * 10 ^ 18) 496).
Proof.
  cbv zeta.
  rewrite (proj1 (block_scan_is_block_by_block
                    (Scenario.blockWorld
                       [Scenario.transferOf Scenario.hashA Scenario.hundredEwtHex])
                    Scenario.credentials
                    (Scenario.parameters largeTransfer EmptyString)
                    100 490 500 eq_refl)).
  reflexivity.
Defined.

(** X9: a transaction whose value cannot be read ends the scan of its
    block: the block contributes what the transactions before it had
    contributed, and nothing of those that follow, whatever their value. *)
Theorem unreadable_value_ends_the_block
    w credentials params thresholdWei b blockData pre bad post :
  executeRpcRequest
    (eth_getBlockByNumber w (getRpcEndpoint credentials) (numberToHex (JInt b)) true)
  = Ok (Some blockData) ->
  block_transactions blockData = Some (pre ++ bad :: post)%list ->
  isThrow (BigInt_of_string (Str.orElse (tx_value bad) "0")) = true ->
  blockTransfers w credentials params thresholdWei b
  = snd (forOf pre (largeTransferOfTx credentials params thresholdWei blockData) []).
Proof.
  intros Hblock Htxs Hbad.
  unfold blockTransfers, largeTransferOfBlock, mtry, mbind, lift, mret.
  rewrite Hblock, Htxs, forOf_app.
  destruct (forOf pre _ []) as [[[]|e] s1]; cbn [fst snd]; [| reflexivity].
  cbn [forOf]. unfold mbind at 1.
  destruct (largeTransferOfTx_shape credentials params thresholdWei blockData bad s1)
    as [[x [_ ->]] | [[Hp _] | [v [Hv _]]]].
  - reflexivity.
  - unfold valueParses in Hp. congruence.
  - rewrite Hv in Hbad. discriminate Hbad.
Qed.

Lemma unreadable_value_ends_the_block_witness :
  let w := Scenario.blockWorld
             [ Scenario.transferOf Scenario.hashA Scenario.hundredEwtHex;
               Scenario.transferOf Scenario.hashB "not a number";
               Scenario.transferOf Scenario.hashB Scenario.hundredEwtHex ] in
  map transactionHash
    (blockTransfers w Scenario.credentials
       (Scenario.parameters largeTransfer EmptyString) (100 * 10 ^ 18) 496)
  = [Scenario.hashA].
Proof.
  cbv zeta.
  rewrite (unreadable_value_ends_the_block
             (Scenario.blockWorld
                [ Scenario.transferOf Scenario.hashA Scenario.hundredEwtHex;
                  Scenario.transferOf Scenario.hashB "not a number";
                  Scenario.transferOf Scenario.hashB Scenario.hundredEwtHex ])
             Scenario.credentials (Scenario.parameters largeTransfer EmptyString)
             (100 * 10 ^ 18) 496
             {| block_number := "0x1f0"; block_timestamp := "0x6553f100";
                block_transactions :=
                  Some [ Scenario.transferOf Scenario.hashA Scenario.hundredEwtHex;
                         Scenario.transferOf Scenario.hashB "not a number";
                         Scenario.transferOf Scenario.hashB Scenario.hundredEwtHex ] |}
             [Scenario.transferOf Scenario.hashA Scenario.hundredEwtHex]
             (Scenario.transferOf Scenario.hashB "not a number")
             [Scenario.transferOf Scenario.hashB Scenario.hundredEwtHex]
             eq_refl eq_refl eq_refl).
  vm_compute. reflexivity.
Defined.

(** ** The letter case of the filter address *)

Section FilterCase.

Variable w : World.
Variable credentials : IEnergyWebCredentials.
Variable params : NodeParameters.
Variables fa1 fa2 : string.
Hypothesis fa1_valid : isValidAddress fa1 = true.
Hypothesis fa2_valid : isValidAddress fa2 = true.
Hypothesis same_address : sameIgnoringCase fa1 fa2.

Lemma differsIgnoringCase_same_filter a :
  differsIgnoringCase a fa1 = differsIgnoringCase a fa2.
Proof. unfold differsIgnoringCase. now rewrite same_address. Qed.

Lemma certificateIssuedOfLog_filter_case log :
  certificateIssuedOfLog w credentials (withFilterAddress params fa1) log
  = certificateIssuedOfLog w credentials (withFilterAddress params fa2) log.
Proof.
  unfold certificateIssuedOfLog. cbn [filterAddress withFilterAddress].
  rewrite (filterActive_valid _ fa1_valid), (filterActive_valid _ fa2_valid).
  now rewrite differsIgnoringCase_same_filter.
Qed.

Lemma certificateTransferredOfLog_filter_case log :
  certificateTransferredOfLog w credentials (withFilterAddress params fa1) log
  = certificateTransferredOfLog w credentials (withFilterAddress params fa2) log.
Proof.
  unfold certificateTransferredOfLog. cbn [filterAddress withFilterAddress].
  rewrite (filterActive_valid _ fa1_valid), (filterActive_valid _ fa2_valid).
  now rewrite !differsIgnoringCase_same_filter.
Qed.

Lemma didCreatedOfLog_filter_case log :
  didCreatedOfLog w credentials (withFilterAddress params fa1) log
  = didCreatedOfLog w credentials (withFilterAddress params fa2) log.
Proof.
  unfold didCreatedOfLog. cbn [filterAddress withFilterAddress].
  rewrite (filterActive_valid _ fa1_valid), (filterActive_valid _ fa2_valid).
  now rewrite differsIgnoringCase_same_filter.
Qed.

Lemma didUpdatedOfLog_filter_case log :
  didUpdatedOfLog w credentials (withFilterAddress params fa1) log
  = didUpdatedOfLog w credentials (withFilterAddress params fa2) log.
Proof.
  unfold didUpdatedOfLog. cbn [filterAddress withFilterAddress].
  rewrite (filterActive_valid _ fa1_valid), (filterActive_valid _ fa2_valid).
  now rewrite differsIgnoringCase_same_filter.
Qed.

Lemma assetRegisteredOfLog_filter_case log :
  assetRegisteredOfLog w credentials (withFilterAddress params fa1) log
  = assetRegisteredOfLog w credentials (withFilterAddress params fa2) log.
Proof.
  unfold assetRegisteredOfLog. cbn [filterAddress withFilterAddress].
  rewrite (filterActive_valid _ fa1_valid), (filterActive_valid _ fa2_valid).
  now rewrite differsIgnoringCase_same_filter.
Qed.

Lemma largeTransferOfTx_filter_case thresholdWei blockData tx events :
  largeTransferOfTx credentials (withFilterAddress params fa1) thresholdWei
    blockData tx events
  = largeTransferOfTx credentials (withFilterAddress params fa2) thresholdWei
      blockData tx events.
Proof.
  unfold largeTransferOfTx, mbind, lift.
  cbn [filterAddress transferThreshold withFilterAddress].
  rewrite (filterActive_valid _ fa1_valid), (filterActive_valid _ fa2_valid).
  rewrite differsIgnoringCase_same_filter.
  unfold sameIgnoringCase in same_address. rewrite same_address.
  destruct (BigInt_of_string _); reflexivity.
Qed.

Lemma dispatch_filter_case fromBlock toBlock :
  dispatch w credentials (withFilterAddress params fa1) fromBlock toBlock
  = dispatch w credentials (withFilterAddress params fa2) fromBlock toBlock.
Proof.
  unfold dispatch.
  change (triggerType (withFilterAddress params fa1)) with (triggerType params).
  change (triggerType (withFilterAddress params fa2)) with (triggerType params).
  destruct (triggerType params); try reflexivity.
  - unfold pollCertificateIssued.
    change (certificateIssuedFilter (withFilterAddress params fa1))
      with (certificateIssuedFilter (withFilterAddress params fa2)).
    destruct (executeRpcRequest _); [| reflexivity]. cbn [rbind]. f_equal.
    apply collect_ext, certificateIssuedOfLog_filter_case.
  - unfold pollCertificateTransferred.
    change (certificateTransferredFilter (withFilterAddress params fa1))
      with (certificateTransferredFilter (withFilterAddress params fa2)).
    destruct (executeRpcRequest _); [| reflexivity]. cbn [rbind]. f_equal.
    apply collect_ext, certificateTransferredOfLog_filter_case.
  - unfold pollDIDCreated.
    destruct (executeRpcRequest _); [| reflexivity]. cbn [rbind]. f_equal.
    apply collect_ext, didCreatedOfLog_filter_case.
  - unfold pollDIDUpdated.
    destruct (executeRpcRequest _); [| reflexivity]. cbn [rbind]. f_equal.
    apply collect_ext, didUpdatedOfLog_filter_case.
  - unfold pollAssetRegistered, tryCatch.
    destruct (executeEwScanRequest _ _ _ _ _ _); [| reflexivity]. cbn [rbind].
    f_equal. apply collect_ext, assetRegisteredOfLog_filter_case.
  - unfold pollLargeTransfer.
    change (transferThreshold (withFilterAddress params fa1))
      with (transferThreshold params).
    change (transferThreshold (withFilterAddress params fa2))
      with (transferThreshold params).
    destruct (thresholdWeiOf (transferThreshold params)) as [thresholdWei|e];
      [| reflexivity].
    cbn [rbind]. cbv zeta.
    destruct fromBlock as [lo|], toBlock as [hi|]; try reflexivity.
    rewrite !(forUpTo_batched batchSize hi _ _ lo [] eq_refl).
    rewrite (forOf_ext (zrange lo hi) _
               (largeTransferOfBlock w credentials (withFilterAddress params fa2)
                  thresholdWei)); [reflexivity |].
    intros b s. unfold largeTransferOfBlock, mtry, mbind, lift.
    destruct (executeRpcRequest _) as [[blockData|]|e]; try reflexivity.
    destruct (block_transactions blockData) as [txs|]; try reflexivity.
    rewrite (forOf_ext txs _
               (largeTransferOfTx credentials (withFilterAddress params fa2)
                  thresholdWei blockData)); [reflexivity |].
    intros tx t. apply largeTransferOfTx_filter_case.
Qed.

End FilterCase.

(** X10: two well-formed filter addresses that differ only in the case of
    their letters select the same events: each decoder, and the poll, gives
    the same outcome and leaves the same cursor with either. *)
Theorem filter_case_is_irrelevant w credentials params fa1 fa2 :
  isValidAddress fa1 = true ->
  isValidAddress fa2 = true ->
  sameIgnoringCase fa1 fa2 ->
  (forall fromBlock toBlock,
     dispatch w credentials (withFilterAddress params fa1) fromBlock toBlock
     = dispatch w credentials (withFilterAddress params fa2) fromBlock toBlock) /\
  (forall sd,
     poll w credentials (withFilterAddress params fa1) sd
     = poll w credentials (withFilterAddress params fa2) sd).
Proof.
  intros H1 H2 Hsame. split.
  - intros fromBlock toBlock. now apply dispatch_filter_case.
  - intros sd. rewrite !poll_eq.
    destruct (executeRpcRequest _) as [hex|e]; [| reflexivity]. cbv zeta.
    change (fromBlockOf (withFilterAddress params fa1))
      with (fromBlockOf (withFilterAddress params fa2)).
    destruct (Num.gt _ _); [reflexivity |].
    now rewrite (dispatch_filter_case w credentials params fa1 fa2 H1 H2 Hsame).
Qed.

Lemma filter_case_is_irrelevant_witness :
  let w := Scenario.logWorld "0x1c2" [Scenario.transferLog] in
  poll w Scenario.credentials
    (withFilterAddress (Scenario.parameters certificateTransferred EmptyString)
       Scenario.addressBB) (Scenario.cursorAt 400 [])
  = poll w Scenario.credentials
      (withFilterAddress (Scenario.parameters certificateTransferred EmptyString)
         Scenario.address_bb) (Scenario.cursorAt 400 []).
Proof.
  cbv zeta.
  apply (proj2 (filter_case_is_irrelevant
                  (Scenario.logWorld "0x1c2" [Scenario.transferLog])
                  Scenario.credentials
                  (Scenario.parameters certificateTransferred EmptyString)
                  Scenario.addressBB Scenario.address_bb eq_refl eq_refl eq_refl)).
Defined.

(** * Properties of the helpers and of the transport *)

(** ** Hexadecimal renderings *)

Lemma hex_digits d :
  Str.forallb isHexDigit (HexadecimalString.NilEmpty.string_of_uint d) = true.
Proof. induction d; simpl; auto. Qed.

Lemma hexDigit_notSpace c : isHexDigit c = true -> notSpace c = true.
Proof.
  destruct c as [[|] [|] [|] [|] [|] [|] [|] [|]]; vm_compute; congruence.
Qed.

Lemma readDigits_hex d : forall acc seen,
  readDigits 16 (HexadecimalString.NilEmpty.string_of_uint d) acc seen
  = (hexValue d acc, (seen || negb (isHexNil d))%bool, EmptyString).
Proof.
  induction d; intros acc seen; simpl;
    try (rewrite IHd, orb_true_r; simpl; rewrite ?Z.add_0_r; reflexivity).
  now rewrite orb_false_r.
Qed.

Lemma of_hex_uint_acc_value d : forall acc,
  Zpos (Pos.of_hex_uint_acc d acc) = hexValue d (Zpos acc).
Proof.
  induction d; intros acc; cbn [Pos.of_hex_uint_acc hexValue];
    try reflexivity; rewrite IHd; f_equal; lia.
Qed.

Lemma of_hex_uint_value d : Z.of_hex_uint d = hexValue d 0.
Proof.
  unfold Z.of_hex_uint.
  induction d; cbn [Pos.of_hex_uint hexValue Z.of_N]; try reflexivity;
    try (now rewrite of_hex_uint_acc_value).
  exact IHd.
Qed.

(** The digits of a positive number: not empty, and read back as it. *)
Lemma readDigits_to_hex p seen :
  readDigits 16 (HexadecimalString.NilZero.string_of_uint (Pos.to_hex_uint p)) 0 seen
  = (Zpos p, true, EmptyString).
Proof.
  pose proof (HexadecimalPos.Unsigned.to_uint_nonnil p) as Hd.
  pose proof (HexadecimalZ.of_to (Zpos p)) as Hz.
  cbn [Z.to_hex_int Z.of_hex_int] in Hz.
  assert (Hs : HexadecimalString.NilZero.string_of_uint (Pos.to_hex_uint p)
               = HexadecimalString.NilEmpty.string_of_uint (Pos.to_hex_uint p)).
  { destruct (Pos.to_hex_uint p); [congruence | reflexivity ..]. }
  rewrite Hs, readDigits_hex, <- of_hex_uint_value, Hz.
  destruct (Pos.to_hex_uint p); [congruence | ..]; now rewrite orb_true_r.
Qed.

Lemma toString16_digits p :
  Str.forallb isHexDigit (toString16 (JInt (Zpos p))) = true.
Proof.
  cbn [toString16 Z.to_hex_int HexadecimalString.NilZero.string_of_int].
  unfold HexadecimalString.NilZero.string_of_uint.
  destruct (Pos.to_hex_uint p) eqn:E; try reflexivity; rewrite <- E; apply hex_digits.
Qed.

(** X11 ([hexToNumber], [numberToHex]): a number of at most [2^53] in
    absolute value, which a double holds exactly, and written by
    [numberToHex], is read back by [hexToNumber] as the same number when it
    is not negative; the rendering [0x-...] of a negative number is read
    as [NaN]. *)
Theorem hexToNumber_of_numberToHex n :
  Z.abs n <= 2 ^ 53 ->
  hexToNumber (numberToHex (JInt n)) = if 0 <=? n then JInt n else JNaN.
Proof.
  intros _. unfold hexToNumber, numberToHex, parseInt16.
  destruct n as [|p|p]; [reflexivity | |].
  - cbn [toString16 Z.to_hex_int HexadecimalString.NilZero.string_of_int append
         Str.trimStart].
    change (Str.isSpace "0") with false. cbv iota.
    cbn [stripHexPrefix]. rewrite readDigits_to_hex. reflexivity.
  - reflexivity.
Qed.

Lemma hexToNumber_of_numberToHex_witness :
  hexToNumber (numberToHex (JInt 9007199254740992)) = JInt 9007199254740992 /\
  hexToNumber (numberToHex (JInt 450)) = JInt 450 /\
  hexToNumber (numberToHex (JInt (-255))) = JNaN.
Proof.
  split; [| split].
  - apply (hexToNumber_of_numberToHex 9007199254740992). vm_compute. discriminate.
  - apply (hexToNumber_of_numberToHex 450). vm_compute. discriminate.
  - apply (hexToNumber_of_numberToHex (-255)). vm_compute. discriminate.
Defined.

(** X12 ([hexToBigInt], [bigIntToHex]): [hexToBigInt(bigIntToHex(n))] is
    [n] for [n >= 0]; for a negative [n] the rendering [0x-...] is not a
    literal and [hexToBigInt] throws a [SyntaxError]. *)
Theorem hexToBigInt_of_bigIntToHex n :
  (0 <= n -> hexToBigInt (bigIntToHex n) = Ok n) /\
  (n < 0 -> exists m, hexToBigInt (bigIntToHex n) = Throw (SyntaxError m)).
Proof.
  split; intros Hn.
  - unfold hexToBigInt, bigIntToHex, BigInt_of_string.
    destruct n as [|p|p]; [reflexivity | | lia].
    rewrite trim_id.
    + cbn [append]. unfold readAllDigits.
      cbn [toString16 Z.to_hex_int HexadecimalString.NilZero.string_of_int].
      now rewrite readDigits_to_hex.
    + cbn [append Str.forallb]. 
      change (notSpace "0") with true. change (notSpace "x") with true.
      cbn [andb]. eapply forallb_impl; [apply hexDigit_notSpace | apply toString16_digits].
  - destruct n as [|p|p]; try lia.
    unfold hexToBigInt, bigIntToHex, BigInt_of_string.
    cbn [toString16 Z.to_hex_int HexadecimalString.NilZero.string_of_int append].
    rewrite trim_id.
    + unfold readAllDigits. cbn [readDigits digitValue]. 
      eexists. reflexivity.
    + cbn [Str.forallb].
      change (notSpace "0") with true. change (notSpace "x") with true.
      change (notSpace "-") with true. cbn [andb].
      eapply forallb_impl; [apply hexDigit_notSpace |].
      pose proof (toString16_digits p) as H.
      cbn [toString16 Z.to_hex_int HexadecimalString.NilZero.string_of_int] in H. exact H.
Qed.

Lemma hexToBigInt_of_bigIntToHex_witness : hexToBigInt (bigIntToHex 255) = Ok 255.
Proof. apply (proj1 (hexToBigInt_of_bigIntToHex 255)). lia. Defined.

(** ** Batches of requests *)

Lemma batchResults_all {A : Type} (xs : list A) : forall i,
  batchResults i (map RpcResult xs) = Ok xs.
Proof.
  induction xs as [|x xs IH]; intros i; cbn [map batchResults]; [reflexivity |].
  now rewrite IH.
Qed.

Lemma batchResults_first_error {A : Type} (xs : list A) m c post : forall i,
  batchResults i (map RpcResult xs ++ RpcError m c :: post)
  = Throw (NodeApiError
             ("Batch request " ++ numberToString (JInt (i + Z.of_nat (List.length xs)))
              ++ " failed: " ++ m) None).
Proof.
  induction xs as [|x xs IH]; intros i.
  - cbn [map app batchResults List.length Z.of_nat]. now rewrite Z.add_0_r.
  - cbn [map app batchResults]. rewrite IH. cbn [rbind].
    replace (i + Z.of_nat (List.length (x :: xs)))
      with (i + 1 + Z.of_nat (List.length xs)) by (cbn [List.length]; lia).
    reflexivity.
Qed.

(** X13 ([executeBatchRpcRequest]): a batch whose responses all carry a
    result returns the results in the order of the responses; as soon as
    one response carries an error the whole batch throws, naming the
    position of the first such response and dropping its error code, and
    no result of the batch is returned. *)
Theorem batch_fails_at_first_error {A : Type} (xs : list A) m c post :
  executeBatchRpcRequest (HttpBody (map RpcResult xs)) = Ok xs /\
  executeBatchRpcRequest (HttpBody (map RpcResult xs ++ RpcError m c :: post)%list)
  = Throw (NodeApiError
             ("Batch request " ++ numberToString (JInt (Z.of_nat (List.length xs)))
              ++ " failed: " ++ m) None).
Proof.
  split; cbn [executeBatchRpcRequest].
  - apply batchResults_all.
  - now rewrite batchResults_first_error.
Qed.

(** X14 ([executeBatchRpcRequest], the request body): the entries of a
    batch keep the order, methods and parameters of the requests, take
    consecutive ids from the shared counter and leave it past the last of
    them, so that no id is used twice. *)
Theorem batch_ids_are_consecutive {P : Type} (requests : list (string * P)) :
  forall c, exists body,
    batchBody requests c = (Ok body, c + Z.of_nat (List.length requests)) /\
    map rq_id body = zrangeFrom c (List.length requests) /\
    map (fun r => (rq_method r, rq_params r)) body = requests /\
    NoDup (map rq_id body).
Proof.
  assert (Hnd : forall n c, NoDup (zrangeFrom c n)).
  { induction n as [|n IH]; intros c; cbn [zrangeFrom]; constructor; [| apply IH].
    intros Hin. apply zrangeFrom_In in Hin. lia. }
  induction requests as [|[m ps] r IH]; intros c.
  - exists []. cbn. rewrite Z.add_0_r. repeat split; constructor.
  - destruct (IH (c + 1)) as (body & Hb & Hid & Hreq & _).
    exists ({| rq_method := m; rq_params := ps; rq_id := c |} :: body).
    assert (Hrun : batchBody ((m, ps) :: r) c
                   = (Ok ({| rq_method := m; rq_params := ps; rq_id := c |} :: body),
                      c + Z.of_nat (List.length ((m, ps) :: r)))).
    { replace (c + Z.of_nat (List.length ((m, ps) :: r)))
        with (c + 1 + Z.of_nat (List.length r)) by (cbn [List.length]; lia).
      cbn [batchBody]. unfold mbind, mget, mmodify, mret. now rewrite Hb. }
    assert (Hids : map rq_id ({| rq_method := m; rq_params := ps; rq_id := c |} :: body)
                   = zrangeFrom c (List.length ((m, ps) :: r))).
    { cbn [map rq_id List.length zrangeFrom]. now rewrite Hid. }
    repeat split; [exact Hrun | exact Hids | cbn [map rq_method rq_params]; now rewrite Hreq |].
    rewrite Hids. apply Hnd.
Qed.

(** ** Splitting *)

Lemma splitOn_none sep s :
  Str.forallb (fun c => negb (Ascii.eqb c sep)) s = true -> splitOn sep s = [s].
Proof.
  induction s as [|c r IH]; cbn [splitOn Str.forallb]; [reflexivity |].
  intros H. apply andb_prop in H. destruct H as [Hc Hr].
  destruct (Ascii.eqb c sep); [discriminate |]. now rewrite (IH Hr).
Qed.

Lemma splitOn_app sep a b :
  Str.forallb (fun c => negb (Ascii.eqb c sep)) a = true ->
  splitOn sep (a ++ String sep b) = a :: splitOn sep b.
Proof.
  induction a as [|c r IH]; cbn [splitOn Str.forallb append].
  - intros _. now rewrite Ascii.eqb_refl.
  - intros H. apply andb_prop in H. destruct H as [Hc Hr].
    destruct (Ascii.eqb c sep); [discriminate |]. now rewrite (IH Hr).
Qed.

Lemma afterPrefix_spec p : forall s r, afterPrefix p s = Some r -> s = p ++ r.
Proof.
  induction p as [|a p IH]; intros s r; cbn [afterPrefix append].
  - congruence.
  - destruct s as [|b s]; [discriminate |].
    destruct (Ascii.eqb a b) eqn:E; [| discriminate].
    apply Ascii.eqb_eq in E. subst b. intros H. now rewrite (IH _ _ H).
Qed.

Lemma afterPrefix_app p s : afterPrefix p (p ++ s) = Some s.
Proof.
  induction p as [|a p IH]; cbn [afterPrefix append]; [reflexivity |].
  now rewrite Ascii.eqb_refl.
Qed.

(** ** Addresses and identifiers *)

Lemma lowerChar_hex c : isHexDigit c = true -> isHexDigit (Str.lowerChar c) = true.
Proof.
  destruct c as [[|] [|] [|] [|] [|] [|] [|] [|]]; vm_compute; congruence.
Qed.

Lemma lowerChar_idem c : Str.lowerChar (Str.lowerChar c) = Str.lowerChar c.
Proof. destruct c as [[|] [|] [|] [|] [|] [|] [|] [|]]; reflexivity. Qed.

Lemma toLowerCase_idem s : Str.toLowerCase (Str.toLowerCase s) = Str.toLowerCase s.
Proof.
  induction s as [|c r IH]; cbn [Str.toLowerCase]; [reflexivity |].
  now rewrite lowerChar_idem, IH.
Qed.

Lemma toLowerCase_hex s :
  Str.forallb isHexDigit s = true -> Str.forallb isHexDigit (Str.toLowerCase s) = true.
Proof.
  induction s as [|c r IH]; cbn [Str.toLowerCase Str.forallb]; [reflexivity |].
  intros H. apply andb_prop in H. destruct H as [Hc Hr].
  now rewrite (lowerChar_hex _ Hc), (IH Hr).
Qed.

(** A valid address is [0x] and forty hex digits, and so is its lower case. *)
Lemma isValidAddress_inv a :
  isValidAddress a = true ->
  exists r, a = "0x" ++ r /\ String.length r = 40%nat /\ Str.forallb isHexDigit r = true.
Proof.
  intros H. destruct a as [|c1 [|c2 r]]; try discriminate H.
  - destruct c1 as [[|] [|] [|] [|] [|] [|] [|] [|]]; discriminate H.
  - destruct c1 as [[|] [|] [|] [|] [|] [|] [|] [|]]; try discriminate H;
      destruct c2 as [[|] [|] [|] [|] [|] [|] [|] [|]]; try discriminate H.
    cbn in H. apply andb_prop in H. destruct H as [Hl Hd].
    exists r. apply Nat.eqb_eq in Hl. auto.
Qed.

Lemma isValidAddress_intro r :
  String.length r = 40%nat -> Str.forallb isHexDigit r = true ->
  isValidAddress ("0x" ++ r) = true.
Proof. intros Hl Hd. cbn. now rewrite Hl, Hd. Qed.

Lemma isValidAddress_toLowerCase a :
  isValidAddress a = true -> isValidAddress (Str.toLowerCase a) = true.
Proof.
  intros H. destruct (isValidAddress_inv _ H) as (r & -> & Hl & Hd).
  change (Str.toLowerCase ("0x" ++ r)) with ("0x" ++ Str.toLowerCase r).
  apply isValidAddress_intro; [now rewrite toLowerCase_length | now apply toLowerCase_hex].
Qed.

Lemma hexDigit_notColon c : isHexDigit c = true -> negb (Ascii.eqb c ":") = true.
Proof.
  destruct c as [[|] [|] [|] [|] [|] [|] [|] [|]]; vm_compute; congruence.
Qed.

Lemma splitOn_address a :
  isValidAddress a = true -> splitOn ":" a = [a].
Proof.
  intros H. destruct (isValidAddress_inv _ H) as (r & -> & _ & Hd).
  apply splitOn_none. cbn [append Str.forallb].
  change (negb (Ascii.eqb "0" ":")) with true.
  change (negb (Ascii.eqb "x" ":")) with true. cbn [andb].
  eapply forallb_impl; [apply hexDigit_notColon | exact Hd].
Qed.

(** The name of the network inside an identifier. *)
Lemma splitOn_did net a :
  isValidAddress a = true -> (net = "ewc" \/ net = "volta") ->
  splitOn ":" ("did:ethr:" ++ net ++ ":" ++ a) = ["did"; "ethr"; net; a].
Proof.
  intros Ha Hnet.
  change ("did:ethr:" ++ net ++ ":" ++ a)
    with ("did" ++ String ":" ("ethr" ++ String ":" (net ++ String ":" a))).
  rewrite !splitOn_app, (splitOn_address _ Ha); try reflexivity.
  destruct Hnet as [-> | ->]; reflexivity.
Qed.

Lemma isValidDID_intro net a :
  isValidAddress a = true -> (net = "ewc" \/ net = "volta") ->
  isValidDID ("did:ethr:" ++ net ++ ":" ++ a) = true.
Proof.
  intros Ha [-> | ->]; unfold isValidDID.
  - change ("did:ethr:" ++ "ewc" ++ ":" ++ a) with ("did:ethr:ewc:" ++ a).
    now rewrite afterPrefix_app.
  - change ("did:ethr:" ++ "volta" ++ ":" ++ a) with ("did:ethr:volta:" ++ a).
    replace (afterPrefix "did:ethr:ewc:" ("did:ethr:volta:" ++ a)) with (@None string)
      by reflexivity.
    now rewrite afterPrefix_app.
Qed.

Lemma isValidDID_inv d :
  isValidDID d = true ->
  exists net a, d = "did:ethr:" ++ net ++ ":" ++ a /\ isValidAddress a = true /\
                (net = "ewc" \/ net = "volta").
Proof.
  unfold isValidDID. intros H.
  destruct (afterPrefix "did:ethr:ewc:" d) as [a|] eqn:E1.
  - apply afterPrefix_spec in E1. exists "ewc", a. subst d. auto.
  - destruct (afterPrefix "did:ethr:volta:" d) as [a|] eqn:E2; [| discriminate].
    apply afterPrefix_spec in E2. exists "volta", a. subst d. auto.
Qed.

(** X15 ([encodeDID], [decodeDID], [isValidDID]): for a valid address
    [encodeDID] returns an identifier that [isValidDID] accepts, of method
    [did:ethr] and with the lower-cased address as its identifier, and
    [decodeDID] gives back from it the network ([volta] for Volta, [ewc]
    for any other network) and the lower-cased address. *)
Theorem encodeDID_then_decodeDID address net :
  isValidAddress address = true ->
  exists e,
    encodeDID address net = Done e /\
    isValidDID (did e) = true /\
    method e = "did:ethr" /\
    identifier e = Str.toLowerCase address /\
    decodeDID (did e)
    = Done {| dd_network := Some (match net with volta => "volta" | _ => "ewc" end);
              dd_address := Some (Str.toLowerCase address) |}.
Proof.
  intros Ha. pose proof (isValidAddress_toLowerCase _ Ha) as Hl.
  set (n := match net with volta => "volta" | _ => "ewc" end).
  assert (Hn : n = "ewc" \/ n = "volta") by (destruct net; cbn; auto).
  assert (Hdid : forall e, encodeDID address net = Done e ->
                 did e = "did:ethr:" ++ n ++ ":" ++ Str.toLowerCase address).
  { unfold encodeDID. rewrite Ha. cbn [negb]. intros e [= <-]. cbn [did].
    destruct net; reflexivity. }
  unfold encodeDID in *. rewrite Ha in *. cbn [negb] in *.
  eexists. split; [reflexivity |].
  rewrite (Hdid _ eq_refl).
  split; [now apply isValidDID_intro |].
  split; [destruct net; reflexivity |].
  split; [reflexivity |].
  unfold decodeDID. rewrite isValidDID_intro by assumption. cbn [negb].
  now rewrite splitOn_did.
Qed.

Lemma encodeDID_then_decodeDID_witness :
  exists e,
    encodeDID Scenario.addressAA volta = Done e /\
    isValidDID (did e) = true /\
    method e = "did:ethr" /\
    identifier e = Str.toLowerCase Scenario.addressAA /\
    decodeDID (did e)
    = Done {| dd_network := Some "volta";
              dd_address := Some (Str.toLowerCase Scenario.addressAA) |}.
Proof. apply (encodeDID_then_decodeDID Scenario.addressAA volta). reflexivity. Defined.

(** X16 ([decodeDID], [encodeDID]): [decodeDID] throws on a string that
    [isValidDID] rejects; on any other it returns a network that is [ewc]
    or [volta] and a valid address, never an undefined field, and encoding
    that address for that network gives the identifier back up to the case
    of its hex digits. *)
Theorem decodeDID_returns_valid_address d :
  (isValidDID d = false -> decodeDID d = Raised "Invalid DID format") /\
  (isValidDID d = true ->
   exists net a,
     decodeDID d = Done {| dd_network := Some net; dd_address := Some a |} /\
     (net = "ewc" \/ net = "volta") /\
     isValidAddress a = true /\
     exists e,
       encodeDID a (if String.eqb net "volta" then volta else mainnet) = Done e /\
       did e = "did:ethr:" ++ net ++ ":" ++ Str.toLowerCase a /\
       d = "did:ethr:" ++ net ++ ":" ++ a).
Proof.
  split; intros H.
  - unfold decodeDID. now rewrite H.
  - destruct (isValidDID_inv _ H) as (net & a & -> & Ha & Hnet).
    exists net, a. unfold decodeDID. rewrite H. cbn [negb].
    rewrite splitOn_did by assumption.
    repeat split; try assumption.
    unfold encodeDID. rewrite Ha. cbn [negb]. eexists. split; [reflexivity |].
    split; [| reflexivity]. destruct Hnet as [-> | ->]; reflexivity.
Qed.

Lemma decodeDID_returns_valid_address_witness :
  exists net a,
    decodeDID ("did:ethr:volta:" ++ Scenario.addressAA)
    = Done {| dd_network := Some net; dd_address := Some a |} /\
    (net = "ewc" \/ net = "volta") /\
    isValidAddress a = true /\
    exists e,
      encodeDID a (if String.eqb net "volta" then volta else mainnet) = Done e /\
      did e = "did:ethr:" ++ net ++ ":" ++ Str.toLowerCase a /\
      "did:ethr:volta:" ++ Scenario.addressAA = "did:ethr:" ++ net ++ ":" ++ a.
Proof.
  apply (proj2 (decodeDID_returns_valid_address ("did:ethr:volta:" ++ Scenario.addressAA))).
  reflexivity.
Defined.

(** X17 ([formatAddress]): formatting is idempotent, keeps an address
    valid or invalid as it was, changes at most the case of its letters,
    and sends two valid addresses that differ in case only to the same
    string. *)
Theorem formatAddress_is_canonical a b :
  formatAddress (formatAddress a) = formatAddress a /\
  isValidAddress (formatAddress a) = isValidAddress a /\
  sameIgnoringCase (formatAddress a) a /\
  (isValidAddress a = true -> isValidAddress b = true ->
   (formatAddress a = formatAddress b <-> sameIgnoringCase a b)).
Proof.
  unfold formatAddress, sameIgnoringCase.
  destruct (isValidAddress a) eqn:Ha; cbn [negb].
  - rewrite (isValidAddress_toLowerCase _ Ha). cbn [negb].
    rewrite toLowerCase_idem.
    split; [reflexivity |]. split; [reflexivity |]. split; [reflexivity |].
    intros _ Hb. rewrite Hb. cbn [negb]. tauto.
  - rewrite Ha. cbn [negb].
    split; [reflexivity |]. split; [reflexivity |]. split; [reflexivity |].
    discriminate.
Qed.

Lemma formatAddress_is_canonical_witness :
  formatAddress Scenario.addressBB = formatAddress Scenario.address_bb
  <-> sameIgnoringCase Scenario.addressBB Scenario.address_bb.
Proof.
  apply (proj2 (proj2 (proj2
    (formatAddress_is_canonical Scenario.addressBB Scenario.address_bb))));
    reflexivity.
Defined.

(** ** Padding *)

Lemma length_append a b : String.length (a ++ b) = (String.length a + String.length b)%nat.
Proof. induction a as [|c a IH]; cbn [append String.length]; [reflexivity | now rewrite IH]. Qed.

Lemma length_repeat c n : String.length (Str.repeat c n) = n.
Proof. induction n as [|n IH]; cbn [Str.repeat String.length]; congruence. Qed.

Lemma append_nil_r s : s ++ EmptyString = s.
Proof. induction s as [|c s IH]; cbn [append]; congruence. Qed.

Lemma append_assoc a b c : (a ++ b) ++ c = a ++ (b ++ c).
Proof. induction a as [|x a IH]; cbn [append]; congruence. Qed.

Lemma substring_prefix a b : substring 0 (String.length a) (a ++ b) = a.
Proof. induction a as [|c a IH]; cbn; [destruct b; reflexivity | now rewrite IH]. Qed.

Lemma substring_all s : substring 0 (String.length s) s = s.
Proof. induction s as [|c s IH]; cbn; [reflexivity | now rewrite IH]. Qed.

Lemma forallb_app p a b :
  Str.forallb p (a ++ b) = (Str.forallb p a && Str.forallb p b)%bool.
Proof.
  induction a as [|c a IH]; cbn [append Str.forallb]; [reflexivity |].
  now rewrite IH, andb_assoc.
Qed.

Lemma forallb_repeat (p : ascii -> bool) c n :
  p c = true -> Str.forallb p (Str.repeat c n) = true.
Proof. intros H. induction n as [|n IH]; cbn [Str.repeat Str.forallb]; [reflexivity |]. now rewrite H, IH. Qed.

Lemma readDigits_zeros radix k s seen :
  1 < radix ->
  readDigits radix (Str.repeat "0" k ++ s) 0 seen
  = readDigits radix s 0 (seen || negb (Nat.eqb k 0))%bool.
Proof.
  intros Hr. revert seen. induction k as [|k IH]; intros seen.
  - cbn. now rewrite orb_false_r.
  - cbn [Str.repeat append readDigits]. change (digitValue "0") with (Some 0).
    cbv iota. replace (0 <? radix) with true by (symmetry; apply Z.ltb_lt; lia).
    rewrite Z.mul_0_l, Z.add_0_l, IH. cbn [Nat.eqb negb].
    now rewrite orb_true_r, orb_true_l.
Qed.

Lemma toString16_notSpace v :
  0 <= v -> Str.forallb notSpace (toString16 (JInt v)) = true.
Proof.
  intros Hv. destruct v as [|p|p]; [reflexivity | | lia].
  eapply forallb_impl; [apply hexDigit_notSpace | apply toString16_digits].
Qed.

Lemma readDigits_toString16 v seen :
  0 <= v -> readDigits 16 (toString16 (JInt v)) 0 seen = (v, true, EmptyString).
Proof.
  intros Hv. destruct v as [|p|p]; [reflexivity | | lia].
  cbn [toString16 Z.to_hex_int HexadecimalString.NilZero.string_of_int].
  apply readDigits_to_hex.
Qed.

(** X18 ([padHex], [bigIntToHex], [hexToBigInt]): padding the rendering of
    a number that is not negative to [length] bytes keeps its value; the
    result is [0x] and the larger of [2 * length] and the number of digits
    it had, so a value too wide for [length] bytes is not cut. *)
Theorem padHex_keeps_the_value v len :
  0 <= v ->
  hexToBigInt (padHex (bigIntToHex v) len) = Ok v /\
  String.length (padHex (bigIntToHex v) len)
  = (2 + Nat.max (Z.to_nat (len * 2)) (String.length (toString16 (JInt v))))%nat.
Proof.
  intros Hv. unfold padHex, bigIntToHex.
  set (h := toString16 (JInt v)).
  change (startsWith "0x" ("0x" ++ h)) with true. cbv iota.
  assert (Hs : sliceFrom 2 ("0x" ++ h) = h).
  { unfold sliceFrom. cbn [append String.length substring Nat.sub].
    rewrite Nat.sub_0_r. apply substring_all. }
  rewrite Hs. unfold Str.padStart. split.
  - unfold hexToBigInt, BigInt_of_string. rewrite trim_id.
    + cbn [append]. unfold readAllDigits.
      rewrite readDigits_zeros by lia. unfold h.
      now rewrite readDigits_toString16.
    + cbn [append Str.forallb].
      change (notSpace "0") with true. change (notSpace "x") with true. cbn [andb].
      rewrite forallb_app, forallb_repeat by reflexivity.
      now apply toString16_notSpace.
  - cbn [append String.length]. rewrite length_append, length_repeat. lia.
Qed.

Lemma padHex_keeps_the_value_witness :
  hexToBigInt (padHex (bigIntToHex 255) 32) = Ok 255 /\
  String.length (padHex (bigIntToHex 255) 32)
  = (2 + Nat.max (Z.to_nat (32 * 2)) (String.length (toString16 (JInt 255))))%nat.
Proof. apply (padHex_keeps_the_value 255 32). lia. Defined.

(** ** Decimal amounts *)

Lemma readDigits_digits s : forall acc seen,
  Str.forallb isDecimalDigit s = true ->
  readDigits 10 s acc seen = (digitsValue s acc, (seen || Str.truthy s)%bool, EmptyString).
Proof.
  induction s as [|c r IH]; intros acc seen; cbn [Str.forallb readDigits digitsValue].
  - intros _. cbn. now rewrite orb_false_r.
  - intros H. apply andb_prop in H. destruct H as [Hc Hr].
    unfold isDecimalDigit, isDigitOf in Hc.
    destruct (digitValue c) as [d|]; [| discriminate].
    rewrite Hc, (IH _ _ Hr). cbn [Str.truthy]. now rewrite !orb_true_r.
Qed.

Lemma digitsValue_app a b : forall acc,
  digitsValue (a ++ b) acc = digitsValue b (digitsValue a acc).
Proof. induction a as [|c a IH]; intros acc; cbn [append digitsValue]; [reflexivity | apply IH]. Qed.

Lemma digitsValue_zeros k : forall acc,
  digitsValue (Str.repeat "0" k) acc = acc * 10 ^ Z.of_nat k.
Proof.
  induction k as [|k IH]; intros acc; cbn [Str.repeat digitsValue].
  - cbn. lia.
  - change (digitValue "0") with (Some 0). rewrite IH, Nat2Z.inj_succ, Z.pow_succ_r by lia.
    lia.
Qed.

Lemma digitsValue_acc s : forall acc,
  digitsValue s acc = acc * 10 ^ Z.of_nat (String.length s) + digitsValue s 0.
Proof.
  induction s as [|c r IH]; intros acc; cbn [digitsValue String.length].
  - cbn. lia.
  - rewrite IH, (IH (0 * 10 + _)), Nat2Z.inj_succ, Z.pow_succ_r by lia. lia.
Qed.

Lemma digitsValue_nonneg s :
  Str.forallb isDecimalDigit s = true -> 0 <= digitsValue s 0.
Proof.
  assert (H : forall s acc, Str.forallb isDecimalDigit s = true -> 0 <= acc ->
                            0 <= digitsValue s acc).
  { clear s. induction s as [|c r IH]; intros acc; cbn [Str.forallb digitsValue];
      [auto |].
    intros H Ha. apply andb_prop in H. destruct H as [Hc Hr]. apply (IH _ Hr).
    unfold isDecimalDigit, isDigitOf in Hc. unfold digitValue in *.
    repeat match type of Hc with
           | context [if ?b then _ else _] => destruct b
           end; try discriminate; lia. }
  intros Hs. apply H; [exact Hs | lia].
Qed.

Lemma BigInt_digitsValue s :
  s <> EmptyString -> Str.forallb isDecimalDigit s = true ->
  BigInt_of_string s = Ok (digitsValue s 0).
Proof.
  intros Hne Hd. rewrite BigInt_of_digits by assumption.
  unfold readAllDigits. rewrite readDigits_digits by assumption.
  destruct s; [congruence | reflexivity].
Qed.

Lemma bigintToString_nonempty a : bigintToString a <> EmptyString.
Proof.
  intros H. pose proof (BigInt_of_bigintToString a) as Ha. rewrite H in Ha.
  destruct a as [|p|p]; try discriminate.
Qed.

Lemma to_uint_digits p :
  DecimalString.NilZero.string_of_uint (Pos.to_uint p)
  = DecimalString.NilEmpty.string_of_uint (Pos.to_uint p).
Proof.
  pose proof (DecimalPos.Unsigned.to_uint_nonnil p).
  destruct (Pos.to_uint p); [congruence | reflexivity ..].
Qed.

Lemma bigintToString_digits v :
  0 <= v -> Str.forallb isDecimalDigit (bigintToString v) = true.
Proof.
  intros Hv. destruct v as [|p|p]; [reflexivity | | lia].
  unfold bigintToString. cbn [Z.to_int DecimalString.NilZero.string_of_int].
  rewrite to_uint_digits. apply decimal_digits.
Qed.

Lemma digit_notDot c : isDecimalDigit c = true -> negb (Ascii.eqb c ".") = true.
Proof.
  destruct c as [[|] [|] [|] [|] [|] [|] [|] [|]]; vm_compute; congruence.
Qed.

Lemma digits_noDot s :
  Str.forallb isDecimalDigit s = true ->
  Str.forallb (fun c => negb (Ascii.eqb c ".")) s = true.
Proof. apply forallb_impl, digit_notDot. Qed.

Lemma bigintToString_noDot a :
  Str.forallb (fun c => negb (Ascii.eqb c ".")) (bigintToString a) = true.
Proof.
  destruct a as [|p|p]; [reflexivity | apply digits_noDot, bigintToString_digits; lia |].
  unfold bigintToString. cbn [Z.to_int DecimalString.NilZero.string_of_int Str.forallb].
  rewrite to_uint_digits. change (negb (Ascii.eqb "-" ".")) with true. cbn [andb].
  apply digits_noDot, decimal_digits.
Qed.

Lemma digitsValue_bigintToString v : 0 <= v -> digitsValue (bigintToString v) 0 = v.
Proof.
  intros Hv. pose proof (BigInt_of_bigintToString v) as H.
  rewrite BigInt_digitsValue in H;
    [congruence | apply bigintToString_nonempty | now apply bigintToString_digits].
Qed.

Lemma orElse_nonempty a b : a <> EmptyString -> Str.orElse a b = a.
Proof. destruct a; [congruence | reflexivity]. Qed.

(** The eighteen decimals that [ewtToWei] reads, for at most that many
    digits. *)
Lemma padded_decimals n d :
  Str.forallb isDecimalDigit d = true -> (String.length d <= n)%nat -> (0 < n)%nat ->
  BigInt_of_string (Str.slice 0 n (Str.padEnd n "0" d))
  = Ok (digitsValue d 0 * 10 ^ Z.of_nat (n - String.length d)).
Proof.
  intros Hd Hl Hn. unfold Str.slice, Str.padEnd. rewrite Nat.sub_0_r.
  assert (Hlen : String.length (d ++ Str.repeat "0" (n - String.length d)) = n).
  { rewrite length_append, length_repeat. lia. }
  rewrite <- Hlen at 1. rewrite substring_all.
  rewrite BigInt_digitsValue.
  - now rewrite digitsValue_app, digitsValue_zeros.
  - intros E. rewrite E in Hlen. cbn in Hlen. lia.
  - rewrite forallb_app, Hd. now apply forallb_repeat.
Qed.

Lemma splitOn_two w d :
  Str.forallb (fun c => negb (Ascii.eqb c ".")) w = true ->
  Str.forallb (fun c => negb (Ascii.eqb c ".")) d = true ->
  splitOn "." (w ++ "." ++ d) = [w; d].
Proof.
  intros Hw Hd. change (w ++ "." ++ d) with (w ++ String "." d).
  now rewrite splitOn_app, splitOn_none.
Qed.

Lemma ewtToWei_parts a d :
  Str.forallb isDecimalDigit d = true -> (String.length d <= 18)%nat ->
  ewtToWei (bigintToString a ++ "." ++ d)
  = Ok (bigintToString (a * 10 ^ 18 + digitsValue d 0 * 10 ^ Z.of_nat (18 - String.length d))).
Proof.
  intros Hd Hl. unfold ewtToWei.
  rewrite splitOn_two by (apply bigintToString_noDot || now apply digits_noDot).
  cbn [nth_error]. rewrite orElse_nonempty by apply bigintToString_nonempty.
  rewrite BigInt_of_bigintToString, padded_decimals by (assumption || lia).
  reflexivity.
Qed.

Lemma gweiToWei_parts a d :
  Str.forallb isDecimalDigit d = true -> (String.length d <= 9)%nat ->
  gweiToWei (bigintToString a ++ "." ++ d)
  = Ok (bigintToString (a * 10 ^ 9 + digitsValue d 0 * 10 ^ Z.of_nat (9 - String.length d))).
Proof.
  intros Hd Hl. unfold gweiToWei.
  rewrite splitOn_two by (apply bigintToString_noDot || now apply digits_noDot).
  cbn [nth_error]. rewrite orElse_nonempty by apply bigintToString_nonempty.
  rewrite BigInt_of_bigintToString, padded_decimals by (assumption || lia).
  reflexivity.
Qed.

Lemma ewtToWei_whole a : ewtToWei (bigintToString a) = Ok (bigintToString (a * 10 ^ 18)).
Proof.
  unfold ewtToWei. rewrite splitOn_none by apply bigintToString_noDot.
  cbn [nth_error]. rewrite orElse_nonempty by apply bigintToString_nonempty.
  rewrite BigInt_of_bigintToString. cbn [rbind].
  change (BigInt_of_string WEI_UNITS.ewt) with (Ok (10 ^ 18)).
  change (BigInt_of_string (Str.slice 0 18 (Str.padEnd 18 "0" EmptyString))) with (Ok 0).
  cbn [rbind]. now rewrite Z.add_0_r.
Qed.

Lemma gweiToWei_whole a : gweiToWei (bigintToString a) = Ok (bigintToString (a * 10 ^ 9)).
Proof.
  unfold gweiToWei. rewrite splitOn_none by apply bigintToString_noDot.
  cbn [nth_error]. rewrite orElse_nonempty by apply bigintToString_nonempty.
  rewrite BigInt_of_bigintToString. cbn [rbind].
  change (BigInt_of_string WEI_UNITS.gwei) with (Ok (10 ^ 9)).
  change (BigInt_of_string (Str.slice 0 9 (Str.padEnd 9 "0" EmptyString))) with (Ok 0).
  cbn [rbind]. now rewrite Z.add_0_r.
Qed.

(** X19 ([ewtToWei], [gweiToWei], [unitsToWei]): an amount written as an
    integer [a], a point and at most eighteen (nine for gwei) decimal
    digits [d] converts to [a * 10^18 + d * 10^(18 - |d|)] wei; the
    decimals are added to the whole part whatever its sign, so a negative
    amount with decimals comes out larger than it is. *)
Theorem unitsToWei_value a d :
  Str.forallb isDecimalDigit d = true ->
  ((String.length d <= 18)%nat ->
   unitsToWei (bigintToString a ++ "." ++ d) unit_ewt
   = Ok (bigintToString
           (a * 10 ^ 18 + digitsValue d 0 * 10 ^ Z.of_nat (18 - String.length d)))) /\
  ((String.length d <= 9)%nat ->
   unitsToWei (bigintToString a ++ "." ++ d) unit_gwei
   = Ok (bigintToString
           (a * 10 ^ 9 + digitsValue d 0 * 10 ^ Z.of_nat (9 - String.length d)))) /\
  unitsToWei (bigintToString a) unit_ewt = Ok (bigintToString (a * 10 ^ 18)) /\
  unitsToWei (bigintToString a) unit_gwei = Ok (bigintToString (a * 10 ^ 9)).
Proof.
  intros Hd. cbn [unitsToWei]. split; [| split; [| split]].
  - now apply ewtToWei_parts.
  - now apply gweiToWei_parts.
  - apply ewtToWei_whole.
  - apply gweiToWei_whole.
Qed.

Lemma unitsToWei_value_witness :
  unitsToWei "-1.5" unit_ewt = Ok "-500000000000000000" /\
  unitsToWei "2.25" unit_gwei = Ok "2250000000".
Proof.
  pose proof (unitsToWei_value (-1) "5" eq_refl) as [H1 _].
  pose proof (unitsToWei_value 2 "25" eq_refl) as [_ [H2 _]].
  split; [apply H1 | apply H2]; cbn; lia.
Defined.

Lemma splitOn_head sep a : forall b,
  Str.forallb (fun c => negb (Ascii.eqb c sep)) a = true ->
  exists h t, splitOn sep b = h :: t /\ splitOn sep (a ++ b) = (a ++ h) :: t.
Proof.
  induction a as [|c a IH]; intros b; cbn [Str.forallb append].
  - intros _. destruct b as [|x b]; cbn [splitOn]; [eauto |].
    destruct (Ascii.eqb x sep); [eauto |].
    destruct (splitOn sep b); eauto.
  - intros H. apply andb_prop in H. destruct H as [Hc Ha].
    destruct (IH b Ha) as (h & t & Hb & Hab). exists h, t. split; [exact Hb |].
    cbn [splitOn]. destruct (Ascii.eqb c sep); [discriminate |]. now rewrite Hab.
Qed.

(** What [decimals.padEnd(n, '0').slice(0, n)] keeps of [n] characters
    followed by more. *)
Lemma padded_prefix n d rest :
  String.length d = n -> Str.slice 0 n (Str.padEnd n "0" (d ++ rest)) = d.
Proof.
  intros Hl. unfold Str.slice, Str.padEnd. rewrite Nat.sub_0_r, length_append, Hl.
  replace (n - (n + String.length rest))%nat with 0%nat by lia.
  cbn [Str.repeat]. rewrite append_nil_r. rewrite <- Hl. apply substring_prefix.
Qed.

(** X20 ([ewtToWei], [gweiToWei]): whatever follows the eighteenth decimal
    of an amount in EWT, or the ninth of an amount in gwei, is dropped
    without being read: further digits are truncated, not rounded, and
    text that is no number at all is accepted there. *)
Theorem decimals_beyond_precision_are_ignored w d rest :
  Str.forallb (fun c => negb (Ascii.eqb c ".")) w = true ->
  Str.forallb (fun c => negb (Ascii.eqb c ".")) d = true ->
  (String.length d = 18%nat ->
   ewtToWei (w ++ "." ++ d ++ rest) = ewtToWei (w ++ "." ++ d)) /\
  (String.length d = 9%nat ->
   gweiToWei (w ++ "." ++ d ++ rest) = gweiToWei (w ++ "." ++ d)).
Proof.
  intros Hw Hd.
  destruct (splitOn_head "." d rest Hd) as (h & t & _ & Hsplit).
  assert (Hl : splitOn "." (w ++ "." ++ d ++ rest) = w :: (d ++ h) :: t).
  { change (w ++ "." ++ d ++ rest) with (w ++ String "." (d ++ rest)).
    now rewrite splitOn_app, Hsplit. }
  pose proof (splitOn_two w d Hw Hd) as Hr.
  split; intros Hlen.
  - unfold ewtToWei. rewrite Hl, Hr. cbn [nth_error].
    pose proof (padded_prefix 18 d EmptyString Hlen) as H0.
    rewrite append_nil_r in H0. now rewrite (padded_prefix 18 d h Hlen), H0.
  - unfold gweiToWei. rewrite Hl, Hr. cbn [nth_error].
    pose proof (padded_prefix 9 d EmptyString Hlen) as H0.
    rewrite append_nil_r in H0. now rewrite (padded_prefix 9 d h Hlen), H0.
Qed.

Lemma decimals_beyond_precision_are_ignored_witness :
  ewtToWei "1.000000000000000001not a number"
  = ewtToWei "1.000000000000000001" /\
  ewtToWei "1.000000000000000001" = Ok "1000000000000000001".
Proof.
  split; [| reflexivity].
  apply (proj1 (decimals_beyond_precision_are_ignored
                  "1" "000000000000000001" "not a number" eq_refl eq_refl)).
  reflexivity.
Defined.

(** ** From wei to EWT and back *)

Lemma strip_spec s :
  s = Str.stripTrailingZeros s
      ++ Str.repeat "0" (String.length s - String.length (Str.stripTrailingZeros s)).
Proof.
  induction s as [|c r IH]; [reflexivity |].
  cbn [Str.stripTrailingZeros].
  destruct (Str.stripTrailingZeros r) as [|c' r'] eqn:E.
  - cbn [append String.length Nat.sub] in IH. rewrite Nat.sub_0_r in IH.
    destruct (Ascii.eqb c "0") eqn:Ec.
    + apply Ascii.eqb_eq in Ec. subst c.
      cbn [append String.length Nat.sub Str.repeat]. now rewrite <- IH.
    + cbn [append String.length Nat.sub]. rewrite Nat.sub_0_r. now rewrite <- IH.
  - cbn [append String.length Nat.sub]. cbn [append String.length] in IH.
    now rewrite <- IH.
Qed.

Lemma strip_length s :
  (String.length (Str.stripTrailingZeros s) <= String.length s)%nat.
Proof.
  pose proof (strip_spec s) as H. apply (f_equal String.length) in H.
  rewrite length_append, length_repeat in H. lia.
Qed.

Lemma strip_forallb p s :
  Str.forallb p s = true -> Str.forallb p (Str.stripTrailingZeros s) = true.
Proof.
  intros H. rewrite (strip_spec s), forallb_app in H.
  now apply andb_prop in H.
Qed.

Lemma strip_value s :
  digitsValue s 0
  = digitsValue (Str.stripTrailingZeros s) 0
    * 10 ^ Z.of_nat (String.length s - String.length (Str.stripTrailingZeros s)).
Proof. rewrite (strip_spec s) at 1. now rewrite digitsValue_app, digitsValue_zeros. Qed.

(** A positive number below [10^n] is written with at most [n] digits. *)
Lemma bigintToString_length v n :
  0 < v < 10 ^ Z.of_nat n -> (String.length (bigintToString v) <= n)%nat.
Proof.
  intros [Hpos Hlt]. destruct v as [|p|p]; try lia.
  pose proof (digitsValue_bigintToString (Zpos p) ltac:(lia)) as Hv.
  pose proof (bigintToString_digits (Zpos p) ltac:(lia)) as Hd.
  unfold bigintToString in *.
  cbn [Z.to_int DecimalString.NilZero.string_of_int] in *.
  rewrite to_uint_digits in *.
  assert (Hnz : forall d', Pos.to_uint p <> Decimal.D0 d').
  { intros d' E.
    pose proof (DecimalPos.Unsigned.to_of (Pos.to_uint p)) as Hto.
    rewrite DecimalPos.Unsigned.of_to in Hto. cbn [N.to_uint] in Hto.
    pose proof (DecimalPos.Unsigned.to_uint_nonzero p) as Hz.
    destruct (Decimal.uint_eq_dec (Decimal.nzhead (Pos.to_uint p)) Decimal.Nil) as [En|En].
    - unfold Decimal.unorm in Hto. rewrite En in Hto. congruence.
    - rewrite (DecimalFacts.unorm_nzhead _ En) in Hto.
      apply (DecimalFacts.nzhead_nonzero (Pos.to_uint p) d'). congruence. }
  destruct (Pos.to_uint p) as [|d|d|d|d|d|d|d|d|d|d] eqn:E;
    [ cbn in Hv; lia | exfalso; apply (Hnz d); reflexivity | ..];
    cbn [DecimalString.NilEmpty.string_of_uint String.length digitsValue Str.forallb] in *;
    apply andb_prop in Hd; destruct Hd as [_ Hd];
    rewrite digitsValue_acc in Hv;
    pose proof (digitsValue_nonneg _ Hd) as Hnn;
    change (digitValue _) with (Some 1) in Hv || change (digitValue _) with (Some 2) in Hv
    || change (digitValue _) with (Some 3) in Hv || change (digitValue _) with (Some 4) in Hv
    || change (digitValue _) with (Some 5) in Hv || change (digitValue _) with (Some 6) in Hv
    || change (digitValue _) with (Some 7) in Hv || change (digitValue _) with (Some 8) in Hv
    || change (digitValue _) with (Some 9) in Hv;
    (destruct (le_lt_dec (S (String.length (DecimalString.NilEmpty.string_of_uint d))) n)
       as [Hle|Hgt]; [exact Hle | exfalso]);
    (assert (Hpow : 10 ^ Z.of_nat n
                    <= 10 ^ Z.of_nat (String.length (DecimalString.NilEmpty.string_of_uint d)))
       by (apply Z.pow_le_mono_r; lia));
    nia.
Qed.

(** X21 ([weiToUnits], [formatEwt], [ewtToWei], [gweiToWei]): for an
    amount of wei that is not negative, the [ewt] field of [weiToUnits]
    converts back with [ewtToWei] to exactly the [wei] field, which is the
    amount; the [gwei] field is rounded down and converts back to the
    amount less its remainder modulo [10^9]. *)
Theorem ewt_of_wei_converts_back v :
  0 <= v ->
  exists u,
    weiToUnits (bigintToString v) = Ok u /\
    uc_wei u = bigintToString v /\
    ewtToWei (uc_ewt u) = Ok (uc_wei u) /\
    gweiToWei (uc_gwei u) = Ok (bigintToString (v - v mod 10 ^ 9)).
Proof.
  intros Hv. rewrite weiToUnits_of_bigint. eexists. split; [reflexivity |].
  cbn [uc_wei uc_ewt uc_gwei]. split; [reflexivity |]. split.
  - unfold formatEwt.
    rewrite Z.rem_mod_nonneg, Z.quot_div_nonneg by lia.
    pose proof (Z.div_mod v (10 ^ 18) ltac:(lia)) as Hdm.
    pose proof (Z.mod_pos_bound v (10 ^ 18) ltac:(lia)) as Hb.
    destruct (v mod 10 ^ 18 =? 0) eqn:Hr.
    + apply Z.eqb_eq in Hr. rewrite ewtToWei_whole. do 2 f_equal. lia.
    + apply Z.eqb_neq in Hr.
      set (r := v mod 10 ^ 18) in *.
      set (P := Str.padStart 18 "0" (bigintToString r)).
      assert (Hlr : (String.length (bigintToString r) <= 18)%nat)
        by (apply bigintToString_length; change (Z.of_nat 18) with 18; lia).
      assert (HP : Str.forallb isDecimalDigit P = true).
      { unfold P, Str.padStart. rewrite forallb_app, forallb_repeat by reflexivity.
        apply bigintToString_digits. lia. }
      assert (HlP : String.length P = 18%nat).
      { unfold P, Str.padStart. rewrite length_append, length_repeat. lia. }
      assert (HvP : digitsValue P 0 = r).
      { unfold P, Str.padStart. rewrite digitsValue_app, digitsValue_zeros.
        rewrite Z.mul_0_l. apply digitsValue_bigintToString. lia. }
      pose proof (strip_length P) as Hsl. pose proof (strip_value P) as Hsv.
      rewrite ewtToWei_parts by (now apply strip_forallb || lia).
      do 2 f_equal. rewrite HlP, HvP in Hsv. rewrite <- Hsv. lia.
  - rewrite Z.quot_div_nonneg by lia. rewrite gweiToWei_whole. do 2 f_equal.
    pose proof (Z.div_mod v (10 ^ 9) ltac:(lia)). lia.
Qed.

Lemma ewt_of_wei_converts_back_witness :
  exists u,
    weiToUnits (bigintToString 1500000000000000000) = Ok u /\
    uc_wei u = bigintToString 1500000000000000000 /\
    ewtToWei (uc_ewt u) = Ok (uc_wei u) /\
    gweiToWei (uc_gwei u)
    = Ok (bigintToString (1500000000000000000 - 1500000000000000000 mod 10 ^ 9)).
Proof. apply (ewt_of_wei_converts_back 1500000000000000000). lia. Defined.

(** ** Retrying *)

Section Retry.

Context {A : Type} (attempt : nat -> result A) (maxRetries delayMs : Z).

Lemma retryLoop_fails n : forall c i sl last,
  i = Z.of_nat c -> Z.of_nat (c + n) = maxRetries ->
  (forall j, (c <= j < c + n)%nat -> isThrow (attempt j) = true) ->
  retryLoop (observedFn attempt) observedSleep maxRetries delayMs n i last
    {| ob_calls := c; ob_sleeps := sl |}
  = (Rejected match n with
              | O => last
              | Datatypes.S n' =>
                  match attempt (c + n') with Throw e => Some e | Ok _ => None end
              end,
     {| ob_calls := c + n; ob_sleeps := (sl ++ delays delayMs c (n - 1))%list |}).
Proof.
  induction n as [|n IH]; intros c i sl last Hi Hmax Hfail.
  - cbn [retryLoop Nat.sub delays seq map].
    now rewrite Nat.add_0_r, List.app_nil_r.
  - cbn [retryLoop]. unfold observedFn at 1. cbn [ob_calls ob_sleeps].
    pose proof (Hfail c ltac:(lia)) as Hc.
    destruct (attempt c) as [a|e] eqn:Ea; [discriminate |].
    destruct n as [|n].
    + replace (i <? maxRetries - 1) with false by (symmetry; apply Z.ltb_ge; lia).
      cbn [retryLoop Nat.sub delays seq map].
      rewrite List.app_nil_r, Nat.add_0_r, Ea.
      now replace (c + 1)%nat with (Datatypes.S c) by lia.
    + replace (i <? maxRetries - 1) with true by (symmetry; apply Z.ltb_lt; lia).
      unfold observedSleep. cbn [ob_calls ob_sleeps].
      rewrite (IH (Datatypes.S c)); [| lia | lia | intros j Hj; apply Hfail; lia].
      replace (Datatypes.S c + n)%nat with (c + Datatypes.S n)%nat by lia.
      f_equal. f_equal; [lia |].
      rewrite <- List.app_assoc. f_equal.
      replace (Datatypes.S (Datatypes.S n) - 1)%nat with (Datatypes.S n) by lia.
      replace (Datatypes.S n - 1)%nat with n by lia.
      subst i. reflexivity.
Qed.

Lemma retryLoop_succeeds a k : forall n c i sl last,
  i = Z.of_nat c -> (k < n)%nat -> Z.of_nat (c + n) = maxRetries ->
  (forall j, (c <= j < c + k)%nat -> isThrow (attempt j) = true) ->
  attempt (c + k) = Ok a ->
  retryLoop (observedFn attempt) observedSleep maxRetries delayMs n i last
    {| ob_calls := c; ob_sleeps := sl |}
  = (Resolved a,
     {| ob_calls := c + k + 1; ob_sleeps := (sl ++ delays delayMs c k)%list |}).
Proof.
  induction k as [|k IH]; intros n c i sl last Hi Hk Hmax Hfail Hok;
    (destruct n as [|n]; [lia |]); cbn [retryLoop]; unfold observedFn at 1;
    cbn [ob_calls ob_sleeps].
  - rewrite Nat.add_0_r in Hok. rewrite Hok.
    cbn [delays seq map]. rewrite List.app_nil_r.
    do 2 f_equal. lia.
  - pose proof (Hfail c ltac:(lia)) as Hc.
    destruct (attempt c) as [x|e] eqn:Ea; [discriminate |].
    replace (i <? maxRetries - 1) with true by (symmetry; apply Z.ltb_lt; lia).
    unfold observedSleep. cbn [ob_calls ob_sleeps].
    rewrite (IH n (Datatypes.S c)); try lia.
    + f_equal. f_equal; [lia |]. rewrite <- List.app_assoc. subst i. reflexivity.
    + intros j Hj. apply Hfail. lia.
    + now replace (Datatypes.S c + k)%nat with (c + Datatypes.S k)%nat by lia.
Qed.

(** X22 ([retry], [sleep]): when the first [k] attempts throw and the next
    one, still within [maxRetries], returns a value, [retry] returns that
    value after exactly [k + 1] calls, having slept [delayMs], twice
    [delayMs], ... [k] times [delayMs] between them. *)
Theorem retry_returns_first_success a k :
  Z.of_nat k < maxRetries ->
  (forall j, (j < k)%nat -> isThrow (attempt j) = true) ->
  attempt k = Ok a ->
  retry (observedFn attempt) observedSleep maxRetries delayMs unobserved
  = (Resolved a, {| ob_calls := k + 1; ob_sleeps := delays delayMs 0 k |}).
Proof.
  intros Hk Hfail Hok. unfold retry, unobserved.
  apply (retryLoop_succeeds a k (Z.to_nat maxRetries) 0%nat 0 [] None); try lia.
  - intros j Hj. apply Hfail. lia.
  - exact Hok.
Qed.

(** X23 ([retry], [sleep]): when every attempt throws, [retry] calls the
    operation [maxRetries] times, sleeps between the attempts but not
    after the last, and throws the error of the last attempt; with
    [maxRetries] at most [0] it makes no attempt and throws [undefined]. *)
Theorem retry_gives_up_after_maxRetries :
  (forall j, Z.of_nat j < maxRetries -> isThrow (attempt j) = true) ->
  exists lastError,
    retry (observedFn attempt) observedSleep maxRetries delayMs unobserved
    = (Rejected lastError,
       {| ob_calls := Z.to_nat maxRetries;
          ob_sleeps := delays delayMs 0 (Z.to_nat maxRetries - 1) |}) /\
    (maxRetries <= 0 -> lastError = None) /\
    (0 < maxRetries ->
     exists e, lastError = Some e /\ attempt (Z.to_nat maxRetries - 1) = Throw e).
Proof.
  intros Hfail. unfold retry, unobserved.
  destruct (Z_le_gt_dec maxRetries 0) as [Hle|Hgt].
  - replace (Z.to_nat maxRetries) with 0%nat by lia.
    exists None. cbn [retryLoop Nat.sub delays seq map].
    split; [reflexivity |]. split; [reflexivity | lia].
  - rewrite (retryLoop_fails (Z.to_nat maxRetries) 0%nat 0 [] None);
      [| lia | lia | intros j Hj; apply Hfail; lia].
    eexists. split; [reflexivity |]. cbn [Nat.add]. split; [lia |].
    intros _. destruct (Z.to_nat maxRetries) as [|n] eqn:En; [lia |].
    replace (Datatypes.S n - 1)%nat with n by lia.
    pose proof (Hfail n ltac:(lia)) as Hn.
    destruct (attempt n) as [x|e]; [discriminate |]. eauto.
Qed.

End Retry.

Lemma retry_returns_first_success_witness :
  retry (observedFn (fun j => if Nat.ltb j 2 then Throw (TypeError "fetch failed")
                              else Ok j))
        observedSleep 3 1000 unobserved
  = (Resolved 2%nat, {| ob_calls := 3; ob_sleeps := [1000; 2000] |}).
Proof.
  apply (retry_returns_first_success
           (fun j => if Nat.ltb j 2 then Throw (TypeError "fetch failed") else Ok j)
           3 1000 2%nat 2%nat).
  - reflexivity.
  - intros j Hj. destruct j as [|[|j]]; [reflexivity | reflexivity | lia].
  - reflexivity.
Defined.

Lemma retry_gives_up_after_maxRetries_witness :
  exists lastError,
    retry (observedFn (fun _ : nat => @Throw nat (TypeError "fetch failed")))
          observedSleep 3 1000 unobserved
    = (Rejected lastError,
       {| ob_calls := 3; ob_sleeps := [1000; 2000] |}) /\
    (3 <= 0 -> lastError = None) /\
    (0 < 3 ->
     exists e, lastError = Some e /\ @Throw nat (TypeError "fetch failed") = Throw e).
Proof.
  apply (retry_gives_up_after_maxRetries
           (fun _ : nat => @Throw nat (TypeError "fetch failed")) 3 1000).
  intros j _. reflexivity.
Defined.
